(** * CSS declaration value parsers of happy-dom

  A shallow embedding of

  - [src/css/declaration/utilities/CSSStyleDeclarationValueParser.ts]
  - [src/css/declaration/utilities/CSSStyleDeclarationPropertyValueParser.ts]

  together with the part of the ECMAScript runtime these two files rely on
  (strings, regular expressions, [split], truthiness, property lookup on
  the receiver of a static method).

  Strings are sequences of code units.  The development covers the strings
  whose code units are below 256 (the Latin-1 range of UTF-16), which is
  what [Ascii.ascii] holds; [toLowerCase], [\s], [\d] and [.] are the
  ECMAScript ones restricted to that range. *)

From Stdlib Require Import Ascii String NArith Lia.
From stdpp Require Import gmap strings list fin_maps.

Set Warnings "-register-all".
Local Open Scope string_scope.

(** ** Code units *)

Module Char.

Definition code (c : ascii) : N := N_of_ascii c.

Definition between (lo hi c : ascii) : bool :=
  ((code lo <=? code c) && (code c <=? code hi))%N.

Definition eq (a c : ascii) : bool := (code a =? code c)%N.

Definition one_of (s : string) (c : ascii) : bool :=
  existsb (fun a => eq a c) (list_ascii_of_string s).

(** [\d] *)
Definition digit (c : ascii) : bool := between "0" "9" c.

(** [[0-9a-fA-F]] *)
Definition hex (c : ascii) : bool :=
  between "0" "9" c || between "a" "f" c || between "A" "F" c.

(** [\s]: TAB, LF, VT, FF, CR, SP and NBSP are the white space and line
    terminator code units below 256. *)
Definition space (c : ascii) : bool :=
  ((9 <=? code c) && (code c <=? 13) || (code c =? 32) || (code c =? 160))%N.

(** [.] without the [s] flag: everything but the line terminators. *)
Definition dot (c : ascii) : bool :=
  negb ((code c =? 10) || (code c =? 13))%N.

(** Unicode simple lower-casing below 256: [A-Z] and the Latin-1 capitals
    U+00C0..U+00DE (U+00D7, the multiplication sign, has no case). *)
Definition toLowerCase (c : ascii) : ascii :=
  if (between "A" "Z" c
      || ((192 <=? code c) && (code c <=? 222) && negb (code c =? 215)))%N
  then ascii_of_N (code c + 32)
  else c.

End Char.

(** ** Strings *)

Fixpoint toLowerCase (s : string) : string :=
  match s with
  | EmptyString => EmptyString
  | String c s' => String (Char.toLowerCase c) (toLowerCase s')
  end.

(** [a.includes(x)] on an array of strings. *)
Definition includes (a : list string) (x : string) : bool :=
  existsb (String.eqb x) a.

(** ** Regular expressions

  The pattern language the source uses, and the backtracking matcher of
  ECMAScript (sections RegExp Pattern Semantics and RegExpBuiltinExec):
  a matcher takes a state and a continuation, quantifiers are greedy,
  the left alternative is tried first. *)

Module RegExp.

Inductive regex : Type :=
| Eps                                          (* the empty pattern *)
| Chr (p : ascii → bool)                       (* a character or a class *)
| Seq (r1 r2 : regex)
| Alt (r1 r2 : regex)                          (* r1|r2 *)
| Rep (min : nat) (max : option nat) (r : regex) (* r{min,max}, greedy *)
| Grp (n : nat) (r : regex)                    (* the n-th capturing group *)
| Bol                                          (* ^ *)
| Eol.                                         (* $ *)

Definition star (r : regex) : regex := Rep 0 None r.
Definition plus (r : regex) : regex := Rep 1 None r.
Definition opt (r : regex) : regex := Rep 0 (Some 1) r.

Fixpoint lit (s : string) : regex :=
  match s with
  | EmptyString => Eps
  | String c EmptyString => Chr (Char.eq c)
  | String c s' => Seq (Chr (Char.eq c)) (lit s')
  end.

Fixpoint seqs (rs : list regex) : regex :=
  match rs with
  | [] => Eps
  | [r] => r
  | r :: rs' => Seq r (seqs rs')
  end.

(** The capturing groups inside a pattern. *)
Fixpoint groups (r : regex) : list nat :=
  match r with
  | Eps | Chr _ | Bol | Eol => []
  | Seq r1 r2 | Alt r1 r2 => groups r1 ++ groups r2
  | Rep _ _ r1 => groups r1
  | Grp n r1 => n :: groups r1
  end.

(** A state of the matcher: the index reached in the input, the input
    from there on, and the captures so far ([None] is [undefined]). *)
Record MatchState : Type := mkState {
  endIndex : nat;
  rest : string;
  captures : list (option string)
}.

Definition MatcherContinuation : Type := MatchState → option MatchState.

Definition advance (x : MatchState) (s : string) : MatchState :=
  mkState (S (endIndex x)) s (captures x).

Definition capture (n : nat) (x y : MatchState) : MatchState :=
  mkState (endIndex y) (rest y)
    (<[n := Some (substring 0 (endIndex y - endIndex x) (rest x))]> (captures y)).

Definition clear (ns : list nat) (x : MatchState) : MatchState :=
  mkState (endIndex x) (rest x)
    (foldr (fun n cs => <[n := None]> cs) (captures x) ns).

(** RepeatMatcher(m, min, max, greedy, x, c, parenIndex, parenCount) for a
    greedy quantifier over the matcher [m] whose capturing groups are [ns].
    An iteration that is not required and consumes nothing is refused, so
    there are at most [min] plus the length of the input that is left
    iterations; [bound] is that number, which [RepeatMatcher_bound] below
    shows to be immaterial. *)
Fixpoint RepeatMatcher
  (m : MatcherContinuation → MatchState → option MatchState) (ns : list nat)
  (c : MatcherContinuation) (bound min : nat) (max : option nat)
  (x : MatchState) {struct bound} : option MatchState :=
  match max, bound with
  | Some 0, _ => c x
  | _, 0 => c x
  | _, S bound' =>
      let d := fun y : MatchState =>
        if Nat.eqb min 0 && Nat.eqb (endIndex y) (endIndex x) then None
        else RepeatMatcher m ns c bound' (pred min) (pred <$> max) y in
      let xr := clear ns x in
      match min with
      | S _ => m d xr
      | 0 =>
          match m d xr with
          | Some z => Some z
          | None => c x
          end
      end
  end.

(** [matcher r c x]: match [r] at [x], then go on with [c]; [None] is
    failure. *)
Fixpoint matcher (r : regex) (c : MatcherContinuation) (x : MatchState)
  {struct r} : option MatchState :=
  match r with
  | Eps => c x
  | Chr p =>
      match rest x with
      | String ch s => if p ch then c (advance x s) else None
      | EmptyString => None
      end
  | Seq r1 r2 => matcher r1 (matcher r2 c) x
  | Alt r1 r2 =>
      match matcher r1 c x with
      | Some y => Some y
      | None => matcher r2 c x
      end
  | Rep min max r1 =>
      RepeatMatcher (matcher r1) (groups r1) c
        (min + String.length (rest x)) min max x
  | Grp n r1 => matcher r1 (fun y => c (capture n x y)) x
  | Bol => if Nat.eqb (endIndex x) 0 then c x else None
  | Eol => match rest x with EmptyString => c x | _ => None end
  end.

(** One attempt at index [i], where [s] is the input from [i] on.  The
    whole match is capture 0. *)
Definition match_at (r : regex) (i : nat) (s : string) : option MatchState :=
  matcher (Grp 0 r) Some
    (mkState i s (replicate (S (list_max (groups r))) None)).

(** [exec] without the [g] and [y] flags: the first index, from 0, at
    which the pattern matches. *)
Fixpoint exec_from (r : regex) (i : nat) (s : string)
  : option (list (option string)) :=
  match match_at r i s with
  | Some y => Some (captures y)
  | None =>
      match s with
      | String _ s' => exec_from r (S i) s'
      | EmptyString => None
      end
  end.

Definition exec (r : regex) (s : string) : option (list (option string)) :=
  exec_from r 0 s.

Definition test (r : regex) (s : string) : bool :=
  match exec r s with Some _ => true | None => false end.

(** [result[n]] of a successful [exec]. *)
Definition group (n : nat) (result : list (option string)) : option string :=
  mjoin (result !! n).

(** [s.split(r)] for a pattern without capturing groups, after
    RegExp.prototype[Symbol.split]: the pattern is tried at [q] only, as
    with the [y] flag.  [q] runs over the input and [piece] is the input
    from the end of the last separator ([p]) up to [q].  A separator found
    at [q] that ends at [e > q] closes the piece, and the [e - q] code
    units it covers are dropped ([skip]); a match that ends where the piece
    starts ([e = p]) moves [q] on by one. *)
Fixpoint split_from (r : regex) (q : nat) (s : string) (skip : nat)
  (piece : string) (A : list string) {struct s} : list string :=
  match s with
  | EmptyString => A ++ [piece]
  | String ch s' =>
      match skip with
      | S skip' => split_from r (S q) s' skip' piece A
      | 0 =>
          match match_at r q s with
          | None => split_from r (S q) s' 0 (piece +:+ String ch "") A
          | Some y =>
              let e := endIndex y in
              if Nat.eqb e q
              then
                (* an empty separator: closes a piece that is not empty,
                   and in both cases [q] moves on past [ch] *)
                match piece with
                | EmptyString => split_from r (S q) s' 0 (String ch "") A
                | _ => split_from r (S q) s' 0 (String ch "") (A ++ [piece])
                end
              else split_from r (S q) s' (e - q - 1) "" (A ++ [piece])
          end
      end
  end.

Definition split (r : regex) (s : string) : list string :=
  match s with
  | EmptyString =>
      match match_at r 0 s with Some _ => [] | None => [s] end
  | _ => split_from r 0 s 0 "" []
  end.

End RegExp.

Import RegExp.

(** ** The [i] flag *)

Module IgnoreCase.

(** Canonicalize of a pattern with the [i] flag and without the [u] flag,
    below 256: the code unit of the upper-case form when that form is one
    code unit.  The small sharp s has the two-letter upper case [SS] and
    stays; the micro sign and the small y with diaeresis have theirs at
    U+039C and U+0178. *)
Definition Canonicalize (c : ascii) : N :=
  let n := Char.code c in
  if (Char.between "a" "z" c
      || ((224 <=? n) && (n <=? 254) && negb (n =? 247)))%N
  then (n - 32)%N
  else if (n =? 255)%N then 376%N
  else if (n =? 181)%N then 924%N
  else n.

Definition eq_i (a c : ascii) : bool := (Canonicalize a =? Canonicalize c)%N.

(** A literal under the [i] flag. *)
Fixpoint lit_i (s : string) : regex :=
  match s with
  | EmptyString => Eps
  | String c EmptyString => Chr (eq_i c)
  | String c s' => Seq (Chr (eq_i c)) (lit_i s')
  end.

End IgnoreCase.

(** ** CSSStyleDeclarationValueParser.ts *)

Module CSSStyleDeclarationValueParser.

(** The patterns are those of the source, alternative by alternative; each
    is quoted before its definition. *)

(** "(-?\d+|-?\d*.\d+)", the [n]-th group *)
Definition number_re (n : nat) : regex :=
  Grp n (Alt (Seq (opt (lit "-")) (plus (Chr Char.digit)))
             (seqs [opt (lit "-"); star (Chr Char.digit); Chr Char.dot;
                    plus (Chr Char.digit)])).

(** "[^)]" *)
Definition not_paren (c : ascii) : bool := negb (Char.eq ")" c).

(** The four alternatives of [COLOR_REGEXP]:
    "^#([0-9a-fA-F]{3,4}){1,2}$" *)
Definition HEX_COLOR : regex :=
  seqs [Bol; lit "#"; Rep 1 (Some 2) (Grp 1 (Rep 3 (Some 4) (Chr Char.hex))); Eol].

(** "^rgb\(" G "\)$" where G, group 2, is a starred "[^)]" *)
Definition RGB_COLOR : regex :=
  seqs [Bol; lit "rgb("; Grp 2 (star (Chr not_paren)); lit ")"; Eol].

(** "^rgba\(" G "\)$" where G, group 3, is a starred "[^)]" *)
Definition RGBA_COLOR : regex :=
  seqs [Bol; lit "rgba("; Grp 3 (star (Chr not_paren)); lit ")"; Eol].

(** "^hsla?\(\s*N\s*,\s*N%\s*,\s*N%\s*" A "?\)" where N is
    "(-?\d+|-?\d*.\d+)" (groups 4, 5, 6 and 8) and A, group 7, is a comma,
    a starred "\s", N and a starred "\s"; the dot is not escaped and there
    is no "$" *)
Definition HSL_COLOR : regex :=
  seqs [Bol; lit "hsl"; opt (lit "a"); lit "(";
        star (Chr Char.space); number_re 4; star (Chr Char.space); lit ",";
        star (Chr Char.space); number_re 5; lit "%"; star (Chr Char.space); lit ",";
        star (Chr Char.space); number_re 6; lit "%"; star (Chr Char.space);
        opt (Grp 7 (seqs [lit ","; star (Chr Char.space); number_re 8;
                          star (Chr Char.space)]));
        lit ")"].

Definition COLOR_REGEXP : regex :=
  Alt HEX_COLOR (Alt RGB_COLOR (Alt RGBA_COLOR HSL_COLOR)).

(** "(in|cm|em|mm|pt|pc|px|ex|rem|vh|vw|ch)" *)
Definition unit_re : regex :=
  Grp 2 (Alt (lit "in") (Alt (lit "cm") (Alt (lit "em") (Alt (lit "mm")
        (Alt (lit "pt") (Alt (lit "pc") (Alt (lit "px") (Alt (lit "ex")
        (Alt (lit "rem") (Alt (lit "vh") (Alt (lit "vw") (lit "ch")))))))))))).

(** "^(0|[-+]?[0-9]*\.?[0-9]+(in|cm|em|mm|pt|pc|px|ex|rem|vh|vw|ch))$" *)
Definition LENGTH_REGEXP : regex :=
  seqs [Bol;
        Grp 1 (Alt (lit "0")
                   (seqs [opt (Chr (Char.one_of "-+")); star (Chr Char.digit);
                          opt (lit "."); plus (Chr Char.digit); unit_re]));
        Eol].

(** "^[-+]?[0-9]*\.?[0-9]+%$" *)
Definition PERCENTAGE_REGEXP : regex :=
  seqs [Bol; opt (Chr (Char.one_of "-+")); star (Chr Char.digit);
        opt (lit "."); plus (Chr Char.digit); lit "%"; Eol].

(** "^url\(\s*" G "\s*\)$" where G, group 1, is a starred "[^)]" *)
Definition URL_REGEXP : regex :=
  seqs [Bol; lit "url("; star (Chr Char.space); Grp 1 (star (Chr not_paren));
        star (Chr Char.space); lit ")"; Eol].

(** A result is a string or [null]. *)
Definition getLength (value : string) : option string :=
  if String.eqb value "0" then Some "0px"
  else if test LENGTH_REGEXP value then Some value
  else None.

Definition getPercentage (value : string) : option string :=
  if String.eqb value "0" then Some "0%"
  else if test PERCENTAGE_REGEXP value then Some value
  else None.

(** [a || b] on values that are a string or [null]: [a] unless it is
    falsy ([null] or the empty string). *)
Definition truthy (r : option string) : bool :=
  match r with
  | Some (String _ _) => true
  | _ => false
  end.

Definition or_else (a b : option string) : option string :=
  if truthy a then a else b.

Definition getMeasurement (value : string) : option string :=
  let lowerValue := toLowerCase value in
  if String.eqb lowerValue "inherit"
     || String.eqb lowerValue "initial"
     || String.eqb lowerValue "revert"
     || String.eqb lowerValue "unset"
  then Some lowerValue
  else or_else (getLength value) (getPercentage value).

Definition getMeasurementOrAuto (value : string) : option string :=
  let lowerValue := toLowerCase value in
  if String.eqb lowerValue "auto" then Some lowerValue
  else getMeasurement value.

(** [isNaN(parseInt(s))].  [parseInt] drops leading white space and a
    sign, reads [0x]/[0X] as the hexadecimal prefix, and is [NaN] exactly
    when no digit of the radix follows. *)
Fixpoint trimStart (s : string) : string :=
  match s with
  | String c s' => if Char.space c then trimStart s' else s
  | EmptyString => EmptyString
  end.

Definition parseInt_isNaN (s : string) : bool :=
  let s := trimStart s in
  let s := match s with
           | String c s' => if Char.one_of "+-" c then s' else s
           | EmptyString => s
           end in
  match s with
  | String c (String x s') =>
      if Char.eq "0" c && Char.one_of "xX" x
      then match s' with
           | String h _ => negb (Char.hex h)
           | EmptyString => true
           end
      else negb (Char.digit c)
  | String c EmptyString => negb (Char.digit c)
  | EmptyString => true
  end.

Definition getInteger (value : string) : option string :=
  if negb (parseInt_isNaN value) then Some value else None.

Definition getColor (value : string) : option string :=
  if test COLOR_REGEXP value then Some value else None.

(** [s.substring(start, end)]: both indices are clamped to the length and
    swapped when they come in the wrong order. *)
Definition substring_js (s : string) (start end_ : nat) : string :=
  let len := String.length s in
  let a := Nat.min start len in
  let b := Nat.min end_ len in
  substring (Nat.min a b) (Nat.max a b - Nat.min a b) s.

Definition quote (c : option ascii) : bool :=
  match c with
  | Some c => Char.eq (ascii_of_N 34) c || Char.eq "'" c
  | None => false
  end.

Definition same (a b : option ascii) : bool :=
  match a, b with
  | Some a, Some b => Char.eq a b
  | None, None => true
  | _, _ => false
  end.

(** The cases of the [switch] that return [null]. *)
Definition forbidden (c : ascii) : bool :=
  Char.eq "(" c || Char.eq ")" c || Char.eq " " c
  || Char.eq (ascii_of_N 9) c || Char.eq (ascii_of_N 10) c
  || Char.eq "'" c || Char.eq (ascii_of_N 34) c.

(** The [for] loop over [url[i]], as a walk down the string: [false] when
    it returns [null], [true] when it runs to the end.  The [i++] of the
    backslash case skips the code unit that follows. *)
Fixpoint scan (url : string) : bool :=
  match url with
  | EmptyString => true
  | String c url' =>
      if forbidden c then false
      else if Char.eq "\" c
      then match url' with
           | EmptyString => true
           | String _ url'' => scan url''
           end
      else scan url'
  end.

Definition getURL (value : string) : option string :=
  match value with
  | EmptyString => None
  | _ =>
      let lowerValue := toLowerCase value in
      if String.eqb lowerValue "none" || String.eqb lowerValue "inherit"
      then Some lowerValue
      else
        match exec URL_REGEXP value with
        | None => None
        | Some result =>
            (* group 1 takes part in every match: [exec_URL_group] below *)
            let url := default "" (group 1 result) in
            let first := String.get 0 url in
            let last := String.get (String.length url - 1) url in
            if quote first && negb (same first last) then None
            else
              let url := if quote first
                         then substring_js url 1 (String.length url - 1)
                         else url in
              if scan url then Some value else None
        end
  end.

End CSSStyleDeclarationValueParser.

(** ** Values of the property parsers

  The property parsers build objects, return [null], keep the empty
  string for a token that is not there, and pass [undefined] for an
  argument that is left out.  An object is a finite map from property
  names to values. *)

Inductive js : Type :=
| Undefined
| Null
| Bool (b : bool)
| Str (s : string)
| Obj (o : gmap string js).

Module JS.

(** ToBoolean *)
Definition truthy (v : js) : bool :=
  match v with
  | Undefined | Null => false
  | Bool b => b
  | Str EmptyString => false
  | Str _ => true
  | Obj _ => true
  end.

(** [v !== null] *)
Definition not_null (v : js) : bool :=
  match v with
  | Null => false
  | _ => true
  end.

(** [v[k]] for a [v] that is neither [null] nor [undefined] and a name [k]
    that is not an index: an own property of an object, [undefined]
    otherwise. *)
Definition get (v : js) (k : string) : js :=
  match v with
  | Obj o => default Undefined (o !! k)
  | _ => Undefined
  end.

(** [{ ...v }]: a copy of the own properties of an object; [null] and
    [undefined] have none.  The program spreads nothing else. *)
Definition spread (v : js) : js :=
  match v with
  | Obj o => Obj o
  | _ => Obj ∅
  end.

(** [Object.assign(target, source)] *)
Definition assign (target : gmap string js) (source : js) : gmap string js :=
  match source with
  | Obj o => o ∪ target
  | _ => target
  end.

(** A string or [null] as a value. *)
Definition of_result (r : option string) : js :=
  match r with
  | Some s => Str s
  | None => Null
  end.

(** [parts[i] ? f(parts[i]) : ''] *)
Definition when_part (parts : list string) (i : nat) (f : string → js) : js :=
  match parts !! i with
  | Some (String _ _ as p) => f p
  | _ => Str ""
  end.

(** The number of own properties. *)
Definition entries (v : js) : nat :=
  match v with
  | Obj o => size o
  | _ => 0
  end.

End JS.

(** [{ value, important }] *)
Definition PropertyValue (value important : js) : js :=
  Obj {[ "value" := value; "important" := important ]}.

(** ** CSSStyleDeclarationPropertyValueParser.ts *)

Module CSSStyleDeclarationPropertyValueParser.

Import CSSStyleDeclarationValueParser.

Definition BORDER_STYLE : list string :=
  ["none"; "hidden"; "dotted"; "dashed"; "solid"; "double"; "groove";
   "ridge"; "inset"; "outset"].
Definition BORDER_WIDTH : list string :=
  ["thin"; "medium"; "thick"; "inherit"; "initial"; "unset"; "revert"].
Definition BACKGROUND_REPEAT : list string :=
  ["repeat"; "repeat-x"; "repeat-y"; "no-repeat"; "inherit"].
Definition BACKGROUND_ATTACHMENT : list string :=
  ["scroll"; "fixed"; "inherit"].
Definition BACKGROUND_POSITION : list string :=
  ["top"; "center"; "bottom"; "left"; "right"].
Definition FLEX_BASIS : list string :=
  ["auto"; "fill"; "max-content"; "min-content"; "fit-content"; "content";
   "inherit"; "initial"; "revert"; "unset"].

Definition BORDER_COLLAPSE : list string :=
  ["separate"; "collapse"; "initial"; "inherit"].
Definition CLEAR : list string := ["none"; "left"; "right"; "both"; "inherit"].
Definition FLOAT : list string := ["none"; "left"; "right"; "inherit"].
Definition FONT_SIZE : list string :=
  ["xx-small"; "x-small"; "small"; "medium"; "large"; "x-large"; "xx-large";
   "xxx-large"; "smaller"; "larger"; "inherit"; "initial"; "revert"; "unset"].

(** [/ +/] and [/\s+/] *)
Definition SPACES : regex := plus (lit " ").
Definition WHITE_SPACE : regex := plus (Chr Char.space).

(** [/\s*,\s*/] *)
Definition COMMA : regex :=
  seqs [star (Chr Char.space); lit ","; star (Chr Char.space)].

(** "^rect\(" G "\)$" with the [i] flag, where G, group 1, is a starred
    dot *)
Definition RECT_REGEXP : regex :=
  seqs [Bol; IgnoreCase.lit_i "rect("; Grp 1 (star (Chr Char.dot));
        IgnoreCase.lit_i ")"; Eol].

Definition getBorderStyle (value : string) (important : js) : js :=
  let lowerValue := toLowerCase value in
  if includes BORDER_STYLE lowerValue
  then Obj {[ "border-style" := PropertyValue (Str lowerValue) important ]}
  else Null.

Definition getBorderCollapse (value : string) (important : js) : js :=
  let lowerValue := toLowerCase value in
  if includes BORDER_COLLAPSE lowerValue
  then Obj {[ "border-collapse" := PropertyValue (Str lowerValue) important ]}
  else Null.

Definition getBackgroundRepeat (value : string) (important : js) : js :=
  let lowerValue := toLowerCase value in
  if includes BACKGROUND_REPEAT lowerValue
  then Obj {[ "background-repeat" := PropertyValue (Str lowerValue) important ]}
  else Null.

Definition getBackgroundAttachment (value : string) (important : js) : js :=
  let lowerValue := toLowerCase value in
  if includes BACKGROUND_ATTACHMENT lowerValue
  then Obj {[ "background-attachment" := PropertyValue (Str lowerValue) important ]}
  else Null.

Definition getBackgroundPosition (value : string) (important : js) : js :=
  match value with
  | EmptyString => Null
  | _ =>
      match split WHITE_SPACE value with
      | [p0] =>
          if truthy (getLength p0)
          then Obj {[ "background-position" := PropertyValue (Str value) important ]}
          else
            match p0 with
            | EmptyString => Null
            | _ =>
                let lowerValue := toLowerCase value in
                if includes BACKGROUND_POSITION lowerValue
                   || String.eqb lowerValue "inherit"
                then Obj {[ "background-position" :=
                              PropertyValue (Str lowerValue) important ]}
                else Null
            end
      | [p0; p1] =>
          if truthy (or_else (getLength p0) (getPercentage p0))
             && truthy (or_else (getLength p1) (getPercentage p1))
          then Obj {[ "background-position" :=
                        PropertyValue (Str (toLowerCase value)) important ]}
          else if includes BACKGROUND_POSITION (toLowerCase p0)
                  && includes BACKGROUND_POSITION (toLowerCase p1)
          then Obj {[ "background-position" :=
                        PropertyValue
                          (Str (toLowerCase p0 +:+ " " +:+ toLowerCase p1))
                          important ]}
          else Null
      | _ => Null
      end
  end.

Definition getFlexBasis (value : string) (important : js) : js :=
  let lowerValue := toLowerCase value in
  if includes FLEX_BASIS lowerValue
  then Obj {[ "flex-basis" := PropertyValue (Str lowerValue) important ]}
  else Obj {[ "flex-basis" :=
                PropertyValue (JS.of_result (getLength value)) important ]}.

Definition getBorderWidth (value : string) (important : js) : js :=
  let lowerValue := toLowerCase value in
  if includes BORDER_WIDTH lowerValue
  then Obj {[ "border-width" := PropertyValue (Str lowerValue) important ]}
  else
    let length := getLength value in
    if truthy length
    then Obj {[ "border-width" := PropertyValue (JS.of_result length) important ]}
    else Null.

Definition getClear (value : string) (important : js) : js :=
  let lowerValue := toLowerCase value in
  if includes CLEAR lowerValue
  then Obj {[ "clear" := PropertyValue (Str lowerValue) important ]}
  else Null.

Definition getClip (value : string) (important : js) : js :=
  let lowerValue := toLowerCase value in
  if String.eqb lowerValue "auto" || String.eqb lowerValue "initial"
     || String.eqb lowerValue "inherit"
  then Obj {[ "clip" := PropertyValue (Str lowerValue) important ]}
  else
    match exec RECT_REGEXP lowerValue with
    | None => Null
    | Some matches =>
        (* group 1 takes part in every match: [exec_RECT_group] below *)
        let parts := split COMMA (default "" (group 1 matches)) in
        if negb (Nat.eqb (length parts) 4) then Null
        else if forallb (fun part => truthy (getMeasurement part)) parts
        then Obj {[ "clip" := PropertyValue (Str value) important ]}
        else Null
    end.

Definition getFloat (value : string) (important : js) : js :=
  let lowerValue := toLowerCase value in
  if includes FLOAT lowerValue
  then Obj {[ "float" := PropertyValue (Str lowerValue) important ]}
  else Null.

Definition getFontSize (value : string) (important : js) : js :=
  let lowerValue := toLowerCase value in
  if includes FONT_SIZE lowerValue
  then Obj {[ "font-size" := PropertyValue (Str lowerValue) important ]}
  else
    let measurement := or_else (getLength value) (getPercentage value) in
    if truthy measurement
    then Obj {[ "font-size" := PropertyValue (JS.of_result measurement) important ]}
    else Null.

Definition getBorder (value : string) (important : js) : js :=
  let parts := split SPACES value in
  let borderWidth := JS.when_part parts 0 (fun p => getBorderWidth p important) in
  let borderStyle := JS.when_part parts 1 (fun p => getBorderStyle p important) in
  let borderColor := JS.when_part parts 2 (fun p => JS.of_result (getColor p)) in
  let propertyValues : gmap string js := ∅ in
  let propertyValues :=
    if JS.truthy borderWidth
    then
      <["border-left-width" := JS.spread (JS.get borderWidth "border-width")]>
      (<["border-bottom-width" := JS.spread (JS.get borderWidth "border-width")]>
      (<["border-right-width" := JS.spread (JS.get borderWidth "border-width")]>
      (<["border-top-width" := JS.spread (JS.get borderWidth "border-width")]>
         propertyValues)))
    else propertyValues in
  let propertyValues :=
    if JS.truthy borderStyle
    then
      <["border-left-style" := JS.spread (JS.get borderStyle "border-style")]>
      (<["border-bottom-style" := JS.spread (JS.get borderStyle "border-style")]>
      (<["border-right-style" := JS.spread (JS.get borderStyle "border-style")]>
      (<["border-top-style" := JS.spread (JS.get borderStyle "border-style")]>
         propertyValues)))
    else propertyValues in
  let propertyValues :=
    if JS.truthy borderColor
    then
      <["border-left-style" := PropertyValue borderColor important]>
      (<["border-bottom-style" := PropertyValue borderColor important]>
      (<["border-right-style" := PropertyValue borderColor important]>
      (<["border-top-style" := PropertyValue borderColor important]>
         propertyValues)))
    else propertyValues in
  if JS.truthy borderWidth && JS.not_null borderStyle && JS.not_null borderColor
  then Obj propertyValues
  else Null.

Definition getBorderRadius (value : string) (important : js) : js :=
  let parts := split SPACES value in
  let topLeft := JS.when_part parts 0 (fun p => JS.of_result (getMeasurement p)) in
  let topRight := JS.when_part parts 1 (fun p => JS.of_result (getMeasurement p)) in
  let bottomRight := JS.when_part parts 2 (fun p => JS.of_result (getMeasurement p)) in
  let bottomLeft := JS.when_part parts 3 (fun p => JS.of_result (getMeasurement p)) in
  let propertyValues : gmap string js := ∅ in
  let propertyValues :=
    if JS.truthy topLeft
    then <["border-top-left-radius" := PropertyValue topLeft important]> propertyValues
    else propertyValues in
  let propertyValues :=
    if JS.truthy topRight
    then <["border-top-right-radius" := PropertyValue topRight important]> propertyValues
    else propertyValues in
  let propertyValues :=
    if JS.truthy bottomRight
    then <["border-bottom-right-radius" := PropertyValue bottomRight important]> propertyValues
    else propertyValues in
  let propertyValues :=
    if JS.truthy bottomLeft
    then <["border-bottom-left-radius" := PropertyValue bottomLeft important]> propertyValues
    else propertyValues in
  if JS.truthy topLeft && JS.not_null topRight && JS.not_null bottomRight
     && JS.not_null bottomLeft
  then Obj propertyValues
  else Null.

Definition getBorderByPosition (position value : string) (important : js) : js :=
  let parts := split SPACES value in
  let borderWidth := JS.when_part parts 0 (fun p => getBorderWidth p important) in
  let borderStyle := JS.when_part parts 1 (fun p => getBorderStyle p important) in
  let borderColor := JS.when_part parts 2 (fun p => JS.of_result (getColor p)) in
  if JS.truthy borderWidth && JS.truthy borderStyle && JS.truthy borderColor
  then Obj {[ "border-" +:+ position +:+ "-width" := JS.get borderWidth "border-width";
              "border-" +:+ position +:+ "-style" := JS.get borderStyle "border-style";
              "border-" +:+ position +:+ "-color" := PropertyValue borderColor important ]}
  else Null.

Definition getBorderTop := getBorderByPosition "top".
Definition getBorderRight := getBorderByPosition "right".
Definition getBorderBottom := getBorderByPosition "bottom".
Definition getBorderLeft := getBorderByPosition "left".

Definition getMarginByPosition (position value : string) (important : js) : js :=
  let lowerValue := toLowerCase value in
  if String.eqb lowerValue "auto"
  then Obj {[ "margin-" +:+ position := PropertyValue (Str "auto") important ]}
  else
    let measurement := getMeasurement value in
    if truthy measurement
    then Obj {[ "margin-" +:+ position :=
                  PropertyValue (JS.of_result measurement) important ]}
    else Null.

Definition getPaddingByPosition (position value : string) (important : js) : js :=
  let measurement := getMeasurement value in
  if truthy measurement
  then Obj {[ "padding-" +:+ position :=
                PropertyValue (JS.of_result measurement) important ]}
  else Null.

(** [parts[i] ? f(parts[0]) : '']: the right, bottom and left sides test
    their own token and parse the first one. *)
Definition when_part_first (parts : list string) (i : nat) (f : string → js) : js :=
  match parts !! i with
  | Some (String _ _) => f (default "" (parts !! 0))
  | _ => Str ""
  end.

Definition getPadding (value : string) (important : js) : js :=
  let parts := split SPACES value in
  let top := JS.when_part parts 0 (fun p => getPaddingByPosition "top" p important) in
  let right := when_part_first parts 1 (fun p => getPaddingByPosition "right" p important) in
  let bottom := when_part_first parts 2 (fun p => getPaddingByPosition "bottom" p important) in
  let left := when_part_first parts 3 (fun p => getPaddingByPosition "left" p important) in
  let propertyValues : gmap string js := ∅ in
  let propertyValues :=
    if JS.truthy top then JS.assign propertyValues top else propertyValues in
  let propertyValues :=
    if JS.truthy right then JS.assign propertyValues right else propertyValues in
  let propertyValues :=
    if JS.truthy bottom then JS.assign propertyValues bottom else propertyValues in
  let propertyValues :=
    if JS.truthy left then JS.assign propertyValues left else propertyValues in
  if JS.truthy top && JS.not_null right && JS.not_null bottom && JS.not_null left
  then Obj propertyValues
  else Null.

Definition getPaddingTop := getPaddingByPosition "top".
Definition getPaddingRight := getPaddingByPosition "right".
Definition getPaddingBottom := getPaddingByPosition "bottom".
Definition getPaddingLeft := getPaddingByPosition "left".

Definition getMargin (value : string) (important : js) : js :=
  let parts := split SPACES value in
  let top := JS.when_part parts 0 (fun p => getMarginByPosition "top" p important) in
  let right := when_part_first parts 1 (fun p => getMarginByPosition "right" p important) in
  let bottom := when_part_first parts 2 (fun p => getMarginByPosition "bottom" p important) in
  let left := when_part_first parts 3 (fun p => getMarginByPosition "left" p important) in
  let propertyValues : gmap string js := ∅ in
  let propertyValues :=
    if JS.truthy top then JS.assign propertyValues top else propertyValues in
  let propertyValues :=
    if JS.truthy right then JS.assign propertyValues right else propertyValues in
  let propertyValues :=
    if JS.truthy bottom then JS.assign propertyValues bottom else propertyValues in
  let propertyValues :=
    if JS.truthy left then JS.assign propertyValues left else propertyValues in
  if JS.truthy top && JS.not_null right && JS.not_null bottom && JS.not_null left
  then Obj propertyValues
  else Null.

Definition getMarginTop := getMarginByPosition "top".
Definition getMarginRight := getMarginByPosition "right".
Definition getMarginBottom := getMarginByPosition "bottom".
Definition getMarginLeft := getMarginByPosition "left".

(** *** [getFlex] and [getBackground]

    These two are written against their receiver: they call
    [this.getInteger], [this.getColor] and [this.getURL] and store into
    [this.properties].  They are static methods, so in a call
    [CSSStyleDeclarationPropertyValueParser.getFlex(...)] the receiver is
    the class itself, and the class declares none of these four members
    (the three recognisers are members of [CSSStyleDeclarationValueParser]).
    A member that is not there reads as [undefined]; calling it, or
    storing into it, throws a [TypeError].

    The receiver is kept explicit.  [getFlexBasis], [getBackgroundRepeat],
    [getBackgroundAttachment] and [getBackgroundPosition] are declared by
    the class and are the ones above. *)

Inductive exception : Type := TypeError.

Inductive completion (A : Type) : Type :=
| Normal (a : A)
| Throw (e : exception).
Arguments Normal {A} a.
Arguments Throw {A} e.

Record Receiver : Type := mkReceiver {
  properties : option (gmap string js);
  getInteger_member : option (string → option string);
  getColor_member : option (string → option string);
  getURL_member : option (string → option string)
}.

(** A computation against the receiver: it throws or it returns with the
    receiver as it has left it. *)
Definition M (A : Type) : Type := Receiver → completion (A * Receiver).

#[local] Instance M_ret : MRet M := fun A a this => Normal (a, this).
#[local] Instance M_bind : MBind M := fun A B f m this =>
  match m this with
  | Normal (a, this') => f a this'
  | Throw e => Throw e
  end.

(** [this.member(arg)] *)
Definition call (member : Receiver → option (string → option string))
  (arg : string) : M js :=
  fun this =>
    match member this with
    | Some f => Normal (JS.of_result (f arg), this)
    | None => Throw TypeError
    end.

(** [this.properties[k] = v] *)
Definition store (k : string) (v : js) : M () :=
  fun this =>
    match properties this with
    | Some o =>
        Normal ((), mkReceiver (Some (<[k := v]> o)) (getInteger_member this)
                      (getColor_member this) (getURL_member this))
    | None => Throw TypeError
    end.

(** [parts[i] ? f(parts[i]) : ''] where [f] goes through the receiver. *)
Definition when_partM (parts : list string) (i : nat) (f : string → M js) : M js :=
  match parts !! i with
  | Some (String _ _ as p) => f p
  | _ => mret (Str "")
  end.

(** [if (v) k] *)
Definition when (v : js) (k : M ()) : M () :=
  if JS.truthy v then k else mret ().

Fixpoint trimEnd (s : string) : string :=
  match s with
  | EmptyString => EmptyString
  | String c s' =>
      match trimEnd s' with
      | EmptyString => if Char.space c then EmptyString else String c EmptyString
      | t => String c t
      end
  end.

Definition trim (s : string) : string := trimEnd (trimStart s).

Definition getFlex (name value : string) (important : js) : M () :=
  let lowerValue := toLowerCase (trim value) in
  if String.eqb lowerValue "none" then
    store "flex-grow" (PropertyValue (Str "0") important);;
    store "flex-shrink" (PropertyValue (Str "0") important);;
    store "flex-basis" (PropertyValue (Str "auto") important)
  else if String.eqb lowerValue "auto" then
    store "flex-grow" (PropertyValue (Str "1") important);;
    store "flex-shrink" (PropertyValue (Str "1") important);;
    store "flex-basis" (PropertyValue (Str "auto") important)
  else if String.eqb lowerValue "initial" then
    store "flex-grow" (PropertyValue (Str "0") important);;
    store "flex-shrink" (PropertyValue (Str "0") important);;
    store "flex-basis" (PropertyValue (Str "auto") important)
  else if String.eqb lowerValue "inherit" then
    store "flex-grow" (PropertyValue (Str "inherit") important);;
    store "flex-shrink" (PropertyValue (Str "inherit") important);;
    store "flex-basis" (PropertyValue (Str "inherit") important)
  else
    let parts := split SPACES value in
    flexGrow ← when_partM parts 0 (call getInteger_member);
    flexShrink ← when_partM parts 1 (call getInteger_member);
    flexBasis ← when_partM parts 2 (fun p => mret (getFlexBasis p Undefined));
    if JS.truthy flexGrow && JS.truthy flexShrink && JS.truthy flexBasis then
      store "flex-grow" (PropertyValue flexGrow important);;
      store "flex-shrink" (PropertyValue flexShrink important);;
      store "flex-basis" (PropertyValue flexBasis important)
    else mret ().

Definition getBackground (name value : string) (important : js) : M () :=
  let parts := split SPACES value in
  match parts !! 0 with
  | Some (String _ _ as p0) =>
      isColor ← call getColor_member p0;
      (* parts.unshift('') *)
      let parts := if JS.truthy isColor then parts else "" :: parts in
      color ← when_partM parts 0 (call getColor_member);
      image ← when_partM parts 1 (call getURL_member);
      repeat ← when_partM parts 2 (fun p => mret (getBackgroundRepeat p Undefined));
      attachment ← when_partM parts 3 (fun p => mret (getBackgroundAttachment p Undefined));
      position ← when_partM parts 4 (fun p => mret (getBackgroundPosition p Undefined));
      if (JS.truthy color || JS.truthy image) && JS.not_null repeat
         && JS.not_null attachment && JS.not_null position
      then
        when color (store "background-color" (PropertyValue color important));;
        when image (store "background-image" (PropertyValue image important));;
        store "background-repeat" (PropertyValue repeat important);;
        store "background-attachment" (PropertyValue attachment important);;
        store "background-position" (PropertyValue position important)
      else mret ()
  | _ => mret ()
  end.

(** The class itself as the receiver. *)
Definition static_this : Receiver := mkReceiver None None None None.

(** A receiver that has a [properties] object and the three recognisers
    of [CSSStyleDeclarationValueParser] as members. *)
Definition with_members (o : gmap string js) : Receiver :=
  mkReceiver (Some o) (Some getInteger) (Some getColor) (Some getURL).

(** What a call has left in [this.properties]. *)
Definition stored (c : completion (() * Receiver)) : completion (option (gmap string js)) :=
  match c with
  | Normal (_, this) => Normal (properties this)
  | Throw e => Throw e
  end.

End CSSStyleDeclarationPropertyValueParser.

(** ** What the patterns denote

  The matcher above is the program.  The relation below says which
  stretches of the input a pattern covers, with no order among the
  alternatives and no captures; the matcher is shown to succeed exactly
  on these. *)

Module RegExpSpec.

(** A position: the index, and the input from there on. *)
Definition position : Type := nat * string.

Definition pos (x : MatchState) : position := (endIndex x, rest x).

Inductive Matches : regex → position → position → Prop :=
| M_Eps p : Matches Eps p p
| M_Chr f i ch s : f ch = true → Matches (Chr f) (i, String ch s) (S i, s)
| M_Seq r1 r2 p q u :
    Matches r1 p q → Matches r2 q u → Matches (Seq r1 r2) p u
| M_AltL r1 r2 p q : Matches r1 p q → Matches (Alt r1 r2) p q
| M_AltR r1 r2 p q : Matches r2 p q → Matches (Alt r1 r2) p q
| M_RepMax min r p : Matches (Rep min (Some 0) r) p p
| M_RepStop max r p : Matches (Rep 0 max r) p p
| M_RepStep min max r p q u :
    max ≠ Some 0 →
    Matches r p q →
    (min = 0 → q.1 ≠ p.1) →
    Matches (Rep (pred min) (pred <$> max) r) q u →
    Matches (Rep min max r) p u
| M_Grp n r p q : Matches r p q → Matches (Grp n r) p q
| M_Bol s : Matches Bol (0, s) (0, s)
| M_Eol i : Matches Eol (i, EmptyString) (i, EmptyString).

(** Whether [$] occurs in a pattern. *)
Fixpoint has_eol (r : regex) : bool :=
  match r with
  | Eps | Chr _ | Bol => false
  | Eol => true
  | Seq r1 r2 | Alt r1 r2 => has_eol r1 || has_eol r2
  | Rep _ _ r1 | Grp _ r1 => has_eol r1
  end.

(** Whether [^] occurs in a pattern. *)
Fixpoint has_bol (r : regex) : bool :=
  match r with
  | Eps | Chr _ | Eol => false
  | Bol => true
  | Seq r1 r2 | Alt r1 r2 => has_bol r1 || has_bol r2
  | Rep _ _ r1 | Grp _ r1 => has_bol r1
  end.

(** [y] has the captures of [x] but for the groups [ns]. *)
Definition frame (ns : list nat) (x y : MatchState) : Prop :=
  length (captures y) = length (captures x)
  ∧ ∀ n, n ∉ ns → captures y !! n = captures x !! n.

(** More input after the end. *)
Definition extend (t : string) (p : position) : position := (p.1, p.2 +:+ t).

(** The two halves of the agreement between a matcher [m] and the
    denotation of [r]. *)
Definition sound (r : regex)
  (m : MatcherContinuation → MatchState → option MatchState) : Prop :=
  ∀ c x z, m c x = Some z →
    ∃ y, Matches r (pos x) (pos y) ∧ frame (groups r) x y ∧ c y = Some z.

Definition complete (r : regex)
  (m : MatcherContinuation → MatchState → option MatchState) : Prop :=
  ∀ p q, Matches r p q →
    ∀ c x, pos x = p → (∀ y, pos y = q → is_Some (c y)) → is_Some (m c x).

(** [y] is further on in the input of [x]. *)
Definition reach (x y : MatchState) : Prop :=
  ∃ k, endIndex y = (endIndex x + k)%nat
       ∧ String.length (rest x) = (k + String.length (rest y))%nat.

(** A matcher looks at its continuation only further on in the input. *)
Definition extensional
  (m : MatcherContinuation → MatchState → option MatchState) : Prop :=
  ∀ c1 c2 x, (∀ y, reach x y → c1 y = c2 y) → m c1 x = m c2 x.

(** The patterns that can only match at index 0. *)
Fixpoint anchored (r : regex) : bool :=
  match r with
  | Bol => true
  | Seq r1 _ => anchored r1
  | Alt r1 r2 => anchored r1 && anchored r2
  | Grp _ r1 => anchored r1
  | _ => false
  end.

End RegExpSpec.

(** ** Vocabulary of the statements below *)

Module Spec.

Import CSSStyleDeclarationValueParser CSSStyleDeclarationPropertyValueParser.

(** The recognisers of [CSSStyleDeclarationValueParser]. *)
Inductive recognizer : Type :=
| Length | Percentage | Measurement | MeasurementOrAuto | Integer | Color | URL.

Definition recognize (f : recognizer) : string → option string :=
  match f with
  | Length => getLength
  | Percentage => getPercentage
  | Measurement => getMeasurement
  | MeasurementOrAuto => getMeasurementOrAuto
  | Integer => getInteger
  | Color => getColor
  | URL => getURL
  end.


(** A string has a code unit that the URL scan refuses and that no
    backslash escapes. *)
Inductive Unescaped : string → Prop :=
| U_here c s : forbidden c = true → Unescaped (String c s)
| U_escape c d s :
    Char.eq "\" c = true → Unescaped s → Unescaped (String c (String d s))
| U_next c s :
    forbidden c = false → Char.eq "\" c = false → Unescaped s →
    Unescaped (String c s).

Fixpoint all (p : ascii → bool) (s : string) : bool :=
  match s with
  | EmptyString => true
  | String c s' => p c && all p s'
  end.

(** The keywords [getMeasurement] lets through. *)
Definition keyword (lowerValue : string) : bool :=
  String.eqb lowerValue "inherit" || String.eqb lowerValue "initial"
  || String.eqb lowerValue "revert" || String.eqb lowerValue "unset".

(** No code unit of the class [p] comes next. *)
Definition stops (p : ascii → bool) (s : string) : bool :=
  match s with
  | EmptyString => true
  | String a _ => negb (p a)
  end.

(** The numbers of hex digits after [#] that [COLOR_REGEXP] takes. *)
Definition hex_lengths (n : nat) : Prop := n = 3 ∨ n = 4 ∨ n = 6 ∨ n = 7 ∨ n = 8.

(** The token at position [i] of a split value: there and not empty, or
    not there. *)
Definition present (parts : list string) (i : nat) (p : string) : Prop :=
  parts !! i = Some p ∧ p ≠ "".

Definition absent (parts : list string) (i : nat) : Prop :=
  parts !! i = None ∨ parts !! i = Some "".

Definition sides : list string := ["top"; "right"; "bottom"; "left"].

(** The [border] shorthand as all or nothing with twelve longhands. *)
Definition border_all_or_nothing : Prop :=
  ∀ (value : string) (important : bool),
    getBorder value (Bool important) ≠ Null →
    let parts := split SPACES value in
    (∃ p0 p1 p2, present parts 0 p0 ∧ present parts 1 p1 ∧ present parts 2 p2)
    ∧ JS.entries (getBorder value (Bool important)) = 12.

(** *** Vocabulary of the further properties *)

(** The units of [LENGTH_REGEXP]. *)
Definition UNITS : list string :=
  ["in"; "cm"; "em"; "mm"; "pt"; "pc"; "px"; "ex"; "rem"; "vh"; "vw"; "ch"].

(** "[-+]?[0-9]*\.?[0-9]+" read as a grammar: an optional sign, digits, an
    optional dot, and at least one digit. *)
Definition is_number (s : string) : Prop :=
  ∃ sign int dot frac,
    s = sign +:+ int +:+ dot +:+ frac
    ∧ (sign = "" ∨ sign = "+" ∨ sign = "-")
    ∧ all Char.digit int = true
    ∧ (dot = "" ∨ dot = ".")
    ∧ all Char.digit frac = true
    ∧ frac ≠ "".

(** What [LENGTH_REGEXP] takes besides ["0"], and what [PERCENTAGE_REGEXP]
    takes. *)
Definition is_length (v : string) : Prop :=
  ∃ n u, v = n +:+ u ∧ is_number n ∧ u ∈ UNITS.

Definition is_percentage (v : string) : Prop :=
  ∃ n, v = n +:+ "%" ∧ is_number n.

(** The keywords of [getMeasurement]. *)
Definition MEASUREMENT_KEYWORDS : list string :=
  ["inherit"; "initial"; "revert"; "unset"].

(** [a.join(sep)] *)
Fixpoint join (sep : string) (a : list string) : string :=
  match a with
  | [] => ""
  | [t] => t
  | t :: a' => t +:+ sep +:+ join sep a'
  end.

(** A token: not empty, and without a code unit of the separator class. *)
Definition token (p : ascii → bool) (t : string) : Prop :=
  t ≠ "" ∧ all (fun c => negb (p c)) t = true.

(** The parsers of one property that return an object or [null]. *)
Inductive property : Type :=
| BorderStyle | BorderCollapse | BackgroundRepeat | BackgroundAttachment
| BackgroundPosition | BorderWidth | Clear | Clip | Float | FontSize.

Definition parser (P : property) : string → js → js :=
  match P with
  | BorderStyle => getBorderStyle
  | BorderCollapse => getBorderCollapse
  | BackgroundRepeat => getBackgroundRepeat
  | BackgroundAttachment => getBackgroundAttachment
  | BackgroundPosition => getBackgroundPosition
  | BorderWidth => getBorderWidth
  | Clear => getClear
  | Clip => getClip
  | Float => getFloat
  | FontSize => getFontSize
  end.

Definition name (P : property) : string :=
  match P with
  | BorderStyle => "border-style"
  | BorderCollapse => "border-collapse"
  | BackgroundRepeat => "background-repeat"
  | BackgroundAttachment => "background-attachment"
  | BackgroundPosition => "background-position"
  | BorderWidth => "border-width"
  | Clear => "clear"
  | Clip => "clip"
  | Float => "float"
  | FontSize => "font-size"
  end.

(** Those that are one list of keywords. *)
Definition keywords (P : property) : option (list string) :=
  match P with
  | BorderStyle => Some BORDER_STYLE
  | BorderCollapse => Some BORDER_COLLAPSE
  | BackgroundRepeat => Some BACKGROUND_REPEAT
  | BackgroundAttachment => Some BACKGROUND_ATTACHMENT
  | Clear => Some CLEAR
  | Float => Some FLOAT
  | _ => None
  end.

(** A run of spaces, and a token as [split(/ +/)] sees it. *)
Definition spaces (sep : string) : Prop :=
  sep ≠ "" ∧ all (Char.eq " ") sep = true.

Definition word (t : string) : Prop := token (Char.eq " ") t.

(** The longhands of the four-sided shorthands, in the order of their
    tokens. *)
Definition corners : list string :=
  ["border-top-left-radius"; "border-top-right-radius";
   "border-bottom-right-radius"; "border-bottom-left-radius"].

Definition longhands (shorthand : string) : list string :=
  (fun side => shorthand +:+ "-" +:+ side) <$> sides.

(** White space that [.] matches, the code units that [/\s*,\s*/] can
    take, and a separator of [clip]: a comma with such white space around
    it. *)
Definition blank (c : ascii) : bool := Char.space c && Char.dot c.

Definition comma_space (c : ascii) : bool := Char.space c || Char.eq "," c.

Definition comma (w1 w2 : string) : string := w1 +:+ "," +:+ w2.

(** [if (v) o[k] = { value: v, important }] *)
Definition set_when (k : string) (v important : js) (o : gmap string js)
  : gmap string js :=
  if JS.truthy v then <[k := PropertyValue v important]> o else o.

End Spec.

(** * Facts about the matcher *)

Module RegExpFacts.

Import RegExpSpec.
Local Open Scope nat_scope.
#[local] Set Warnings "-clear-no-such-hyp".

Lemma pos_clear ns x : pos (clear ns x) = pos x.
Proof. reflexivity. Qed.

Lemma pos_capture n x y : pos (capture n x y) = pos y.
Proof. reflexivity. Qed.

Lemma frame_refl ns x : frame ns x x.
Proof. split; auto. Qed.

Lemma frame_trans ns1 ns2 ns x y z :
  ns1 ⊆ ns → ns2 ⊆ ns → frame ns1 x y → frame ns2 y z → frame ns x z.
Proof.
  intros H1 H2 [L1 F1] [L2 F2]. split; [congruence|].
  intros n Hn. rewrite F2, F1; auto.
Qed.

Lemma frame_clear ns x : frame ns x (clear ns x).
Proof.
  unfold frame, clear; simpl. generalize (captures x) as cs.
  induction ns as [|k ns IH]; intros cs; simpl; [auto|].
  destruct (IH cs) as [L F]. split.
  - rewrite length_insert. exact L.
  - intros n Hn. rewrite list_lookup_insert_ne.
    + apply F. set_solver.
    + set_solver.
Qed.

Lemma frame_capture n x y : frame [n] y (capture n x y).
Proof.
  unfold frame, capture; simpl. split.
  - apply length_insert.
  - intros k Hk. apply list_lookup_insert_ne. set_solver.
Qed.

(** A match moves forward, by as much as it takes off the input. *)
Lemma Matches_len r p q :
  Matches r p q →
  ∃ k, q.1 = p.1 + k ∧ String.length p.2 = k + String.length q.2.
Proof.
  induction 1; simpl in *.
  - exists 0; lia.
  - exists 1; simpl; lia.
  - destruct IHMatches1 as (k1 & ? & ?), IHMatches2 as (k2 & ? & ?).
    exists (k1 + k2); lia.
  - assumption.
  - assumption.
  - exists 0; lia.
  - exists 0; lia.
  - destruct IHMatches1 as (k1 & ? & ?), IHMatches2 as (k2 & ? & ?).
    exists (k1 + k2); lia.
  - assumption.
  - exists 0; simpl; lia.
  - exists 0; simpl; lia.
Qed.

(** *** Soundness: a success comes from the continuation, at a position
    the pattern leads to, with only the pattern's groups touched. *)

Lemma RepeatMatcher_sound r m c :
  sound r m →
  ∀ bound min max x z,
    min + String.length (rest x) ≤ bound →
    RepeatMatcher m (groups r) c bound min max x = Some z →
    ∃ y, Matches (Rep min max r) (pos x) (pos y)
         ∧ frame (groups r) x y ∧ c y = Some z.
Proof.
  intros Hm. induction bound as [|bound IH]; intros min max x z Hb Hz.
  - assert (min = 0) as -> by lia.
    exists x. split; [constructor|]. split; [apply frame_refl|].
    destruct max as [[|k]|]; exact Hz.
  - assert (Hstep : ∀ y1,
      Matches r (pos (clear (groups r) x)) (pos y1) →
      frame (groups r) (clear (groups r) x) y1 →
      (min = 0 → endIndex y1 ≠ endIndex x) →
      max ≠ Some 0 →
      RepeatMatcher m (groups r) c bound (pred min) (pred <$> max) y1 = Some z →
      ∃ y, Matches (Rep min max r) (pos x) (pos y)
           ∧ frame (groups r) x y ∧ c y = Some z).
    { intros y1 HM HF Hne Hmax Hrec.
      destruct (Matches_len _ _ _ HM) as (k & Hk1 & Hk2); simpl in Hk1, Hk2.
      apply IH in Hrec.
      - destruct Hrec as (y & HM' & HF' & Hc). exists y. split; [|split].
        + eapply M_RepStep; eauto.
        + eapply frame_trans; [| |eapply frame_trans; [| |apply frame_clear|exact HF]|exact HF'];
            set_solver.
        + exact Hc.
      - destruct min as [|min']; simpl; [|lia].
        specialize (Hne eq_refl). lia. }
    destruct max as [[|k]|]; simpl in Hz.
    + exists x. split; [constructor|]. split; [apply frame_refl|exact Hz].
    + destruct min as [|min'].
      * destruct (m _ (clear (groups r) x)) as [z0|] eqn:E.
        -- injection Hz as ->. apply Hm in E. destruct E as (y1 & HM & HF & Hd).
           simpl in Hd. destruct (Nat.eqb (endIndex y1) (endIndex x)) eqn:En; [discriminate|].
           apply Nat.eqb_neq in En. eapply Hstep; eauto; discriminate.
        -- exists x. split; [constructor|]. split; [apply frame_refl|exact Hz].
      * apply Hm in Hz. destruct Hz as (y1 & HM & HF & Hd). simpl in Hd.
        eapply Hstep; eauto; discriminate.
    + destruct min as [|min'].
      * destruct (m _ (clear (groups r) x)) as [z0|] eqn:E.
        -- injection Hz as ->. apply Hm in E. destruct E as (y1 & HM & HF & Hd).
           simpl in Hd. destruct (Nat.eqb (endIndex y1) (endIndex x)) eqn:En; [discriminate|].
           apply Nat.eqb_neq in En. eapply Hstep; eauto; discriminate.
        -- exists x. split; [constructor|]. split; [apply frame_refl|exact Hz].
      * apply Hm in Hz. destruct Hz as (y1 & HM & HF & Hd). simpl in Hd.
        eapply Hstep; eauto; discriminate.
Qed.

Lemma matcher_sound r : sound r (matcher r).
Proof.
  induction r as [|p|r1 IH1 r2 IH2|r1 IH1 r2 IH2|min max r1 IH|n r1 IH| |];
    intros c x z Hz; simpl in Hz.
  - exists x. split; [constructor|]. split; [apply frame_refl|exact Hz].
  - destruct x as [i s cs]; simpl in *. destruct s as [|ch s]; [discriminate|].
    destruct (p ch) eqn:Hp; [|discriminate].
    eexists. split; [|split; [|exact Hz]].
    + unfold pos; simpl. constructor. exact Hp.
    + split; auto.
  - apply IH1 in Hz. destruct Hz as (y1 & HM1 & HF1 & Hz).
    apply IH2 in Hz. destruct Hz as (y & HM2 & HF2 & Hz).
    exists y. split; [econstructor; eauto|]. split; [|exact Hz].
    eapply frame_trans; [| |exact HF1|exact HF2]; simpl; set_solver.
  - destruct (matcher r1 c x) as [z0|] eqn:E.
    + injection Hz as ->. apply IH1 in E. destruct E as (y & HM & HF & Hc).
      exists y. split; [apply M_AltL; exact HM|]. split; [|exact Hc].
      eapply frame_trans; [| |exact HF|apply frame_refl]; simpl; set_solver.
    + apply IH2 in Hz. destruct Hz as (y & HM & HF & Hc).
      exists y. split; [apply M_AltR; exact HM|]. split; [|exact Hc].
      eapply frame_trans; [| |apply frame_refl|exact HF]; simpl; set_solver.
  - eapply RepeatMatcher_sound in Hz; eauto.
  - apply IH in Hz. destruct Hz as (y & HM & HF & Hc).
    exists (capture n x y). split; [constructor; exact HM|]. split; [|exact Hc].
    eapply frame_trans; [| |exact HF|apply frame_capture]; simpl; set_solver.
  - destruct x as [i s cs]; simpl in *. destruct i; [|discriminate].
    eexists. split; [|split; [apply frame_refl|exact Hz]]. constructor.
  - destruct x as [i s cs]; simpl in *. destruct s; [|discriminate].
    eexists. split; [|split; [apply frame_refl|exact Hz]]. constructor.
Qed.

(** *** Completeness: where the pattern leads somewhere the continuation
    accepts, the matcher succeeds. *)

Lemma RepeatMatcher_complete r m c :
  complete r m →
  ∀ bound min max p u,
    Matches (Rep min max r) p u →
    ∀ x, pos x = p →
      min + String.length (rest x) ≤ bound →
      (∀ y, pos y = u → is_Some (c y)) →
      is_Some (RepeatMatcher m (groups r) c bound min max x).
Proof.
  intros Hm. induction bound as [|bound IH]; intros min max p u HM x Hx Hb Hc;
    subst p.
  - assert (min = 0) as -> by lia.
    assert (String.length (rest x) = 0) as Hlen by lia.
    assert (u = pos x) as ->.
    { inversion HM as [| | | | | | |? ? ? ? q ? Hmax HM1 Hne HM2| | |]; subst; auto.
      destruct (Matches_len _ _ _ HM1) as (k & Hk1 & Hk2). simpl in Hk2.
      exfalso. apply Hne; [reflexivity|]. lia. }
    simpl. destruct max as [[|k]|]; apply Hc; reflexivity.
  - inversion HM as [| | | | |? ? ?|? ? ?|? ? ? ? q ? Hmax HM1 Hne HM2| | |]; subst.
    + simpl. apply Hc. reflexivity.
    + simpl. destruct max as [[|k]|]; [apply Hc; reflexivity| |];
        (destruct (m _ (clear (groups r) x)); [eexists; reflexivity|apply Hc; reflexivity]).
    + assert (Hd : ∀ y, pos y = q →
        is_Some ((λ y : MatchState,
          if Nat.eqb min 0 && Nat.eqb (endIndex y) (endIndex x) then None
          else RepeatMatcher m (groups r) c bound (pred min) (pred <$> max) y) y)).
      { intros y Hy. simpl.
        destruct (Matches_len _ _ _ HM1) as (k & Hk1 & Hk2).
        rewrite <- Hy in Hk1, Hk2. simpl in Hk1, Hk2.
        assert (Hrec : is_Some (RepeatMatcher m (groups r) c bound (pred min) (pred <$> max) y)).
        { eapply IH; eauto. destruct min as [|min']; simpl; [|lia].
          specialize (Hne eq_refl). rewrite <- Hy in Hne. simpl in Hne. lia. }
        destruct min as [|min']; simpl; [|exact Hrec].
        specialize (Hne eq_refl). rewrite <- Hy in Hne. simpl in Hne.
        apply Nat.eqb_neq in Hne. rewrite Hne. exact Hrec. }
      pose proof (Hm _ _ HM1 _ (clear (groups r) x) eq_refl Hd) as [z Hz].
      simpl. destruct max as [[|k]|]; [congruence| |];
        destruct min; rewrite Hz; eexists; reflexivity.
Qed.

Lemma matcher_complete r : complete r (matcher r).
Proof.
  induction r as [|f|r1 IH1 r2 IH2|r1 IH1 r2 IH2|min max r1 IH|n r1 IH| |];
    intros p q HM c x Hx Hc; subst p.
  - inversion HM; subst. simpl. apply Hc; reflexivity.
  - destruct x as [i0 s0 cs]. unfold pos in HM; simpl in HM.
    inversion HM as [|? i ch s Hf| | | | | | | | |]; subst. simpl. rewrite Hf.
    apply Hc; reflexivity.
  - inversion HM as [| |? ? ? q' ? HM1 HM2| | | | | | | |]; subst. simpl.
    eapply IH1; eauto; intros y Hy; eapply IH2; eauto.
  - inversion HM as [| | |? ? ? ? HM1|? ? ? ? HM2| | | | | |]; subst; simpl.
    + destruct (IH1 _ _ HM1 c x eq_refl Hc) as [z ->]. eexists; reflexivity.
    + destruct (matcher r1 c x); [eexists; reflexivity|]. eapply IH2; eauto.
  - simpl. eapply RepeatMatcher_complete; eauto.
  - inversion HM; subst. simpl. eapply IH; eauto.
  - destruct x as [i0 s0 cs]. unfold pos in HM; simpl in HM.
    inversion HM; subst. simpl. apply Hc; reflexivity.
  - destruct x as [i0 s0 cs]. unfold pos in HM; simpl in HM.
    inversion HM; subst. simpl. apply Hc; reflexivity.
Qed.

(** *** The bound of [RepeatMatcher] is immaterial *)

Lemma reach_refl x : reach x x.
Proof. exists 0. lia. Qed.

Lemma reach_trans x y z : reach x y → reach y z → reach x z.
Proof. intros (k1 & ? & ?) (k2 & ? & ?). exists (k1 + k2). lia. Qed.

Lemma RepeatMatcher_ext m ns :
  extensional m →
  ∀ bound min max c1 c2 x,
    (∀ y, reach x y → c1 y = c2 y) →
    RepeatMatcher m ns c1 bound min max x = RepeatMatcher m ns c2 bound min max x.
Proof.
  intros Hm. induction bound as [|bound IH]; intros min max c1 c2 x Hc.
  - simpl. destruct max as [[|k]|]; apply Hc, reflexivity || apply Hc, reach_refl.
  - assert (Hd : m (λ y : MatchState,
        if Nat.eqb min 0 && Nat.eqb (endIndex y) (endIndex x) then None
        else RepeatMatcher m ns c1 bound (pred min) (pred <$> max) y) (clear ns x)
      = m (λ y : MatchState,
        if Nat.eqb min 0 && Nat.eqb (endIndex y) (endIndex x) then None
        else RepeatMatcher m ns c2 bound (pred min) (pred <$> max) y) (clear ns x)).
    { apply Hm. intros y Hy. simpl.
      destruct (Nat.eqb min 0 && Nat.eqb (endIndex y) (endIndex x)); [reflexivity|].
      apply IH. intros y' Hy'. apply Hc.
      eapply reach_trans; [|exact Hy']. exact Hy. }
    simpl. destruct max as [[|k]|]; [apply Hc, reach_refl| |];
      (destruct min; [rewrite Hd, (Hc x (reach_refl x)); reflexivity|exact Hd]).
Qed.

Lemma matcher_ext r : extensional (matcher r).
Proof.
  induction r as [|f|r1 IH1 r2 IH2|r1 IH1 r2 IH2|min max r1 IH|n r1 IH| |];
    intros c1 c2 x Hc; simpl.
  - apply Hc, reach_refl.
  - destruct (rest x) as [|ch s] eqn:E; [reflexivity|].
    destruct (f ch); [|reflexivity]. apply Hc. exists 1. simpl. rewrite E. simpl. lia.
  - apply IH1. intros y Hy. apply IH2. intros y' Hy'. apply Hc.
    eapply reach_trans; eauto.
  - rewrite (IH1 c1 c2 x Hc), (IH2 c1 c2 x Hc). reflexivity.
  - apply RepeatMatcher_ext; auto.
  - apply IH. intros y Hy. apply Hc. exact Hy.
  - rewrite (Hc x (reach_refl x)). reflexivity.
  - rewrite (Hc x (reach_refl x)). reflexivity.
Qed.

Lemma RepeatMatcher_bound r c :
  ∀ bound1 bound2 min max x,
    min + String.length (rest x) ≤ bound1 →
    min + String.length (rest x) ≤ bound2 →
    RepeatMatcher (matcher r) (groups r) c bound1 min max x
    = RepeatMatcher (matcher r) (groups r) c bound2 min max x.
Proof.
  assert (Hend : ∀ bound max x,
    String.length (rest x) = 0 →
    RepeatMatcher (matcher r) (groups r) c bound 0 max x = c x).
  { intros bound max x Hlen. destruct bound as [|bound]; simpl.
    - destruct max as [[|k]|]; reflexivity.
    - assert (Hnone : ∀ d' : MatcherContinuation,
        (∀ y, endIndex y = endIndex x → d' y = None) →
        matcher r d' (clear (groups r) x) = None).
      { intros d' Hd'. destruct (matcher r d' (clear (groups r) x)) as [z|] eqn:E;
          [|reflexivity].
        apply matcher_sound in E. destruct E as (y & HM & _ & Hd).
        destruct (Matches_len _ _ _ HM) as (k & Hk1 & Hk2). simpl in Hk1, Hk2.
        rewrite Hd' in Hd by lia. discriminate. }
      destruct max as [[|k]|]; [reflexivity| |]; rewrite Hnone; try reflexivity;
        intros y Hy; apply Nat.eqb_eq in Hy; rewrite Hy; reflexivity. }
  induction bound1 as [|bound1 IH]; intros bound2 min max x H1 H2.
  - assert (min = 0) as -> by lia. rewrite !Hend by lia. reflexivity.
  - destruct bound2 as [|bound2].
    { assert (min = 0) as -> by lia. rewrite !Hend by lia. reflexivity. }
    assert (Hd : matcher r (λ y : MatchState,
        if Nat.eqb min 0 && Nat.eqb (endIndex y) (endIndex x) then None
        else RepeatMatcher (matcher r) (groups r) c bound1 (pred min) (pred <$> max) y)
          (clear (groups r) x)
      = matcher r (λ y : MatchState,
        if Nat.eqb min 0 && Nat.eqb (endIndex y) (endIndex x) then None
        else RepeatMatcher (matcher r) (groups r) c bound2 (pred min) (pred <$> max) y)
          (clear (groups r) x)).
    { apply matcher_ext. intros y (k & Hk1 & Hk2). simpl in Hk1, Hk2. simpl.
      destruct min as [|min']; simpl.
      - destruct (Nat.eqb (endIndex y) (endIndex x)) eqn:E; [reflexivity|].
        apply Nat.eqb_neq in E. apply IH; simpl; lia.
      - apply IH; lia. }
    simpl. destruct max as [[|k]|]; [reflexivity| |];
      (destruct min; [rewrite Hd; reflexivity|exact Hd]).
Qed.

(** *** More input after the end *)

Lemma Matches_extend t r p q :
  Matches r p q → has_eol r = false → Matches r (extend t p) (extend t q).
Proof.
  induction 1; simpl; intros He; try (apply orb_false_elim in He as [He1 He2]);
    try discriminate; unfold extend in *; simpl in *.
  - constructor.
  - constructor. assumption.
  - econstructor; eauto.
  - apply M_AltL; auto.
  - apply M_AltR; auto.
  - constructor.
  - constructor.
  - eapply M_RepStep; eauto.
  - constructor; auto.
  - constructor.
Qed.

(** *** [exec] and [test] *)

Lemma match_at_complete r i s q :
  Matches r (i, s) q → is_Some (match_at r i s).
Proof.
  intros HM. unfold match_at.
  eapply (matcher_complete (Grp 0 r)); [constructor; exact HM|reflexivity|].
  intros y _. eexists; reflexivity.
Qed.

Lemma match_at_sound r i s z :
  match_at r i s = Some z → Matches r (i, s) (pos z).
Proof.
  unfold match_at. intros H. apply matcher_sound in H.
  destruct H as (y & HM & _ & Hy). injection Hy as <-.
  inversion HM; subst. assumption.
Qed.

Lemma test_complete r s q : Matches r (0, s) q → test r s = true.
Proof.
  intros HM. unfold test, exec. destruct s; simpl;
    destruct (match_at_complete _ _ _ _ HM) as [z ->]; reflexivity.
Qed.

Lemma exec_from_sound r s : ∀ i result,
  exec_from r i s = Some result →
  ∃ pre s' q, s = pre +:+ s' ∧ Matches r (i + String.length pre, s') q.
Proof.
  induction s as [|ch s IH]; intros i result H; simpl in H.
  - destruct (match_at r i "") as [z|] eqn:E; [|discriminate].
    exists "", "", (pos z). split; [reflexivity|]. simpl. rewrite Nat.add_0_r.
    apply match_at_sound. exact E.
  - destruct (match_at r i (String ch s)) as [z|] eqn:E.
    + exists "", (String ch s), (pos z). split; [reflexivity|]. simpl.
      rewrite Nat.add_0_r. apply match_at_sound. exact E.
    + apply IH in H. destruct H as (pre & s' & q & -> & HM).
      exists (String ch pre), s', q. split; [reflexivity|]. simpl.
      replace (i + S (String.length pre)) with (S i + String.length pre) by lia.
      exact HM.
Qed.

(** A pattern that starts with [^] matches at index 0 or not at all. *)
Lemma test_sound_bol r s :
  test (Seq Bol r) s = true → ∃ q, Matches r (0, s) q.
Proof.
  unfold test, exec. destruct (exec_from _ 0 s) as [result|] eqn:E; [|discriminate].
  intros _. apply exec_from_sound in E. destruct E as (pre & s' & q & -> & HM).
  inversion HM as [| |? ? ? q' ? HM1 HM2| | | | | | | |]; subst.
  inversion HM1; subst. destruct pre; [|discriminate].
  exists q. exact HM2.
Qed.

End RegExpFacts.

(** * Facts about CSSStyleDeclarationValueParser *)

Module ValueParserFacts.

Import RegExpSpec RegExpFacts CSSStyleDeclarationValueParser Spec.

Lemma Char_toLowerCase_idem c :
  Char.toLowerCase (Char.toLowerCase c) = Char.toLowerCase c.
Proof. destruct c as [[] [] [] [] [] [] [] []]; reflexivity. Qed.

Lemma toLowerCase_idem s : toLowerCase (toLowerCase s) = toLowerCase s.
Proof.
  induction s as [|c s IH]; simpl; [reflexivity|].
  rewrite Char_toLowerCase_idem, IH. reflexivity.
Qed.

Local Open Scope nat_scope.

Lemma Char_eq_true a c : Char.eq a c = true → c = a.
Proof.
  unfold Char.eq, Char.code. intros H. apply N.eqb_eq in H.
  rewrite <- (ascii_N_embedding c), <- H. apply ascii_N_embedding.
Qed.

Lemma string_length_app (s t : string) :
  String.length (s +:+ t) = String.length s + String.length t.
Proof. induction s as [|c s IH]; simpl; [reflexivity|]. rewrite IH. reflexivity. Qed.

Lemma substring_all (s : string) : substring 0 (String.length s) s = s.
Proof. induction s as [|c s IH]; simpl; [reflexivity|]. rewrite IH. reflexivity. Qed.

Lemma substring_app (s t : string) : substring 0 (String.length s) (s +:+ t) = s.
Proof.
  induction s as [|c s IH]; simpl; [destruct t; reflexivity|]. rewrite IH. reflexivity.
Qed.


Lemma eqb_true s t : String.eqb s t = true → s = t.
Proof. apply String.eqb_eq. Qed.

(** What each recogniser can return: the input itself, or one of its
    canonical forms. *)
Lemma getLength_cases v r :
  getLength v = Some r → (v = "0" ∧ r = "0px") ∨ (r = v ∧ v ≠ "").
Proof.
  unfold getLength. destruct (String.eqb v "0") eqn:E0.
  - intros [= <-]. left. split; [apply eqb_true, E0|reflexivity].
  - destruct (test LENGTH_REGEXP v) eqn:Et; intros [= <-]. right. split; [reflexivity|].
    intros ->. vm_compute in Et. discriminate.
Qed.

Lemma getPercentage_cases v r :
  getPercentage v = Some r → (v = "0" ∧ r = "0%") ∨ (r = v ∧ v ≠ "").
Proof.
  unfold getPercentage. destruct (String.eqb v "0") eqn:E0.
  - intros [= <-]. left. split; [apply eqb_true, E0|reflexivity].
  - destruct (test PERCENTAGE_REGEXP v) eqn:Et; intros [= <-]. right. split; [reflexivity|].
    intros ->. vm_compute in Et. discriminate.
Qed.

Lemma or_else_cases a b r :
  or_else a b = Some r → a = Some r ∨ b = Some r.
Proof. unfold or_else. destruct (truthy a); auto. Qed.

Lemma getMeasurement_cases v r :
  getMeasurement v = Some r →
  (keyword (toLowerCase v) = true ∧ r = toLowerCase v)
  ∨ (v = "0" ∧ r = "0px")
  ∨ (keyword (toLowerCase v) = false ∧ r = v).
Proof.
  unfold getMeasurement. fold (keyword (toLowerCase v)).
  destruct (keyword (toLowerCase v)) eqn:Ek.
  - intros [= <-]. auto.
  - intros H. destruct (or_else_cases _ _ _ H) as [H'|H'].
    + apply getLength_cases in H' as [[-> ->]|[-> _]]; auto.
    + apply getPercentage_cases in H' as [[-> ->]|[-> _]]; auto.
      vm_compute in H. discriminate.
Qed.

Lemma getURL_cases v r :
  getURL v = Some r →
  ((toLowerCase v = "none" ∨ toLowerCase v = "inherit") ∧ r = toLowerCase v)
  ∨ r = v.
Proof.
  unfold getURL. destruct v as [|c v]; [discriminate|].
  destruct (String.eqb (toLowerCase (String c v)) "none") eqn:E1.
  { intros [= <-]. left. split; [left; apply eqb_true, E1|reflexivity]. }
  destruct (String.eqb (toLowerCase (String c v)) "inherit") eqn:E2.
  { intros [= <-]. left. split; [right; apply eqb_true, E2|reflexivity]. }
  simpl orb. cbv iota.
  destruct (exec URL_REGEXP (String c v)) as [result|]; [|discriminate].
  repeat match goal with
         | |- context [if ?b then _ else _] => destruct b
         end; intros [= <-] || discriminate; auto.
Qed.

(** C9. Every recogniser of the value parser (length, percentage,
    measurement, measurement-or-auto, integer, color, url) gives back its
    own output unchanged: if [f] accepts [v] with result [r] then [f]
    accepts [r] with result [r]. *)
Theorem recognize_idempotent (f : recognizer) (v r : string) :
  recognize f v = Some r → recognize f r = Some r.
Proof.
  destruct f; simpl; intros H.
  - destruct (getLength_cases _ _ H) as [[-> ->]|[-> _]]; [reflexivity|exact H].
  - destruct (getPercentage_cases _ _ H) as [[-> ->]|[-> _]]; [reflexivity|exact H].
  - destruct (getMeasurement_cases _ _ H) as [[Hk ->]|[[-> ->]|[_ ->]]];
      [|reflexivity|exact H].
    unfold getMeasurement. fold (keyword (toLowerCase (toLowerCase v))).
    rewrite toLowerCase_idem, Hk. reflexivity.
  - unfold getMeasurementOrAuto in *.
    destruct (String.eqb (toLowerCase v) "auto") eqn:Ea.
    + injection H as <-. rewrite toLowerCase_idem, Ea. reflexivity.
    + destruct (getMeasurement_cases _ _ H) as [[Hk ->]|[[-> ->]|[Hk ->]]].
      * rewrite toLowerCase_idem, Ea. unfold getMeasurement.
        fold (keyword (toLowerCase (toLowerCase v))).
        rewrite toLowerCase_idem, Hk. reflexivity.
      * reflexivity.
      * rewrite Ea. exact H.
  - unfold getInteger in *. destruct (negb (parseInt_isNaN v)) eqn:E; [|discriminate].
    injection H as <-. rewrite E. reflexivity.
  - unfold getColor in *. destruct (test COLOR_REGEXP v) eqn:E; [|discriminate].
    injection H as <-. rewrite E. reflexivity.
  - destruct (getURL_cases _ _ H) as [[[Hl|Hl] ->]| ->]; [| |exact H];
      rewrite Hl; reflexivity.
Qed.

(** At measurement, on an upper-case keyword. *)
Lemma recognize_idempotent_witness :
  recognize Measurement "INHERIT" = Some "inherit"
  ∧ recognize Measurement "inherit" = Some "inherit".
Proof.
  split; [reflexivity|].
  apply (recognize_idempotent Measurement "INHERIT" "inherit"). reflexivity.
Defined.

(** The [hsl]/[hsla] alternative, read as a pattern for a whole string. *)
Lemma hsl_shape_Matches p :
  test (Seq HSL_COLOR Eol) p = true →
  ∃ i, Matches HSL_COLOR (0, p) (i, "").
Proof.
  unfold test, exec.
  destruct (exec_from _ 0 p) as [result|] eqn:E; [|discriminate]. intros _.
  apply exec_from_sound in E. destruct E as (pre & s' & q & -> & HM).
  inversion HM as [| |? ? ? q' ? HM1 HM2| | | | | | | |]; subst.
  inversion HM2; subst.
  assert (pre = "") as ->.
  { unfold HSL_COLOR in HM1. simpl seqs in HM1.
    inversion HM1 as [| |? ? ? q1 ? HB _| | | | | | | |]; subst.
    inversion HB; subst. destruct pre; [reflexivity|discriminate]. }
  exists i. exact HM1.
Qed.

(** C10. The color recogniser accepts every string that begins with a
    string of the [hsl(...)]/[hsla(...)] shape, whatever follows the
    closing parenthesis, and returns the whole input unchanged: that
    alternative of the pattern is not anchored at the end. *)
Theorem getColor_hsl_prefix (p t : string) :
  test (Seq HSL_COLOR Eol) p = true →
  getColor (p +:+ t) = Some (p +:+ t).
Proof.
  intros H. destruct (hsl_shape_Matches _ H) as [i HM].
  apply (Matches_extend t) in HM; [|reflexivity].
  unfold getColor. erewrite test_complete; [reflexivity|].
  unfold COLOR_REGEXP. apply M_AltR, M_AltR, M_AltR. exact HM.
Qed.

Lemma getColor_hsl_prefix_witness :
  getColor "hsl(0, 0%, 0%) trailing junk" = Some "hsl(0, 0%, 0%) trailing junk".
Proof.
  apply (getColor_hsl_prefix "hsl(0, 0%, 0%)" " trailing junk"). reflexivity.
Defined.

(** *** The URL pattern along its greedy path *)

Lemma RepeatMatcher_star_step m ns c bound x :
  RepeatMatcher m ns c (S bound) 0 None x
  = match m (λ y, if Nat.eqb (endIndex y) (endIndex x) then None
                  else RepeatMatcher m ns c bound 0 None y) (clear ns x) with
    | Some z => Some z
    | None => c x
    end.
Proof. reflexivity. Qed.

Lemma matcher_Chr p c i a s cs :
  matcher (Chr p) c (clear [] (mkState i (String a s) cs))
  = if p a then c (mkState (S i) s cs) else None.
Proof. reflexivity. Qed.

Lemma RepeatMatcher_class_greedy p c : ∀ w bound s i cs z,
  all p w = true → stops p s = true →
  String.length (w +:+ s) ≤ bound →
  c (mkState (i + String.length w) s cs) = Some z →
  RepeatMatcher (matcher (Chr p)) [] c bound 0 None (mkState i (w +:+ s) cs) = Some z.
Proof.
  induction w as [|a w IH]; intros bound s i cs z Hw Hs Hb Hc.
  - change ("" +:+ s) with s. change (String.length "") with 0 in Hc.
    rewrite Nat.add_0_r in Hc.
    destruct bound as [|bound]; [exact Hc|].
    rewrite RepeatMatcher_star_step.
    destruct s as [|b s]; [exact Hc|].
    rewrite matcher_Chr.
    cbn [stops] in Hs. apply negb_true_iff in Hs. rewrite Hs. exact Hc.
  - cbn [all] in Hw. apply andb_true_iff in Hw as [Ha Hw].
    change (String a w +:+ s) with (String a (w +:+ s)) in *.
    cbn [String.length] in Hb, Hc.
    destruct bound as [|bound]; [lia|].
    rewrite RepeatMatcher_star_step, matcher_Chr, Ha. cbn [endIndex].
    assert (Nat.eqb (S i) i = false) as -> by (apply Nat.eqb_neq; lia).
    rewrite (IH bound s (S i) cs z); auto; [lia|].
    replace (S i + String.length w) with (i + S (String.length w)) by lia. exact Hc.
Qed.

Lemma star_class_greedy p c w s i cs z :
  all p w = true → stops p s = true →
  c (mkState (i + String.length w) s cs) = Some z →
  matcher (star (Chr p)) c (mkState i (w +:+ s) cs) = Some z.
Proof.
  intros. unfold star. cbn [matcher rest]. apply RepeatMatcher_class_greedy; auto.
Qed.

(** What [URL_REGEXP] captures: the white space after [url(] is dropped,
    everything up to the closing parenthesis is the token. *)
Lemma exec_URL ws token :
  all Char.space ws = true →
  all not_paren token = true →
  stops Char.space token = true →
  exec URL_REGEXP ("url(" +:+ ws +:+ token +:+ ")")
  = Some [Some ("url(" +:+ ws +:+ token +:+ ")"); Some token].
Proof.
  intros Hws Htok Hstop.
  assert (Hfirst : match_at URL_REGEXP 0 ("url(" +:+ ws +:+ token +:+ ")")
    = Some (mkState (String.length ("url(" +:+ ws +:+ token +:+ ")")) ""
              [Some ("url(" +:+ ws +:+ token +:+ ")"); Some token])).
  { unfold match_at, URL_REGEXP. cbn -[star String.length substring].
    apply (star_class_greedy _ _ ws (token +:+ ")")); [exact Hws| |].
    { destruct token as [|a token]; [reflexivity|exact Hstop]. }
    cbn -[star String.length substring].
    apply (star_class_greedy _ _ token ")"); [exact Htok|reflexivity|].
    cbn -[star String.length substring].
    apply (star_class_greedy _ _ "" ")"); [reflexivity|reflexivity|].
    cbn -[String.length substring].
    change (Char.eq ")" ")") with true. cbv iota.
    unfold capture, advance. cbn [endIndex rest captures].
    assert (Hlen : String.length ("url(" +:+ ws +:+ token +:+ ")")
                   = S (S (S (S (S (String.length ws + String.length token
                                    + String.length "")))))).
    { change ("url(" +:+ ws +:+ token +:+ ")")
        with (String "u" (String "r" (String "l" (String "(" (ws +:+ token +:+ ")"))))).
      cbn [String.length]. rewrite !string_length_app. simpl. lia. }
    rewrite <- Hlen, Nat.sub_0_r, substring_all.
    replace (String.length ws + String.length token - String.length ws)
      with (String.length token) by lia.
    rewrite substring_app. reflexivity. }
  unfold exec. unfold exec_from.
  destruct ("url(" +:+ ws +:+ token +:+ ")"); rewrite Hfirst; reflexivity.
Qed.

Lemma Seq_sound r1 r2 c x z :
  matcher (Seq r1 r2) c x = Some z →
  ∃ y, frame (groups r1) x y ∧ matcher r2 c y = Some z.
Proof.
  intros H. apply (matcher_sound r1) in H. destruct H as (y & _ & F & H). eauto.
Qed.

Lemma Grp_sound n r c x z :
  matcher (Grp n r) c x = Some z →
  ∃ y, frame (groups r) x y ∧ c (capture n x y) = Some z.
Proof.
  intros H. apply (matcher_sound r) in H. destruct H as (y & _ & F & H). eauto.
Qed.

(** Group 1 of [URL_REGEXP] takes part in every match, so that [url] in
    [getURL] is always a string. *)
Lemma match_at_URL_group i s z :
  match_at URL_REGEXP i s = Some z → is_Some (mjoin (captures z !! 1)).
Proof.
  unfold match_at.
  change (S (list_max (groups URL_REGEXP))) with 2.
  set (x0 := mkState i s (replicate 2 None)).
  change (matcher (Grp 0 URL_REGEXP) Some x0)
    with (matcher URL_REGEXP (λ y, Some (capture 0 x0 y)) x0).
  intros E. unfold URL_REGEXP in E. cbn [seqs] in E.
  apply Seq_sound in E. destruct E as (y1 & [L1 _] & E).
  apply Seq_sound in E. destruct E as (y2 & [L2 _] & E).
  apply Seq_sound in E. destruct E as (y3 & [L3 _] & E).
  change (matcher (Seq ?a ?b) ?c ?x) with (matcher a (matcher b c) x) in E.
  apply Grp_sound in E. destruct E as (y4 & [L4 _] & E).
  apply Seq_sound in E. destruct E as (y5 & [L5 F5] & E).
  apply Seq_sound in E. destruct E as (y6 & [L6 F6] & E).
  apply (matcher_sound Eol) in E. destruct E as (y7 & _ & [L7 F7] & E).
  injection E as <-. cbn [capture captures].
  rewrite list_lookup_insert_ne by discriminate.
  rewrite F7, F6, F5 by (cbn; set_solver).
  cbn [capture captures]. rewrite list_lookup_insert_eq; [eexists; reflexivity|].
  rewrite L4, L3, L2, L1. cbn. lia.
Qed.

Lemma exec_URL_group value result :
  exec URL_REGEXP value = Some result → is_Some (group 1 result).
Proof.
  unfold exec, group.
  assert (H : ∀ i, exec_from URL_REGEXP i value = Some result →
                   is_Some (mjoin (result !! 1))); [|apply H].
  induction value as [|ch value IH]; intros i H; cbn [exec_from] in H;
    destruct (match_at URL_REGEXP i _) as [z|] eqn:E;
    try discriminate H; try (injection H as <-; eapply match_at_URL_group; exact E).
  eapply IH. exact H.
Qed.

Lemma all_app p (s t : string) : all p (s +:+ t) = all p s && all p t.
Proof.
  induction s as [|c s IH]; simpl; [reflexivity|]. rewrite IH, andb_assoc. reflexivity.
Qed.

Lemma scan_Unescaped url : scan url = false ↔ Unescaped url.
Proof.
  assert (H : ∀ n url, String.length url ≤ n → (scan url = false ↔ Unescaped url)).
  { induction n as [|n IH]; intros [|c u] Hn; simpl in Hn; try lia.
    - split; [discriminate|inversion 1].
    - split; [discriminate|inversion 1].
    - cbn [scan]. destruct (forbidden c) eqn:Ef.
      { split; [intros _; apply U_here; exact Ef|reflexivity]. }
      destruct (Char.eq "\" c) eqn:Eb.
      + destruct u as [|d u].
        * split; [discriminate|]. inversion 1; subst; congruence.
        * rewrite (IH u) by (simpl in Hn; lia). split.
          -- intros Hu. apply U_escape; assumption.
          -- inversion 1; subst; try congruence.
      + rewrite (IH u) by lia. split.
        * intros Hu. apply U_next; assumption.
        * inversion 1; subst; congruence. }
  apply (H (String.length url)). lia.
Qed.

Lemma quote_not_space q : quote (Some q) = true → Char.space q = false.
Proof.
  unfold quote. intros H. apply orb_true_iff in H as [H|H];
    apply Char_eq_true in H; subst; reflexivity.
Qed.




(** A token that is one quote and nothing else is rejected as well: the
    quote is its own first and last code unit, [substring(1, 0)] gives the
    quote back, and the scan refuses it. *)
Lemma getURL_lone_quote (ws : string) (q : ascii) :
  all Char.space ws = true →
  quote (Some q) = true →
  getURL ("url(" +:+ ws +:+ String q "" +:+ ")") = None.
Proof.
  intros Hws Hq.
  assert (Hnp : not_paren q = true ∧ forbidden q = true).
  { unfold quote in Hq. apply orb_true_iff in Hq as [H|H];
      apply Char_eq_true in H; subst; split; reflexivity. }
  destruct Hnp as [Hnp Hf].
  assert (Hexec := exec_URL ws (String q "") Hws).
  lapply Hexec; clear Hexec; [intros Hexec|cbn [all]; rewrite Hnp; reflexivity].
  lapply Hexec; clear Hexec;
    [intros Hexec|cbn [stops]; rewrite (quote_not_space _ Hq); reflexivity].
  set (value := "url(" +:+ ws +:+ String q "" +:+ ")") in *.
  unfold getURL.
  change value with (String "u" (String "r" (String "l" (String "("
    (ws +:+ String q "" +:+ ")"))))) at 1 2 3.
  cbn [toLowerCase String.eqb]. change (Char.toLowerCase "u") with "u"%char.
  cbn [Ascii.eqb Bool.eqb orb]. fold value. rewrite Hexec.
  unfold group. cbn [lookup list_lookup mjoin option_join default id].
  cbn [String.get String.length Nat.sub]. rewrite Hq. cbn [same].
  unfold Char.eq at 1. rewrite N.eqb_refl. cbn [negb andb].
  unfold substring_js. cbn. rewrite Hf. reflexivity.
Qed.

(** *** Hex colors *)

Ltac invert H := inversion H; subst; clear H.

Lemma class_rep_Matches p : ∀ w min max i s,
  all p w = true → min ≤ String.length w →
  (∀ m, max = Some m → String.length w ≤ m) →
  Matches (Rep min max (Chr p)) (i, w +:+ s) (i + String.length w, s).
Proof.
  induction w as [|a w IH]; intros min max i s Hw Hmin Hmax; simpl in *.
  - assert (min = 0) as -> by lia. rewrite Nat.add_0_r. constructor.
  - apply andb_true_iff in Hw as [Ha Hw].
    eapply M_RepStep with (q := (S i, w +:+ s)).
    + intros ->. specialize (Hmax 0 eq_refl). lia.
    + constructor. exact Ha.
    + simpl. lia.
    + replace (i + S (String.length w)) with (S i + String.length w) by lia.
      apply IH; [exact Hw|lia|].
      intros m Hm. destruct max as [k|]; [|discriminate]. injection Hm as <-.
      specialize (Hmax k eq_refl). lia.
Qed.

Lemma class_rep_inv p r pq u :
  Matches r pq u →
  ∀ min max, r = Rep min max (Chr p) →
    (∀ m, max = Some m → min ≤ m) →
    ∃ w, pq.2 = w +:+ u.2 ∧ u.1 = pq.1 + String.length w ∧ all p w = true
         ∧ min ≤ String.length w ∧ (∀ m, max = Some m → String.length w ≤ m).
Proof.
  induction 1; intros min' max' Hr Hwf; try discriminate Hr.
  - injection Hr as -> <- ->. exists "". specialize (Hwf 0 eq_refl).
    repeat split; simpl; try lia.
  - injection Hr as <- -> ->. exists "". repeat split; simpl; lia.
  - injection Hr as -> -> ->.
    destruct (IHMatches2 _ _ eq_refl) as (w & Hw1 & Hw2 & Hw3 & Hw4 & Hw5).
    { intros m Hm. destruct max' as [k|]; [|discriminate]. injection Hm as <-.
      specialize (Hwf k eq_refl). lia. }
    invert H0. simpl in *. exists (String ch w). rewrite Hw1.
    split; [reflexivity|]. split; [simpl; lia|]. split; [simpl; rewrite H4, Hw3; reflexivity|].
    split; [simpl; lia|].
    intros m ->. destruct m as [|m]; [congruence|].
    specialize (Hw5 m eq_refl). simpl. lia.
Qed.

(** The group [([0-9a-fA-F]{3,4})] covers three or four hex digits. *)
Lemma hex_group_inv i s u :
  Matches (Grp 1 (Rep 3 (Some 4) (Chr Char.hex))) (i, s) u →
  ∃ w, s = w +:+ u.2 ∧ (String.length w = 3 ∨ String.length w = 4).
Proof.
  intros H. invert H.
  destruct (class_rep_inv _ _ _ _ H4 3 (Some 4) eq_refl) as (w & Hw1 & _ & _ & Hw4 & Hw5).
  { intros m [= <-]. lia. }
  exists w. split; [exact Hw1|]. specialize (Hw5 4 eq_refl). lia.
Qed.

Lemma hex_group_Matches w i s :
  all Char.hex w = true → (String.length w = 3 ∨ String.length w = 4) →
  Matches (Grp 1 (Rep 3 (Some 4) (Chr Char.hex))) (i, w +:+ s) (i + String.length w, s).
Proof.
  intros Hw Hlen. constructor. apply class_rep_Matches; [exact Hw|lia|].
  intros m [= <-]. lia.
Qed.

Ltac invert_Matches :=
  repeat match goal with
         | H : Matches Bol _ _ |- _ => invert H
         | H : Matches Eol _ _ |- _ => invert H
         | H : Matches (Seq _ _) _ _ |- _ => invert H
         | H : Matches (Alt _ _) _ _ |- _ => invert H
         | H : Matches (Chr _) _ _ |- _ => invert H
         end.

Lemma hex_color_Matches ds q :
  Matches HEX_COLOR (0, "#" +:+ ds) q →
  hex_lengths (String.length ds).
Proof.
  unfold HEX_COLOR. cbn [seqs lit]. change ("#" +:+ ds) with (String "#" ds).
  intros H. invert_Matches.
  match goal with H : Matches (Rep 1 _ _) _ _ |- _ => invert H end.
  match goal with H : Matches (Grp 1 _) (_, _) ?q |- _ =>
    destruct q as [j s1]; apply hex_group_inv in H; destruct H as (w1 & -> & Hl1)
  end.
  cbn [pred fmap option_fmap option_map] in *.
  match goal with H : Matches (Rep 0 _ _) _ _ |- _ => invert H end.
  { unfold hex_lengths. rewrite string_length_app. simpl. lia. }
  match goal with H : Matches (Grp 1 _) (_, _) ?q |- _ =>
    destruct q as [j2 s2]; apply hex_group_inv in H; destruct H as (w2 & Hw2 & Hl2)
  end.
  cbn [pred fmap option_fmap option_map] in *. simpl in Hw2. subst s1.
  match goal with H : Matches (Rep 0 _ _) _ _ |- _ => invert H end;
    try congruence; unfold hex_lengths; simpl; repeat rewrite string_length_app; simpl; lia.
Qed.

Lemma app_empty_r (s : string) : s +:+ "" = s.
Proof.
  induction s as [|c s IH]; [reflexivity|].
  change (String c (s +:+ "") = String c s). f_equal. exact IH.
Qed.

Lemma hex_color_digits ds :
  all Char.hex ds = true →
  hex_lengths (String.length ds) →
  ∃ q, Matches HEX_COLOR (0, "#" +:+ ds) q.
Proof.
  intros Hds Hlen.
  assert (Hone : ∀ w, all Char.hex w = true →
    (String.length w = 3 ∨ String.length w = 4) →
    ∃ q, Matches HEX_COLOR (0, "#" +:+ w) q).
  { intros w Hw Hl. eexists. unfold HEX_COLOR. cbn [seqs lit].
    apply M_Seq with (q := (0, "#" +:+ w)); [constructor|].
    apply M_Seq with (q := (1, w)); [constructor; reflexivity|].
    apply M_Seq with (q := (1 + String.length w, "")); [|constructor].
    eapply M_RepStep with (q := (1 + String.length w, ""));
      [discriminate| |discriminate|apply M_RepStop].
    pose proof (hex_group_Matches w 1 "" Hw Hl) as HM.
    rewrite app_empty_r in HM. exact HM. }
  assert (Htwo : ∀ w1 w2, all Char.hex w1 = true → all Char.hex w2 = true →
    (String.length w1 = 3 ∨ String.length w1 = 4) →
    (String.length w2 = 3 ∨ String.length w2 = 4) →
    ∃ q, Matches HEX_COLOR (0, "#" +:+ w1 +:+ w2) q).
  { intros w1 w2 Hw1 Hw2 Hl1 Hl2. eexists. unfold HEX_COLOR. cbn [seqs lit].
    apply M_Seq with (q := (0, "#" +:+ w1 +:+ w2)); [constructor|].
    apply M_Seq with (q := (1, w1 +:+ w2)); [constructor; reflexivity|].
    apply M_Seq with (q := (1 + String.length w1 + String.length w2, "")); [|constructor].
    eapply M_RepStep with (q := (1 + String.length w1, w2));
      [discriminate|apply hex_group_Matches; assumption|discriminate|].
    eapply M_RepStep with (q := (1 + String.length w1 + String.length w2, ""));
      [discriminate| |simpl; lia|apply M_RepMax].
    pose proof (hex_group_Matches w2 (1 + String.length w1) "" Hw2 Hl2) as HM.
    rewrite app_empty_r in HM. exact HM. }
  destruct ds as [|c1 [|c2 [|c3 [|c4 [|c5 [|c6 [|c7 [|c8 [|c9 ds]]]]]]]]];
    unfold hex_lengths in Hlen; simpl in Hlen; try (exfalso; lia).
  - apply Hone; auto.
  - apply Hone; auto.
  - apply (Htwo (String c1 (String c2 (String c3 ""))) (String c4 (String c5 (String c6 ""))));
      simpl in *; auto; repeat (apply andb_true_iff in Hds as [? Hds]);
      repeat (apply andb_true_iff; split); auto.
  - apply (Htwo (String c1 (String c2 (String c3 "")))
                (String c4 (String c5 (String c6 (String c7 "")))));
      simpl in *; auto; repeat (apply andb_true_iff in Hds as [? Hds]);
      repeat (apply andb_true_iff; split); auto.
  - apply (Htwo (String c1 (String c2 (String c3 (String c4 ""))))
                (String c5 (String c6 (String c7 (String c8 "")))));
      simpl in *; auto; repeat (apply andb_true_iff in Hds as [? Hds]);
      repeat (apply andb_true_iff; split); auto.
Qed.

(** The hex colors [getColor] accepts: three, four, six, seven or eight
    digits. *)
Lemma getColor_hex ds :
  all Char.hex ds = true →
  getColor ("#" +:+ ds) = Some ("#" +:+ ds) ↔ hex_lengths (String.length ds).
Proof.
  intros Hds. unfold getColor. split.
  - destruct (test COLOR_REGEXP ("#" +:+ ds)) eqn:E; [intros _|discriminate].
    unfold test, exec in E.
    destruct (exec_from COLOR_REGEXP 0 ("#" +:+ ds)) as [result|] eqn:E'; [|discriminate].
    apply exec_from_sound in E'. destruct E' as (pre & s' & q & Hs & HM).
    unfold COLOR_REGEXP, HEX_COLOR, RGB_COLOR, RGBA_COLOR, HSL_COLOR in HM.
    cbn [seqs] in HM.
    assert (Hpre : ∀ r q', Matches (Seq Bol r) (0 + String.length pre, s') q' →
                           Matches (Seq Bol r) (0, "#" +:+ ds) q').
    { intros r q' H. assert (pre = "") as ->.
      { invert H. match goal with H : Matches Bol _ _ |- _ => invert H end.
        destruct pre; [reflexivity|discriminate]. }
      simpl in Hs. rewrite Hs. exact H. }
    invert HM; [|match goal with H : Matches (Alt _ _) _ _ |- _ => invert H end;
                 [|match goal with H : Matches (Alt _ _) _ _ |- _ => invert H end]].
    all: match goal with H : Matches (Seq Bol _) _ _ |- _ => apply Hpre in H end.
    + eapply hex_color_Matches. unfold HEX_COLOR. cbn [seqs]. eassumption.
    + exfalso. change ("#" +:+ ds) with (String "#" ds) in *. cbn [lit] in *.
      invert_Matches. discriminate.
    + exfalso. change ("#" +:+ ds) with (String "#" ds) in *. cbn [lit] in *.
      invert_Matches. discriminate.
    + exfalso. change ("#" +:+ ds) with (String "#" ds) in *. cbn [lit] in *.
      invert_Matches. discriminate.
  - intros Hlen. destruct (hex_color_digits ds Hds Hlen) as [q HM].
    erewrite test_complete; [reflexivity|]. apply M_AltL. exact HM.
Qed.

(** C7. [getColor] accepts ["#1234567"], a ["#"] followed by seven hex
    digits: a group of three digits and a group of four.  It accepts
    ["#fff"] and rejects ["#ff"]. *)
Theorem getColor_seven_digits :
  getColor "#1234567" = Some "#1234567"
  ∧ getColor "#fff" = Some "#fff"
  ∧ getColor "#ff" = None.
Proof. repeat split; reflexivity. Qed.

End ValueParserFacts.

(** * Facts about CSSStyleDeclarationPropertyValueParser *)

Module PropertyParserFacts.

Import CSSStyleDeclarationValueParser CSSStyleDeclarationPropertyValueParser Spec.

(** C6. [getFlexBasis] has no rejecting branch: for a value that is
    neither one of the ten keywords nor a length, here ["abc"], it
    returns an object whose [flex-basis] entry has the value [null],
    where [getBorderWidth], its sibling, returns [null]. *)
Theorem getFlexBasis_emits_null :
  getFlexBasis "abc" (Bool false)
  = Obj {[ "flex-basis" := PropertyValue Null (Bool false) ]}
  ∧ getBorderWidth "abc" (Bool false) = Null.
Proof. split; reflexivity. Qed.

(** [getFlexBasis] returns an object for every value. *)
Lemma getFlexBasis_total value important :
  ∃ v, getFlexBasis value important
       = Obj {[ "flex-basis" := PropertyValue v important ]}.
Proof.
  unfold getFlexBasis. destruct (includes FLEX_BASIS (toLowerCase value)); eauto.
Qed.

(** C4. [getPadding] and [getMargin] parse the first token for every
    side: for ["1px 2px"] the right side gets ["1px"], and the second
    token is not looked at, so that ["1px abc"] is accepted.
    [getBorderRadius], written the same way, parses each corner's own
    token. *)
Theorem getPadding_reuses_first_token :
  getPadding "1px 2px" (Bool false)
  = Obj {[ "padding-top" := PropertyValue (Str "1px") (Bool false);
           "padding-right" := PropertyValue (Str "1px") (Bool false) ]}
  ∧ getPadding "1px abc" (Bool false)
    = Obj {[ "padding-top" := PropertyValue (Str "1px") (Bool false);
             "padding-right" := PropertyValue (Str "1px") (Bool false) ]}
  ∧ getMargin "auto 2px" (Bool false)
    = Obj {[ "margin-top" := PropertyValue (Str "auto") (Bool false);
             "margin-right" := PropertyValue (Str "auto") (Bool false) ]}
  ∧ getBorderRadius "1px 2px" (Bool false)
    = Obj {[ "border-top-left-radius" := PropertyValue (Str "1px") (Bool false);
             "border-top-right-radius" := PropertyValue (Str "2px") (Bool false) ]}.
Proof. repeat split; vm_compute; reflexivity. Qed.

(** C2. Called on the class, [getFlex] and [getBackground] throw a
    [TypeError]: [getFlex] with ["none"] at [this.properties[...] = ...],
    [getBackground] with ["#fff"] at [this.getColor(...)]. *)
Theorem static_call_throws :
  getFlex "flex" "none" (Bool false) static_this = Throw TypeError
  ∧ getBackground "background" "#fff" (Bool false) static_this = Throw TypeError.
Proof. split; reflexivity. Qed.

(** C3. Called on the class, [getFlex] throws a [TypeError] both for
    ["none"] (no [this.properties]) and for ["abc"] (no
    [this.getInteger]).  On a receiver that has these members it stores
    exactly [flex-grow = 0], [flex-shrink = 0], [flex-basis = auto] for
    ["none"] and nothing for ["abc"]. *)
Theorem getFlex_none_abc (important : bool) :
  stored (getFlex "flex" "none" (Bool important) static_this) = Throw TypeError
  ∧ stored (getFlex "flex" "abc" (Bool important) static_this) = Throw TypeError
  ∧ stored (getFlex "flex" "none" (Bool important) (with_members ∅))
    = Normal (Some {[ "flex-grow" := PropertyValue (Str "0") (Bool important);
                      "flex-shrink" := PropertyValue (Str "0") (Bool important);
                      "flex-basis" := PropertyValue (Str "auto") (Bool important) ]})
  ∧ stored (getFlex "flex" "abc" (Bool important) (with_members ∅))
    = Normal (Some ∅).
Proof. destruct important; repeat split; vm_compute; reflexivity. Qed.

(** C5. Called on the class, [getBackground] throws a [TypeError] as soon
    as the value has a first token.  On a receiver that has the members
    it stores [background-repeat], [background-attachment] and
    [background-position] whether or not their tokens are there (with
    the empty string as value for ["#fff"]), and it accepts a second
    token that is not a URL (["#fff abc"]). *)
Theorem getBackground_color_only :
  stored (getBackground "background" "#fff" (Bool false) static_this)
  = Throw TypeError
  ∧ stored (getBackground "background" "#fff" (Bool false) (with_members ∅))
    = Normal (Some {[ "background-color" := PropertyValue (Str "#fff") (Bool false);
                      "background-repeat" := PropertyValue (Str "") (Bool false);
                      "background-attachment" := PropertyValue (Str "") (Bool false);
                      "background-position" := PropertyValue (Str "") (Bool false) ]})
  ∧ stored (getBackground "background" "#fff abc" (Bool false) (with_members ∅))
    = stored (getBackground "background" "#fff" (Bool false) (with_members ∅)).
Proof. repeat split; vm_compute; reflexivity. Qed.

(** On the class, every value with a first token makes [getBackground]
    throw. *)
Lemma getBackground_static_throws name value important p0 :
  present (split SPACES value) 0 p0 →
  getBackground name value important static_this = Throw TypeError.
Proof.
  intros [H0 Hne]. unfold getBackground. rewrite H0.
  destruct p0; [contradiction|]. reflexivity.
Qed.

(** *** The [border] shorthand *)

Lemma getBorderWidth_cases p important :
  getBorderWidth p important = Null
  ∨ ∃ w, getBorderWidth p important
         = Obj {[ "border-width" := PropertyValue (Str w) important ]}.
Proof.
  unfold getBorderWidth. destruct (includes BORDER_WIDTH (toLowerCase p)); [eauto|].
  destruct (getLength p) as [[|c l]|]; cbn [truthy JS.of_result]; eauto.
Qed.

Lemma getBorderStyle_cases p important :
  getBorderStyle p important = Null
  ∨ ∃ w, getBorderStyle p important
         = Obj {[ "border-style" := PropertyValue (Str w) important ]}.
Proof.
  unfold getBorderStyle. destruct (includes BORDER_STYLE (toLowerCase p)); eauto.
Qed.

Lemma when_part_cases parts i f :
  (absent parts i ∧ JS.when_part parts i f = Str "")
  ∨ ∃ p, present parts i p ∧ JS.when_part parts i f = f p.
Proof.
  unfold absent, present, JS.when_part. destruct (parts !! i) as [[|c p]|]; eauto.
Qed.

Lemma present_absent parts i p : present parts i p → absent parts i → False.
Proof. intros [H Hne] [H'|H']; congruence. Qed.

Lemma present_inj parts i p p' : present parts i p → present parts i p' → p = p'.
Proof. intros [H _] [H' _]. congruence. Qed.

Lemma getColor_cases p : getColor p = None ∨ getColor p = Some p.
Proof. unfold getColor. destruct (test _ _); auto. Qed.

(** C1 as stated fails: the [border] shorthand is not all or nothing, the
    width alone (["1px"]) is accepted, with four longhands. *)
Lemma border_all_or_nothing_fails : ¬ border_all_or_nothing.
Proof.
  intros H. specialize (H "1px" false).
  assert (Hs : getBorder "1px" (Bool false) ≠ Null) by (vm_compute; discriminate).
  destruct (H Hs) as [_ He]. vm_compute in He. discriminate.
Qed.

(** With the three tokens there and valid, the color is stored under the
    four [-style] names, over the style, and there are eight longhands,
    none of them a [-color]. *)
Lemma getBorder_color_as_style :
  getBorder "1px solid #fff" (Bool false)
  = Obj {[ "border-top-width" := PropertyValue (Str "1px") (Bool false);
           "border-right-width" := PropertyValue (Str "1px") (Bool false);
           "border-bottom-width" := PropertyValue (Str "1px") (Bool false);
           "border-left-width" := PropertyValue (Str "1px") (Bool false);
           "border-top-style" := PropertyValue (Str "#fff") (Bool false);
           "border-right-style" := PropertyValue (Str "#fff") (Bool false);
           "border-bottom-style" := PropertyValue (Str "#fff") (Bool false);
           "border-left-style" := PropertyValue (Str "#fff") (Bool false) ]}.
Proof. vm_compute. reflexivity. Qed.

(** The directional form is all or nothing, and has a [-color]. *)
Lemma getBorderTop_three_tokens :
  getBorderTop "1px solid #fff" (Bool false)
  = Obj {[ "border-top-width" := PropertyValue (Str "1px") (Bool false);
           "border-top-style" := PropertyValue (Str "solid") (Bool false);
           "border-top-color" := PropertyValue (Str "#fff") (Bool false) ]}
  ∧ getBorderTop "1px" (Bool false) = Null.
Proof. split; vm_compute; reflexivity. Qed.

(** What [getBorder] returns, case by case. *)
Lemma getBorder_cases (value : string) (important : js) :
  let parts := split SPACES value in
  let result := getBorder value important in
  (result = Null
   ∧ ((∀ p0, present parts 0 p0 → getBorderWidth p0 important = Null)
      ∨ (∃ p1, present parts 1 p1 ∧ getBorderStyle p1 important = Null)
      ∨ (∃ p2, present parts 2 p2 ∧ getColor p2 = None)))
  ∨ ∃ p0 w,
      present parts 0 p0
      ∧ getBorderWidth p0 important
        = Obj {[ "border-width" := PropertyValue (Str w) important ]}
      ∧ ((absent parts 1 ∧ absent parts 2
          ∧ result = Obj {[ "border-top-width" := PropertyValue (Str w) important;
                            "border-right-width" := PropertyValue (Str w) important;
                            "border-bottom-width" := PropertyValue (Str w) important;
                            "border-left-width" := PropertyValue (Str w) important ]})
         ∨ (∃ p1 s, present parts 1 p1 ∧ absent parts 2
              ∧ getBorderStyle p1 important
                = Obj {[ "border-style" := PropertyValue (Str s) important ]}
              ∧ result = Obj {[ "border-top-width" := PropertyValue (Str w) important;
                                "border-right-width" := PropertyValue (Str w) important;
                                "border-bottom-width" := PropertyValue (Str w) important;
                                "border-left-width" := PropertyValue (Str w) important;
                                "border-top-style" := PropertyValue (Str s) important;
                                "border-right-style" := PropertyValue (Str s) important;
                                "border-bottom-style" := PropertyValue (Str s) important;
                                "border-left-style" := PropertyValue (Str s) important ]})
         ∨ (∃ p2, present parts 2 p2 ∧ getColor p2 = Some p2
              ∧ (absent parts 1
                 ∨ ∃ p1, present parts 1 p1 ∧ getBorderStyle p1 important ≠ Null)
              ∧ result = Obj {[ "border-top-width" := PropertyValue (Str w) important;
                                "border-right-width" := PropertyValue (Str w) important;
                                "border-bottom-width" := PropertyValue (Str w) important;
                                "border-left-width" := PropertyValue (Str w) important;
                                "border-top-style" := PropertyValue (Str p2) important;
                                "border-right-style" := PropertyValue (Str p2) important;
                                "border-bottom-style" := PropertyValue (Str p2) important;
                                "border-left-style" := PropertyValue (Str p2) important ]})).
Proof.
  intros parts result. subst result. unfold getBorder. fold parts.
  generalize (when_part_cases parts 0 (λ p, getBorderWidth p important)).
  generalize (when_part_cases parts 1 (λ p, getBorderStyle p important)).
  generalize (when_part_cases parts 2 (λ p, JS.of_result (getColor p))).
  generalize (JS.when_part parts 0 (λ p, getBorderWidth p important)) as W.
  generalize (JS.when_part parts 1 (λ p, getBorderStyle p important)) as S.
  generalize (JS.when_part parts 2 (λ p, JS.of_result (getColor p))) as C.
  clearbody parts.
  intros C S W HC HS HW.
  destruct HW as [[A0 ->]|(p0 & P0 & ->)].
  { left. split; [reflexivity|]. left. intros p0 P0.
    destruct (present_absent _ _ _ P0 A0). }
  destruct (getBorderWidth_cases p0 important) as [EW|(w & EW)];
    rewrite EW.
  { left. split; [reflexivity|]. left. intros p0' P0'.
    rewrite <- (present_inj _ _ _ _ P0 P0'). exact EW. }
  destruct HS as [[A1 ->]|(p1 & P1 & ->)];
    [|destruct (getBorderStyle_cases p1 important) as [ES|(s & ES)]].
  2:{ left. split; [rewrite ES; destruct C as [| | |[]|]; reflexivity|].
      right. left. eauto. }
  all: destruct HC as [[A2 ->]|(p2 & P2 & ->)].
  all: try (destruct (getColor_cases p2) as [EC|EC]; rewrite EC;
    [left; split; [try rewrite ES; reflexivity|right; right; eauto]|]).
  all: right; exists p0, w; split; [exact P0|split; [exact EW|]].
  - left. split; [exact A1|split; [exact A2|]]. vm_compute. reflexivity.
  - right. right. exists p2. split; [exact P2|split; [exact EC|split; [left; exact A1|]]].
    destruct P2 as [_ P2]. destruct p2 as [|c col]; [contradiction|].
    vm_compute. reflexivity.
  - right. left. exists p1, s. split; [exact P1|split; [exact A2|split; [exact ES|]]].
    rewrite ES. vm_compute. reflexivity.
  - right. right. exists p2. split; [exact P2|split; [exact EC|split]].
    + right. exists p1. split; [exact P1|]. rewrite ES. discriminate.
    + destruct P2 as [_ P2]. destruct p2 as [|c col]; [contradiction|].
      rewrite ES. vm_compute. reflexivity.
Qed.

(** C1, amended.  The [border] shorthand succeeds exactly when the width
    token is there and valid and each of the style and color tokens is
    either not there or valid.  On success the four
    [border-{top,right,bottom,left}-width] longhands carry the resolved
    width; when there is no color token, the four [-style] longhands
    carry the resolved style if the style token is there, which makes
    eight longhands, and there are four longhands if it is not. *)
Theorem getBorder_shorthand (value : string) (important : js) :
  let parts := split SPACES value in
  let result := getBorder value important in
  (result ≠ Null ↔
     (∃ p0, present parts 0 p0 ∧ getBorderWidth p0 important ≠ Null)
     ∧ (absent parts 1 ∨ ∃ p1, present parts 1 p1 ∧ getBorderStyle p1 important ≠ Null)
     ∧ (absent parts 2 ∨ ∃ p2, present parts 2 p2 ∧ getColor p2 ≠ None))
  ∧ (result ≠ Null →
     ∃ p0 w, present parts 0 p0
       ∧ getBorderWidth p0 important
         = Obj {[ "border-width" := PropertyValue (Str w) important ]}
       ∧ ∀ side, side ∈ sides →
           JS.get result ("border-" +:+ side +:+ "-width")
           = PropertyValue (Str w) important)
  ∧ (∀ p1, result ≠ Null → present parts 1 p1 → absent parts 2 →
     ∃ s, getBorderStyle p1 important
          = Obj {[ "border-style" := PropertyValue (Str s) important ]}
       ∧ (∀ side, side ∈ sides →
            JS.get result ("border-" +:+ side +:+ "-style")
            = PropertyValue (Str s) important)
       ∧ JS.entries result = 8)
  ∧ (result ≠ Null → absent parts 1 → absent parts 2 → JS.entries result = 4).
Proof.
  intros parts result.
  assert (Hsides : ∀ P : string → Prop,
    P "top" → P "right" → P "bottom" → P "left" → ∀ side, side ∈ sides → P side).
  { intros P ? ? ? ? side Hs. unfold sides in Hs.
    repeat (apply elem_of_cons in Hs as [->|Hs]; [assumption|]).
    apply elem_of_nil in Hs. contradiction. }
  pose proof (getBorder_cases value important) as Hcases.
  cbv zeta in Hcases. fold parts in Hcases. fold result in Hcases.
  clearbody result parts.
  destruct Hcases
    as [[E Hfail]
       |(p0 & w & P0 & W &
         [(A1 & A2 & E)|[(p1 & s & P1 & A2 & S & E)|(p2 & P2 & C & HS & E)]])];
    subst result.
  - split; [|split; [|split]]; try (intros; congruence).
    split; [congruence|]. intros ((p0 & P0 & W) & HS & HC) _.
    destruct Hfail as [Hw|[(p1 & P1 & S)|(p2 & P2 & C)]].
    + apply W, Hw, P0.
    + destruct HS as [A1|(p1' & P1' & S')]; [exact (present_absent _ _ _ P1 A1)|].
      rewrite (present_inj _ _ _ _ P1' P1) in S'. contradiction.
    + destruct HC as [A2|(p2' & P2' & C')]; [exact (present_absent _ _ _ P2 A2)|].
      rewrite (present_inj _ _ _ _ P2' P2) in C'. contradiction.
  - split; [|split; [|split]].
    + split; [|discriminate]. intros _. split; [|split; left; assumption].
      exists p0. split; [exact P0|]. rewrite W. discriminate.
    + intros _. exists p0, w. split; [exact P0|split; [exact W|]].
      apply Hsides; vm_compute; reflexivity.
    + intros p1 _ P1 _. destruct (present_absent _ _ _ P1 A1).
    + intros _ _ _. vm_compute. reflexivity.
  - split; [|split; [|split]].
    + split; [|discriminate]. intros _. split; [|split; [|left; exact A2]].
      * exists p0. split; [exact P0|]. rewrite W. discriminate.
      * right. exists p1. split; [exact P1|]. rewrite S. discriminate.
    + intros _. exists p0, w. split; [exact P0|split; [exact W|]].
      apply Hsides; vm_compute; reflexivity.
    + intros p1' _ P1' _. rewrite (present_inj _ _ _ _ P1' P1).
      exists s. split; [exact S|split; [|vm_compute; reflexivity]].
      apply Hsides; vm_compute; reflexivity.
    + intros _ A1 _. destruct (present_absent _ _ _ P1 A1).
  - split; [|split; [|split]].
    + split; [|discriminate]. intros _. split; [|split; [exact HS|]].
      * exists p0. split; [exact P0|]. rewrite W. discriminate.
      * right. exists p2. split; [exact P2|]. rewrite C. discriminate.
    + intros _. exists p0, w. split; [exact P0|split; [exact W|]].
      apply Hsides; vm_compute; reflexivity.
    + intros p1 _ _ A2. destruct (present_absent _ _ _ P2 A2).
    + intros _ _ A2. destruct (present_absent _ _ _ P2 A2).
Qed.

(** At ["1px solid"]: accepted, the style is resolved, eight longhands. *)
Lemma getBorder_shorthand_witness :
  getBorder "1px solid" (Bool false) ≠ Null
  ∧ ∃ s, getBorderStyle "solid" (Bool false)
         = Obj {[ "border-style" := PropertyValue (Str s) (Bool false) ]}
      ∧ (∀ side, side ∈ sides →
           JS.get (getBorder "1px solid" (Bool false)) ("border-" +:+ side +:+ "-style")
           = PropertyValue (Str s) (Bool false))
      ∧ JS.entries (getBorder "1px solid" (Bool false)) = 8.
Proof.
  pose proof (getBorder_shorthand "1px solid" (Bool false)) as H. cbv zeta in H.
  destruct H as (_ & _ & Hs & _).
  assert (Hok : getBorder "1px solid" (Bool false) ≠ Null) by (vm_compute; discriminate).
  split; [exact Hok|]. apply (Hs "solid" Hok).
  - split; [vm_compute; reflexivity|discriminate].
  - left. vm_compute. reflexivity.
Defined.

End PropertyParserFacts.

(** * Further properties of CSSStyleDeclarationValueParser *)

Module ValueParserProperties.

Import RegExpSpec RegExpFacts CSSStyleDeclarationValueParser Spec ValueParserFacts.
Local Open Scope nat_scope.

Lemma string_app_assoc (a b c : string) : (a +:+ b) +:+ c = a +:+ (b +:+ c).
Proof.
  induction a as [|ch a IH]; [reflexivity|].
  change (String ch ((a +:+ b) +:+ c) = String ch (a +:+ b +:+ c)). f_equal. exact IH.
Qed.

(** A match covers a prefix of the input it starts from. *)
Lemma Matches_app r p q :
  Matches r p q → ∃ w, p.2 = w +:+ q.2 ∧ q.1 = p.1 + String.length w.
Proof.
  induction 1; simpl in *.
  - exists "". split; [reflexivity|simpl; lia].
  - exists (String ch ""). split; [reflexivity|simpl; lia].
  - destruct IHMatches1 as (w1 & E1 & L1), IHMatches2 as (w2 & E2 & L2).
    exists (w1 +:+ w2). rewrite string_app_assoc, <- E2, string_length_app.
    split; [exact E1|lia].
  - assumption.
  - assumption.
  - exists "". split; [reflexivity|simpl; lia].
  - exists "". split; [reflexivity|simpl; lia].
  - destruct IHMatches1 as (w1 & E1 & L1), IHMatches2 as (w2 & E2 & L2).
    exists (w1 +:+ w2). rewrite string_app_assoc, <- E2, string_length_app.
    split; [exact E1|lia].
  - assumption.
  - exists "". split; [reflexivity|simpl; lia].
  - exists "". split; [reflexivity|simpl; lia].
Qed.

Lemma one_of_sign c : Char.one_of "-+" c = true → c = "-"%char ∨ c = "+"%char.
Proof.
  unfold Char.one_of. simpl. intros H.
  apply orb_true_iff in H as [H|H]; [left; apply Char_eq_true, H|].
  apply orb_true_iff in H as [H|H]; [right; apply Char_eq_true, H|discriminate].
Qed.

(** At most one code unit of a class. *)
Lemma opt_class_inv p pq u :
  Matches (opt (Chr p)) pq u →
  (pq.2 = u.2 ∧ u.1 = pq.1)
  ∨ ∃ c, p c = true ∧ pq.2 = String c u.2 ∧ u.1 = S pq.1.
Proof.
  intros H. destruct (class_rep_inv p _ _ _ H 0 (Some 1) eq_refl)
    as (w & E & L & Hw & _ & Hmax).
  { intros m [= <-]. lia. }
  specialize (Hmax 1 eq_refl). destruct w as [|c [|c' w]]; simpl in *; try lia.
  - left. split; [exact E|lia].
  - right. exists c. apply andb_true_iff in Hw as [Hc _]. repeat split; auto. lia.
Qed.

Lemma star_class_inv p pq u :
  Matches (star (Chr p)) pq u →
  ∃ w, pq.2 = w +:+ u.2 ∧ u.1 = pq.1 + String.length w ∧ all p w = true.
Proof.
  intros H. destruct (class_rep_inv p _ _ _ H 0 None eq_refl)
    as (w & E & L & Hw & _ & _); [discriminate|]. eauto.
Qed.

Lemma plus_class_inv p pq u :
  Matches (plus (Chr p)) pq u →
  ∃ w, pq.2 = w +:+ u.2 ∧ u.1 = pq.1 + String.length w ∧ all p w = true ∧ w ≠ "".
Proof.
  intros H. destruct (class_rep_inv p _ _ _ H 1 None eq_refl)
    as (w & E & L & Hw & Hmin & _); [discriminate|].
  exists w. repeat split; auto. intros ->. simpl in Hmin. lia.
Qed.

(** *** Numbers, lengths and percentages *)

Lemma Seq_inv r1 r2 p u :
  Matches (Seq r1 r2) p u → ∃ q, Matches r1 p q ∧ Matches r2 q u.
Proof. intros H. invert H. eauto. Qed.

Lemma number_inv R p q :
  Matches (Seq (opt (Chr (Char.one_of "-+"))) (Seq (star (Chr Char.digit))
            (Seq (opt (lit ".")) (Seq (plus (Chr Char.digit)) R)))) p q →
  ∃ n m, p.2 = n +:+ m.2 ∧ m.1 = p.1 + String.length n ∧ is_number n ∧ Matches R m q.
Proof.
  intros H.
  apply Seq_inv in H as (q0 & H0 & H). apply Seq_inv in H as (q1 & H1 & H).
  apply Seq_inv in H as (q2 & H2 & H). apply Seq_inv in H as (q3 & H3 & H).
  apply star_class_inv in H1 as (int & E1 & L1 & Hint).
  apply plus_class_inv in H3 as (frac & E3 & L3 & Hfrac & Hne).
  change (lit ".") with (Chr (Char.eq ".")) in H2.
  assert (Hsign : ∃ sign, p.2 = sign +:+ q0.2 ∧ q0.1 = p.1 + String.length sign
                          ∧ (sign = "" ∨ sign = "+" ∨ sign = "-")).
  { apply opt_class_inv in H0 as [[E L]|(c & Hc & E & L)].
    - exists "". split; [exact E|]. split; [simpl; lia|auto].
    - exists (String c ""). split; [exact E|]. split; [simpl; lia|].
      apply one_of_sign in Hc as [->| ->]; auto. }
  destruct Hsign as (sign & E0 & L0 & Hsign).
  assert (Hdot : ∃ dot, q1.2 = dot +:+ q2.2 ∧ q2.1 = q1.1 + String.length dot
                        ∧ (dot = "" ∨ dot = ".")).
  { apply opt_class_inv in H2 as [[E L]|(c & Hc & E & L)].
    - exists "". split; [exact E|]. split; [simpl; lia|auto].
    - exists (String c ""). split; [exact E|]. split; [simpl; lia|].
      apply Char_eq_true in Hc as ->. auto. }
  destruct Hdot as (dot & E2 & L2 & Hdot).
  exists (sign +:+ int +:+ dot +:+ frac), q3.
  rewrite !string_app_assoc, !string_length_app, <- E3, <- E2, <- E1.
  split; [exact E0|]. split; [lia|]. split; [|exact H].
  exists sign, int, dot, frac. auto 10.
Qed.

Lemma number_Matches R n i s q :
  is_number n → Matches R (i + String.length n, s) q →
  Matches (Seq (opt (Chr (Char.one_of "-+"))) (Seq (star (Chr Char.digit))
            (Seq (opt (lit ".")) (Seq (plus (Chr Char.digit)) R)))) (i, n +:+ s) q.
Proof.
  intros (sign & int & dot & frac & -> & Hsign & Hint & Hdot & Hfrac & Hne) HR.
  rewrite !string_app_assoc. rewrite !string_length_app in HR.
  apply M_Seq with (q := (i + String.length sign, int +:+ dot +:+ frac +:+ s)).
  { apply class_rep_Matches.
    - destruct Hsign as [->|[->| ->]]; reflexivity.
    - lia.
    - intros m [= <-]. destruct Hsign as [->|[->| ->]]; simpl; lia. }
  apply M_Seq with (q := (i + String.length sign + String.length int, dot +:+ frac +:+ s)).
  { apply class_rep_Matches; [exact Hint|lia|discriminate]. }
  apply M_Seq with (q := (i + String.length sign + String.length int + String.length dot,
                          frac +:+ s)).
  { change (lit ".") with (Chr (Char.eq ".")). apply class_rep_Matches.
    - destruct Hdot as [->| ->]; reflexivity.
    - lia.
    - intros m [= <-]. destruct Hdot as [->| ->]; simpl; lia. }
  apply M_Seq with (q := (i + String.length sign + String.length int + String.length dot
                          + String.length frac, s)).
  { apply class_rep_Matches; [exact Hfrac| |discriminate].
    destruct frac; [congruence|simpl; lia]. }
  replace (i + String.length sign + String.length int + String.length dot + String.length frac)
    with (i + (String.length sign + (String.length int
               + (String.length dot + String.length frac)))) by lia.
  exact HR.
Qed.

Lemma unit_inv p q :
  Matches unit_re p q → ∃ u, u ∈ UNITS ∧ p.2 = u +:+ q.2.
Proof.
  unfold unit_re. intros H. invert H. cbn [lit] in *. invert_Matches;
    repeat match goal with
           | H : Char.eq _ _ = true |- _ => apply Char_eq_true in H; subst
           end;
    simpl;
    let pick u := (exists u; split; [apply list_elem_of_In; simpl; auto 20|reflexivity]) in
    first [pick "in" | pick "cm" | pick "em" | pick "mm" | pick "pt" | pick "pc"
          | pick "px" | pick "ex" | pick "rem" | pick "vh" | pick "vw" | pick "ch"].
Qed.

Lemma unit_Matches u i s :
  u ∈ UNITS → Matches unit_re (i, u +:+ s) (String.length u + i, s).
Proof.
  intros H. apply list_elem_of_In in H. simpl in H.
  unfold unit_re. constructor.
  repeat (destruct H as [<-|H];
          [simpl; repeat first [apply M_AltL; cbn [lit]; solve [repeat econstructor]
                               | apply M_AltR]; cbn [lit]; solve [repeat econstructor]|]).
  destruct H.
Qed.

Lemma is_number_length n : is_number n → 1 ≤ String.length n.
Proof.
  intros (sign & int & dot & frac & -> & _ & _ & _ & _ & Hne).
  rewrite !string_length_app. destruct frac; [congruence|simpl; lia].
Qed.

Lemma unit_length u : u ∈ UNITS → 2 ≤ String.length u.
Proof.
  intros H. apply list_elem_of_In in H. simpl in H.
  repeat (destruct H as [<-|H]; [simpl; lia|]). destruct H.
Qed.

Lemma getLength_shape (v r : string) :
  getLength v = Some r → (v = "0" ∧ r = "0px") ∨ (r = v ∧ is_length v).
Proof.
  unfold getLength. destruct (String.eqb v "0") eqn:E0.
  { intros [= <-]. left. split; [apply eqb_true, E0|reflexivity]. }
  destruct (test LENGTH_REGEXP v) eqn:Et; intros [= <-].
  right. split; [reflexivity|].
  unfold LENGTH_REGEXP in Et. cbn [seqs] in Et.
  apply test_sound_bol in Et as [q HM].
  apply Seq_inv in HM as (q1 & HG & HE). invert HE. invert HG.
  match goal with H : Matches (Alt _ _) _ _ |- _ => invert H end.
  - cbn [lit] in *. invert_Matches.
    match goal with H : Char.eq _ _ = true |- _ => apply Char_eq_true in H; subst end.
    discriminate E0.
  - match goal with H : Matches _ _ _ |- _ =>
      apply number_inv in H as (n & m & E & L & Hn & HU) end.
    apply unit_inv in HU as (u & Hu & E'). simpl in E, E'.
    rewrite app_empty_r in E'. rewrite E' in E. exists n, u. auto.
Qed.

Lemma getLength_accepts (v : string) : is_length v → getLength v = Some v.
Proof.
  unfold getLength. intros (n & u & -> & Hn & Hu).
  destruct (String.eqb (n +:+ u) "0") eqn:E0.
  { apply eqb_true in E0. apply (f_equal String.length) in E0.
    rewrite string_length_app in E0. apply is_number_length in Hn.
    apply unit_length in Hu. simpl in E0. lia. }
  erewrite test_complete; [reflexivity|].
  unfold LENGTH_REGEXP. cbn [seqs].
  apply M_Seq with (q := (0, n +:+ u)); [constructor|].
  apply M_Seq with (q := (String.length u + (0 + String.length n), "")); [|constructor].
  constructor. apply M_AltR.
  rewrite <- (app_empty_r u) at 1.
  apply number_Matches; [exact Hn|]. apply unit_Matches. exact Hu.
Qed.

(** X1. [getLength] accepts ["0"], which it turns into ["0px"], and
    otherwise exactly the values made of an optional sign, digits, an
    optional dot, at least one digit and one of the twelve units, in lower
    case; these come back unchanged. *)
Theorem getLength_grammar (v r : string) :
  getLength v = Some r ↔ (v = "0" ∧ r = "0px") ∨ (r = v ∧ is_length v).
Proof.
  split; [apply getLength_shape|].
  intros [[-> ->]|[-> H]]; [reflexivity|]. apply getLength_accepts. exact H.
Qed.

Lemma getLength_grammar_witness :
  getLength "-.5em" = Some "-.5em" ∧ getLength "0" = Some "0px".
Proof.
  split.
  - apply (getLength_grammar "-.5em" "-.5em"). right. split; [reflexivity|].
    exists "-.5", "em". split; [reflexivity|]. split; [|repeat constructor].
    exists "-", "", ".", "5". repeat split; auto; discriminate.
  - apply (getLength_grammar "0" "0px"). left. split; reflexivity.
Defined.

Lemma getPercentage_shape (v r : string) :
  getPercentage v = Some r → (v = "0" ∧ r = "0%") ∨ (r = v ∧ is_percentage v).
Proof.
  unfold getPercentage. destruct (String.eqb v "0") eqn:E0.
  { intros [= <-]. left. split; [apply eqb_true, E0|reflexivity]. }
  destruct (test PERCENTAGE_REGEXP v) eqn:Et; intros [= <-].
  right. split; [reflexivity|].
  unfold PERCENTAGE_REGEXP in Et. cbn [seqs] in Et.
  apply test_sound_bol in Et as [q HM].
  apply number_inv in HM as (n & m & E & L & Hn & HU).
  cbn [lit] in HU. invert_Matches.
  match goal with H : Char.eq _ _ = true |- _ => apply Char_eq_true in H; subst end.
  exists n. auto.
Qed.

Lemma getPercentage_accepts (v : string) : is_percentage v → getPercentage v = Some v.
Proof.
  unfold getPercentage. intros (n & -> & Hn).
  destruct (String.eqb (n +:+ "%") "0") eqn:E0.
  { apply eqb_true in E0. apply (f_equal String.length) in E0.
    rewrite string_length_app in E0. apply is_number_length in Hn.
    simpl in E0. lia. }
  erewrite test_complete; [reflexivity|].
  unfold PERCENTAGE_REGEXP. cbn [seqs].
  apply M_Seq with (q := (0, n +:+ "%")); [constructor|].
  apply number_Matches; [exact Hn|]. cbn [lit].
  apply M_Seq with (q := (S (0 + String.length n), "")); constructor. reflexivity.
Qed.

(** X2. [getPercentage] accepts ["0"], which it turns into ["0%"], and
    otherwise exactly the numbers followed by a percent sign; these come
    back unchanged. *)
Theorem getPercentage_grammar (v r : string) :
  getPercentage v = Some r ↔ (v = "0" ∧ r = "0%") ∨ (r = v ∧ is_percentage v).
Proof.
  split; [apply getPercentage_shape|].
  intros [[-> ->]|[-> H]]; [reflexivity|]. apply getPercentage_accepts. exact H.
Qed.

Lemma getPercentage_grammar_witness :
  getPercentage "+12.5%" = Some "+12.5%" ∧ getPercentage "0" = Some "0%".
Proof.
  split.
  - apply (getPercentage_grammar "+12.5%" "+12.5%"). right. split; [reflexivity|].
    exists "+12.5". split; [reflexivity|].
    exists "+", "12", ".", "5". repeat split; auto; discriminate.
  - apply (getPercentage_grammar "0" "0%"). left. split; reflexivity.
Defined.

(** *** Anchored patterns and literals *)

Ltac char_eq :=
  repeat match goal with
         | H : Char.eq _ _ = true |- _ => apply Char_eq_true in H; subst
         end.

Lemma anchored_Matches r p q : Matches r p q → anchored r = true → p.1 = 0.
Proof.
  induction 1; simpl; try discriminate; auto.
  - intros H'. apply andb_true_iff in H' as [? ?]. auto.
  - intros H'. apply andb_true_iff in H' as [? ?]. auto.
Qed.

Lemma test_sound_anchored r s :
  anchored r = true → test r s = true → ∃ q, Matches r (0, s) q.
Proof.
  intros Ha. unfold test, exec.
  destruct (exec_from r 0 s) as [result|] eqn:E; [intros _|discriminate].
  apply exec_from_sound in E as (pre & s' & q & -> & HM).
  pose proof (anchored_Matches _ _ _ HM Ha) as H0. simpl in H0.
  destruct pre; [|simpl in H0; lia]. exists q. exact HM.
Qed.

Lemma lit_inv s : ∀ p q,
  Matches (lit s) p q → p.2 = s +:+ q.2 ∧ q.1 = p.1 + String.length s.
Proof.
  induction s as [|c s IH]; intros p q H.
  - invert H. split; [reflexivity|simpl; lia].
  - destruct s as [|c' s].
    + cbn [lit] in H. invert H. char_eq.
      split; [reflexivity|simpl; lia].
    + change (lit (String c (String c' s)))
        with (Seq (Chr (Char.eq c)) (lit (String c' s))) in H.
      apply Seq_inv in H as (q0 & H1 & H2). invert H1. char_eq.
      apply IH in H2 as [E L]. simpl in E, L. rewrite E.
      split; [reflexivity|]. rewrite L. simpl. lia.
Qed.

Lemma Char_eq_refl c : Char.eq c c = true.
Proof. unfold Char.eq. apply N.eqb_refl. Qed.

Lemma lit_Matches s : ∀ i t, Matches (lit s) (i, s +:+ t) (i + String.length s, t).
Proof.
  induction s as [|c s IH]; intros i t.
  - simpl. rewrite Nat.add_0_r. constructor.
  - destruct s as [|c' s].
    + simpl. replace (i + 1) with (S i) by lia. constructor. apply Char_eq_refl.
    + change (lit (String c (String c' s)))
        with (Seq (Chr (Char.eq c)) (lit (String c' s))).
      apply M_Seq with (q := (S i, String c' s +:+ t)).
      * constructor. apply Char_eq_refl.
      * replace (i + String.length (String c (String c' s)))
          with (S i + String.length (String c' s)) by (simpl; lia).
        apply IH.
Qed.

Lemma string_app_last_inj (a b : string) (c d : ascii) :
  a +:+ String c "" = b +:+ String d "" → a = b ∧ c = d.
Proof.
  revert b. induction a as [|x a IH]; intros [|y b] H; simpl in H.
  - injection H as ->. auto.
  - destruct b; discriminate H.
  - destruct a; discriminate H.
  - injection H as -> H. apply IH in H as [-> ->]. auto.
Qed.

Lemma length_not_percentage (v : string) : is_length v → is_percentage v → False.
Proof.
  intros (n & u & -> & _ & Hu) (n' & E & _).
  apply list_elem_of_In in Hu. simpl in Hu.
  repeat (destruct Hu as [<-|Hu];
    [match type of E with
     | _ +:+ String ?a (String ?b "") = _ =>
         change (n +:+ String a (String b ""))
           with (n +:+ (String a "" +:+ String b "")) in E
     | _ +:+ String ?a (String ?b (String ?c "")) = _ =>
         change (n +:+ String a (String b (String c "")))
           with (n +:+ (String a (String b "") +:+ String c "")) in E
     end;
     rewrite <- string_app_assoc in E;
     apply string_app_last_inj in E as [_ E]; discriminate E|]).
  destruct Hu.
Qed.

(** X3. Apart from ["0"], no value is both a length and a percentage, so
    the order of the two alternatives of [getLength(v) || getPercentage(v)]
    matters for ["0"] only. *)
Theorem length_percentage_disjoint (v r1 r2 : string) :
  getLength v = Some r1 → getPercentage v = Some r2 → v = "0".
Proof.
  intros H1 H2.
  apply getLength_shape in H1 as [[-> _]|[_ Hl]]; [reflexivity|].
  apply getPercentage_shape in H2 as [[E _]|[_ Hp]]; [exact E|].
  destruct (length_not_percentage v Hl Hp).
Qed.

Lemma length_percentage_disjoint_witness :
  getLength "0" = Some "0px" ∧ getPercentage "0" = Some "0%" ∧ "0" = "0".
Proof.
  split; [reflexivity|]. split; [reflexivity|].
  apply (length_percentage_disjoint "0" "0px" "0%"); reflexivity.
Defined.

(** *** Colors *)

(** X4. Whatever [getColor] accepts comes back unchanged and opens with
    [#], [rgb(], [rgba(], [hsl(] or [hsla(]: no color name is accepted. *)
Theorem getColor_forms (v r : string) :
  getColor v = Some r →
  r = v ∧ ∃ t, v = "#" +:+ t ∨ v = "rgb(" +:+ t ∨ v = "rgba(" +:+ t
               ∨ v = "hsl(" +:+ t ∨ v = "hsla(" +:+ t.
Proof.
  unfold getColor. destruct (test COLOR_REGEXP v) eqn:Et; intros [= <-].
  split; [reflexivity|].
  apply test_sound_anchored in Et as [q HM]; [|reflexivity].
  unfold COLOR_REGEXP, HEX_COLOR, RGB_COLOR, RGBA_COLOR, HSL_COLOR in HM.
  cbn [seqs] in HM.
  invert HM; [|match goal with H : Matches (Alt _ _) _ _ |- _ => invert H end;
               [|match goal with H : Matches (Alt _ _) _ _ |- _ => invert H end]].
  all: match goal with H0 : Matches (Seq Bol _) _ _ |- _ =>
         apply Seq_inv in H0 as (q0 & HB & H1); invert HB;
         apply Seq_inv in H1 as (q1 & HL & H)
       end.
  - apply (lit_inv "#") in HL as [EL _]. exists q1.2. auto.
  - apply (lit_inv "rgb(") in HL as [EL _]. exists q1.2. auto.
  - apply (lit_inv "rgba(") in HL as [EL _]. exists q1.2. auto 6.
  - apply (lit_inv "hsl") in HL as [EL _]. simpl in EL.
    apply Seq_inv in H as (q2 & HA & H). apply Seq_inv in H as (q3 & HP & H).
    apply (lit_inv "(") in HP as [EP _].
    apply opt_class_inv in HA as [[EA _]|(c & Hc & EA & _)].
    + exists q3.2. right. right. right. left. rewrite EL, EA, EP. reflexivity.
    + apply Char_eq_true in Hc as ->.
      exists q3.2. right. right. right. right. rewrite EL, EA, EP. reflexivity.
Qed.

Lemma getColor_forms_witness :
  "hsla(0,0%,0%)" = "hsla(0,0%,0%)"
  ∧ ∃ t, "hsla(0,0%,0%)" = "#" +:+ t ∨ "hsla(0,0%,0%)" = "rgb(" +:+ t
         ∨ "hsla(0,0%,0%)" = "rgba(" +:+ t ∨ "hsla(0,0%,0%)" = "hsl(" +:+ t
         ∨ "hsla(0,0%,0%)" = "hsla(" +:+ t.
Proof. apply (getColor_forms "hsla(0,0%,0%)" "hsla(0,0%,0%)"). reflexivity. Defined.

Lemma rgb_like_Matches (f inner : string) (n : nat) q :
  Matches (seqs [Bol; lit f; Grp n (star (Chr not_paren)); lit ")"; Eol])
    (0, f +:+ inner +:+ ")") q →
  all not_paren inner = true.
Proof.
  cbn [seqs]. intros H.
  apply Seq_inv in H as (q0 & HB & H). invert HB.
  apply Seq_inv in H as (q1 & HL & H). apply lit_inv in HL as [EL _].
  apply Seq_inv in H as (q2 & HG & H). invert HG.
  match goal with H : Matches (star _) _ _ |- _ =>
    apply star_class_inv in H as (w & EW & _ & Hw) end.
  apply Seq_inv in H as (q3 & HP & H). apply lit_inv in HP as [EP _].
  invert H. cbn [fst snd] in *.
  assert (E : inner +:+ ")" = w +:+ ")").
  { change (w +:+ ")") with (w +:+ (")" +:+ "")). rewrite <- EP, <- EW. clear -EL.
    induction f as [|c f IH]; [exact EL|].
    simpl in EL. injection EL as EL. auto. }
  apply string_app_last_inj in E as [-> _]. exact Hw.
Qed.

Lemma rgb_like_complete (f inner : string) (n : nat) :
  all not_paren inner = true →
  ∃ q, Matches (seqs [Bol; lit f; Grp n (star (Chr not_paren)); lit ")"; Eol])
         (0, f +:+ inner +:+ ")") q.
Proof.
  intros Hw. eexists. cbn [seqs].
  apply M_Seq with (q := (0, f +:+ inner +:+ ")")); [constructor|].
  apply M_Seq with (q := (0 + String.length f, inner +:+ ")")); [apply lit_Matches|].
  apply M_Seq with (q := (0 + String.length f + String.length inner, ")")).
  { constructor. apply class_rep_Matches; [exact Hw|lia|discriminate]. }
  apply M_Seq with (q := (0 + String.length f + String.length inner + String.length ")", "")).
  { apply (lit_Matches ")" _ ""). }
  constructor.
Qed.

(** X5. Between [rgb(] or [rgba(] and the closing parenthesis [getColor]
    takes any text that has no closing parenthesis, and nothing else: the
    components are not looked at. *)
Theorem getColor_rgb_unchecked (inner : string) :
  (getColor ("rgb(" +:+ inner +:+ ")") = Some ("rgb(" +:+ inner +:+ ")")
   ↔ all not_paren inner = true)
  ∧ (getColor ("rgba(" +:+ inner +:+ ")") = Some ("rgba(" +:+ inner +:+ ")")
     ↔ all not_paren inner = true).
Proof.
  unfold getColor. split; split.
  - destruct (test COLOR_REGEXP ("rgb(" +:+ inner +:+ ")")) eqn:Et; [intros _|discriminate].
    apply test_sound_anchored in Et as [q HM]; [|reflexivity].
    unfold COLOR_REGEXP in HM.
    invert HM; [|match goal with H : Matches (Alt _ _) _ _ |- _ => invert H end;
                 [|match goal with H : Matches (Alt _ _) _ _ |- _ => invert H end]].
    + exfalso. unfold HEX_COLOR in *. cbn [seqs lit] in *. simpl in *.
      invert_Matches. discriminate.
    + eapply (rgb_like_Matches "rgb("). eassumption.
    + exfalso. unfold RGBA_COLOR in *. cbn [seqs lit] in *. simpl in *.
      invert_Matches. discriminate.
    + exfalso. unfold HSL_COLOR in *. cbn [seqs lit] in *. simpl in *.
      repeat match goal with
             | H : Matches (Seq _ _) _ _ |- _ => apply Seq_inv in H as (? & ? & ?)
             end.
      invert_Matches. discriminate.
  - intros Hw. destruct (rgb_like_complete "rgb(" inner 2 Hw) as [q HM].
    erewrite test_complete; [reflexivity|]. apply M_AltR, M_AltL. exact HM.
  - destruct (test COLOR_REGEXP ("rgba(" +:+ inner +:+ ")")) eqn:Et; [intros _|discriminate].
    apply test_sound_anchored in Et as [q HM]; [|reflexivity].
    unfold COLOR_REGEXP in HM.
    invert HM; [|match goal with H : Matches (Alt _ _) _ _ |- _ => invert H end;
                 [|match goal with H : Matches (Alt _ _) _ _ |- _ => invert H end]].
    + exfalso. unfold HEX_COLOR in *. cbn [seqs lit] in *. simpl in *.
      invert_Matches. discriminate.
    + exfalso. unfold RGB_COLOR in *. cbn [seqs lit] in *. simpl in *.
      repeat match goal with
             | H : Matches (Seq _ _) _ _ |- _ => apply Seq_inv in H as (? & ? & ?)
             end.
      invert_Matches. discriminate.
    + eapply (rgb_like_Matches "rgba("). eassumption.
    + exfalso. unfold HSL_COLOR in *. cbn [seqs lit] in *. simpl in *.
      repeat match goal with
             | H : Matches (Seq _ _) _ _ |- _ => apply Seq_inv in H as (? & ? & ?)
             end.
      invert_Matches. discriminate.
  - intros Hw. destruct (rgb_like_complete "rgba(" inner 3 Hw) as [q HM].
    erewrite test_complete; [reflexivity|]. apply M_AltR, M_AltR, M_AltL. exact HM.
Qed.

Lemma getColor_rgb_unchecked_witness :
  getColor "rgb(no numbers here)" = Some "rgb(no numbers here)".
Proof. apply (getColor_rgb_unchecked "no numbers here"). reflexivity. Defined.

(** *** URLs *)

Lemma exec_sound_anchored r s result :
  anchored r = true → exec r s = Some result → ∃ q, Matches r (0, s) q.
Proof.
  intros Ha E. apply (test_sound_anchored r s Ha). unfold test. rewrite E. reflexivity.
Qed.

Lemma all_impl (p q : ascii → bool) (s : string) :
  (∀ c, p c = true → q c = true) → all p s = true → all q s = true.
Proof.
  intros Hpq. induction s as [|c s IH]; simpl; [reflexivity|].
  intros H. apply andb_true_iff in H as [Hc Hs]. rewrite (Hpq c Hc), (IH Hs). reflexivity.
Qed.

Lemma space_not_paren c : Char.space c = true → not_paren c = true.
Proof.
  unfold not_paren. destruct (Char.eq ")" c) eqn:E; [|reflexivity].
  apply Char_eq_true in E as ->. discriminate.
Qed.

(** X6. A value that is neither [none] nor [inherit] is accepted by
    [getURL] only if it is [url(], some text without a closing parenthesis,
    and [)]; it comes back unchanged.  The keywords come back in lower
    case. *)
Theorem getURL_forms (v r : string) :
  getURL v = Some r →
  ((toLowerCase v = "none" ∨ toLowerCase v = "inherit") ∧ r = toLowerCase v)
  ∨ (r = v ∧ ∃ inner, v = "url(" +:+ inner +:+ ")" ∧ all not_paren inner = true).
Proof.
  intros H. unfold getURL in H. destruct v as [|c v]; [discriminate|].
  destruct (String.eqb (toLowerCase (String c v)) "none") eqn:E1.
  { left. injection H as <-. split; [left; apply eqb_true, E1|reflexivity]. }
  destruct (String.eqb (toLowerCase (String c v)) "inherit") eqn:E2.
  { left. injection H as <-. split; [right; apply eqb_true, E2|reflexivity]. }
  simpl orb in H. cbv iota in H.
  destruct (exec URL_REGEXP (String c v)) as [result|] eqn:Ex; [|discriminate].
  right. split.
  { repeat match type of H with
           | context [if ?b then _ else _] => destruct b
           end; try discriminate H; injection H as <-; reflexivity. }
  clear H.
  apply exec_sound_anchored in Ex as [q HM]; [|reflexivity].
  unfold URL_REGEXP in HM. cbn [seqs] in HM.
  apply Seq_inv in HM as (q0 & HB & HM). invert HB.
  apply Seq_inv in HM as (q1 & HL & HM). apply (lit_inv "url(") in HL as [EL _].
  apply Seq_inv in HM as (q2 & H1 & HM). apply star_class_inv in H1 as (w1 & E1' & _ & Hw1).
  apply Seq_inv in HM as (q3 & HG & HM). invert HG.
  match goal with H : Matches (star _) _ _ |- _ =>
    apply star_class_inv in H as (w2 & E2' & _ & Hw2) end.
  apply Seq_inv in HM as (q4 & H3 & HM). apply star_class_inv in H3 as (w3 & E3' & _ & Hw3).
  apply Seq_inv in HM as (q5 & HP & HM). apply (lit_inv ")") in HP as [EP _].
  invert HM. cbn [fst snd] in *.
  exists (w1 +:+ w2 +:+ w3). split.
  - rewrite EL, E1', E2', E3', EP, !string_app_assoc. reflexivity.
  - rewrite !all_app, Hw2, (all_impl _ _ w1 space_not_paren Hw1),
      (all_impl _ _ w3 space_not_paren Hw3). reflexivity.
Qed.

Lemma getURL_forms_witness :
  ((toLowerCase "NONE" = "none" ∨ toLowerCase "NONE" = "inherit")
   ∧ "none" = toLowerCase "NONE")
  ∨ ("none" = "NONE"
     ∧ ∃ inner, "NONE" = "url(" +:+ inner +:+ ")" ∧ all not_paren inner = true).
Proof. apply (getURL_forms "NONE" "none"). reflexivity. Defined.

(** What [getURL] does with a token that does not open with a quote. *)
Lemma getURL_on_plain_token (ws token : string) :
  all Char.space ws = true →
  all not_paren token = true →
  stops Char.space token = true →
  quote (String.get 0 token) = false →
  getURL ("url(" +:+ ws +:+ token +:+ ")")
  = if scan token then Some ("url(" +:+ ws +:+ token +:+ ")") else None.
Proof.
  intros Hws Htok Hstop Hq.
  pose proof (exec_URL ws token Hws Htok Hstop) as Hexec.
  set (value := "url(" +:+ ws +:+ token +:+ ")") in *.
  unfold getURL.
  change value with (String "u" (String "r" (String "l" (String "("
    (ws +:+ token +:+ ")"))))) at 1 2 3.
  cbn [toLowerCase String.eqb]. change (Char.toLowerCase "u") with "u"%char.
  cbn [Ascii.eqb Bool.eqb orb]. fold value. rewrite Hexec.
  unfold group. cbn [lookup list_lookup mjoin option_join default id].
  rewrite Hq. cbn [andb]. reflexivity.
Qed.

(** X7. For an input [url(] white space, token [)] whose token has no
    closing parenthesis and does not open with a quote or with white space
    (it may be empty): it is rejected exactly when the token has an
    unescaped [(], space, tab, newline or quote; when accepted, the input
    comes back unchanged.  White space before the token is dropped, white
    space after it is part of it. *)
Theorem getURL_unquoted (ws token : string) :
  all Char.space ws = true →
  all not_paren token = true →
  stops Char.space token = true →
  quote (String.get 0 token) = false →
  let value := "url(" +:+ ws +:+ token +:+ ")" in
  (Unescaped token → getURL value = None)
  ∧ (¬ Unescaped token → getURL value = Some value).
Proof.
  intros Hws Htok Hstop Hq value. subst value.
  rewrite (getURL_on_plain_token ws token Hws Htok Hstop Hq). split.
  - intros Hu. apply scan_Unescaped in Hu. rewrite Hu. reflexivity.
  - intros Hu. destruct (scan token) eqn:E; [reflexivity|].
    apply scan_Unescaped in E. contradiction.
Qed.

Lemma getURL_unquoted_witness :
  getURL "url( a.png )" = None ∧ getURL "url( a.png)" = Some "url( a.png)"
  ∧ getURL "url()" = Some "url()".
Proof.
  split; [|split].
  - apply (getURL_unquoted " " "a.png " eq_refl eq_refl eq_refl eq_refl).
    apply scan_Unescaped. reflexivity.
  - apply (getURL_unquoted " " "a.png" eq_refl eq_refl eq_refl eq_refl).
    intros Hu. apply scan_Unescaped in Hu. discriminate Hu.
  - apply (getURL_unquoted "" "" eq_refl eq_refl eq_refl eq_refl).
    intros Hu. apply scan_Unescaped in Hu. discriminate Hu.
Defined.

(** *** Integers *)

Lemma trimStart_spaces (ws s : string) :
  all Char.space ws = true → stops Char.space s = true → trimStart (ws +:+ s) = s.
Proof.
  intros Hws Hs. induction ws as [|c ws IH].
  - destruct s as [|a s]; [reflexivity|]. simpl in *.
    apply negb_true_iff in Hs. rewrite Hs. reflexivity.
  - simpl in *. apply andb_true_iff in Hws as [Hc Hws]. rewrite Hc. auto.
Qed.

Lemma digit_facts d :
  Char.digit d = true →
  Char.space d = false ∧ Char.one_of "+-" d = false
  ∧ (Char.eq "0" d = false ∨ d = "0"%char).
Proof.
  destruct (Char.eq "0" d) eqn:E.
  - apply Char_eq_true in E as ->. intros _. auto.
  - destruct d as [[] [] [] [] [] [] [] []]; try discriminate; auto.
Qed.

(** X8. [getInteger] looks at the beginning of the value only: after white
    space and an optional sign, one decimal digit is enough, whatever
    follows, and the value comes back unchanged, white space and all.  The
    exception is a [0] followed by [x] or [X], which [parseInt] reads as a
    hexadecimal prefix. *)
Theorem getInteger_leading_digit (ws sign rest : string) (d : ascii) :
  all Char.space ws = true →
  sign = "" ∨ sign = "+" ∨ sign = "-" →
  Char.digit d = true →
  (d = "0"%char → stops (Char.one_of "xX") rest = true) →
  getInteger (ws +:+ sign +:+ String d rest) = Some (ws +:+ sign +:+ String d rest).
Proof.
  intros Hws Hsign Hd Hx. unfold getInteger, parseInt_isNaN.
  destruct (digit_facts d Hd) as (Hsp & Hpm & H0).
  rewrite trimStart_spaces;
    [|exact Hws|destruct Hsign as [->|[->| ->]]; simpl; [rewrite Hsp|..]; reflexivity].
  assert (E : match sign +:+ String d rest with
              | String c s' => if Char.one_of "+-" c then s' else sign +:+ String d rest
              | EmptyString => sign +:+ String d rest
              end = String d rest).
  { destruct Hsign as [->|[->| ->]]; simpl; [|reflexivity..].
    change (Char.eq "+" d || (Char.eq "-" d || false)) with (Char.one_of "+-" d).
    rewrite Hpm. reflexivity. }
  rewrite E. destruct rest as [|x rest]; [rewrite Hd; reflexivity|].
  destruct H0 as [H0| ->].
  - rewrite H0. simpl. rewrite Hd. reflexivity.
  - specialize (Hx eq_refl). simpl in Hx. apply negb_true_iff in Hx.
    rewrite Hx, andb_false_r. reflexivity.
Qed.

Lemma getInteger_leading_digit_witness :
  getInteger "  -12abc" = Some "  -12abc".
Proof.
  apply (getInteger_leading_digit "  " "-" "2abc" "1"); auto; discriminate.
Defined.

(** *** Lower case *)

Lemma toLowerCase_app (a b : string) :
  toLowerCase (a +:+ b) = toLowerCase a +:+ toLowerCase b.
Proof.
  induction a as [|c a IH]; [reflexivity|].
  change (String (Char.toLowerCase c) (toLowerCase (a +:+ b))
          = String (Char.toLowerCase c) (toLowerCase a +:+ toLowerCase b)).
  f_equal. exact IH.
Qed.

Lemma digit_lower c : Char.digit c = true → Char.toLowerCase c = c.
Proof. destruct c as [[] [] [] [] [] [] [] []]; try discriminate; reflexivity. Qed.

Lemma all_lower (p : ascii → bool) (s : string) :
  (∀ c, p c = true → Char.toLowerCase c = c) → all p s = true → toLowerCase s = s.
Proof.
  intros Hp. induction s as [|c s IH]; [reflexivity|]. simpl.
  intros H. apply andb_true_iff in H as [Hc Hs]. rewrite (Hp c Hc), (IH Hs). reflexivity.
Qed.

Lemma is_number_lower n : is_number n → toLowerCase n = n.
Proof.
  intros (sign & int & dot & frac & -> & Hsign & Hint & Hdot & Hfrac & _).
  rewrite !toLowerCase_app, (all_lower _ int digit_lower Hint),
    (all_lower _ frac digit_lower Hfrac).
  destruct Hsign as [->|[->| ->]], Hdot as [->| ->]; reflexivity.
Qed.

Lemma getLength_lower v r : getLength v = Some r → toLowerCase r = r.
Proof.
  intros H. apply getLength_shape in H as [[_ ->]|[-> (n & u & -> & Hn & Hu)]];
    [reflexivity|].
  rewrite toLowerCase_app, (is_number_lower n Hn). f_equal.
  apply list_elem_of_In in Hu. simpl in Hu.
  repeat (destruct Hu as [<-|Hu]; [reflexivity|]). destruct Hu.
Qed.

Lemma getPercentage_lower v r : getPercentage v = Some r → toLowerCase r = r.
Proof.
  intros H. apply getPercentage_shape in H as [[_ ->]|[-> (n & -> & Hn)]];
    [reflexivity|].
  rewrite toLowerCase_app, (is_number_lower n Hn). reflexivity.
Qed.

(** *** Measurements *)

Lemma keyword_elem_of (k : string) : keyword k = true ↔ k ∈ MEASUREMENT_KEYWORDS.
Proof.
  unfold keyword, MEASUREMENT_KEYWORDS. rewrite !orb_true_iff, !String.eqb_eq.
  rewrite !elem_of_cons, elem_of_nil. tauto.
Qed.

Lemma is_number_head n :
  is_number n →
  ∃ c n', n = String c n' ∧ Char.digit c || Char.one_of "+-." c = true.
Proof.
  intros (sign & int & dot & frac & -> & Hsign & Hint & Hdot & Hfrac & Hne).
  destruct Hsign as [->|[->| ->]]; try (eexists _, _; split; reflexivity).
  change ("" +:+ int +:+ dot +:+ frac) with (int +:+ dot +:+ frac).
  destruct int as [|c int].
  - change ("" +:+ dot +:+ frac) with (dot +:+ frac).
    destruct Hdot as [->| ->]; [|eexists _, _; split; reflexivity].
    destruct frac as [|c frac]; [contradiction|].
    simpl in Hfrac. apply andb_true_iff in Hfrac as [Hc _].
    eexists _, _. split; [reflexivity|]. rewrite Hc. reflexivity.
  - simpl in Hint. apply andb_true_iff in Hint as [Hc _].
    eexists _, _. split; [reflexivity|]. rewrite Hc. reflexivity.
Qed.

Lemma number_not_keyword c s :
  Char.digit c || Char.one_of "+-." c = true → keyword (toLowerCase (String c s)) = false.
Proof. destruct c as [[] [] [] [] [] [] [] []]; try discriminate; reflexivity. Qed.

Lemma is_length_not_keyword v : is_length v → keyword (toLowerCase v) = false.
Proof.
  intros (n & u & -> & Hn & _). apply is_number_head in Hn as (c & n' & -> & Hc).
  apply (number_not_keyword c (n' +:+ u) Hc).
Qed.

Lemma is_percentage_not_keyword v : is_percentage v → keyword (toLowerCase v) = false.
Proof.
  intros (n & -> & Hn). apply is_number_head in Hn as (c & n' & -> & Hc).
  apply (number_not_keyword c (n' +:+ "%") Hc).
Qed.

(** X9. [getMeasurement] accepts the four keywords in any case, which it
    gives back in lower case, ["0"], which it turns into ["0px"], and
    otherwise exactly the lengths and the percentages, which come back
    unchanged. *)
Theorem getMeasurement_grammar (v r : string) :
  getMeasurement v = Some r ↔
  (toLowerCase v ∈ MEASUREMENT_KEYWORDS ∧ r = toLowerCase v)
  ∨ (v = "0" ∧ r = "0px")
  ∨ (r = v ∧ (is_length v ∨ is_percentage v)).
Proof.
  split.
  - intros H. destruct (getMeasurement_cases v r H) as [[Hk ->]|[[-> ->]|[Hk ->]]].
    + left. split; [apply keyword_elem_of, Hk|reflexivity].
    + right. left. auto.
    + right. right. split; [reflexivity|].
      unfold getMeasurement in H. fold (keyword (toLowerCase v)) in H. rewrite Hk in H.
      apply or_else_cases in H as [H|H].
      * apply getLength_shape in H as [[-> H]|[_ H]]; [discriminate H|left; exact H].
      * apply getPercentage_shape in H as [[-> H]|[_ H]]; [discriminate H|right; exact H].
  - unfold getMeasurement. fold (keyword (toLowerCase v)).
    intros [[Hk ->]|[[-> ->]|[-> [Hl|Hp]]]].
    + apply keyword_elem_of in Hk. rewrite Hk. reflexivity.
    + reflexivity.
    + rewrite (is_length_not_keyword v Hl).
      assert (E : getLength v = Some v) by (apply getLength_accepts; exact Hl).
      rewrite E. unfold or_else. destruct Hl as (n & u & -> & Hn & _).
      apply is_number_head in Hn as (c & n' & -> & _). reflexivity.
    + rewrite (is_percentage_not_keyword v Hp).
      assert (E : getPercentage v = Some v) by (apply getPercentage_accepts; exact Hp).
      destruct (getLength v) as [r'|] eqn:El; [|exact E].
      exfalso. apply getLength_shape in El as [[-> _]|[_ Hl]].
      * destruct Hp as (n & E' & _).
        apply (string_app_last_inj "" n "0" "%") in E' as [_ E']. discriminate E'.
      * exact (length_not_percentage v Hl Hp).
Qed.

Lemma getMeasurement_grammar_witness :
  getMeasurement "UnSet" = Some "unset" ∧ getMeasurement "1.5rem" = Some "1.5rem".
Proof.
  split.
  - apply (getMeasurement_grammar "UnSet" "unset"). left.
    split; [repeat constructor|reflexivity].
  - apply (getMeasurement_grammar "1.5rem" "1.5rem"). right. right.
    split; [reflexivity|]. left. exists "1.5", "rem".
    split; [reflexivity|]. split; [|repeat constructor].
    exists "", "1", ".", "5". repeat split; auto; discriminate.
Defined.

(** *** Hex colors and a lone quote *)

(** X10. After [#], [getColor] takes hex digits in one or two groups of
    three or four: three, four, six, seven or eight digits, and no other
    number of them. *)
Theorem getColor_hex_lengths (ds : string) :
  all Char.hex ds = true →
  getColor ("#" +:+ ds) = Some ("#" +:+ ds) ↔ hex_lengths (String.length ds).
Proof. apply getColor_hex. Qed.

Lemma getColor_hex_lengths_witness :
  getColor "#1234567" = Some "#1234567" ∧ getColor "#12345" ≠ Some "#12345".
Proof.
  split.
  - apply (getColor_hex_lengths "1234567" eq_refl). vm_compute. auto.
  - intros H. apply (getColor_hex_lengths "12345" eq_refl) in H.
    vm_compute in H. repeat (destruct H as [H|H]; [discriminate H|]). discriminate H.
Defined.

(** X11. A URL token that is one quote and nothing else is refused: the
    quote is its own first and last code unit, [substring(1, 0)] gives it
    back, and the scan refuses a quote. *)
Theorem getURL_single_quote (ws : string) (q : ascii) :
  all Char.space ws = true →
  quote (Some q) = true →
  getURL ("url(" +:+ ws +:+ String q "" +:+ ")") = None.
Proof. apply getURL_lone_quote. Qed.

Lemma getURL_single_quote_witness : getURL "url( ')" = None.
Proof. apply (getURL_single_quote " " "'"); reflexivity. Defined.

(** *** The decimal point of [hsl] *)

(** A pattern without [^] matches the same at every index. *)
Lemma Matches_shift (k : nat) r p q :
  Matches r p q → has_bol r = false → Matches r (p.1 + k, p.2) (q.1 + k, q.2).
Proof.
  induction 1; simpl; intros Hb; try discriminate Hb;
    try (apply orb_false_iff in Hb as [Hb1 Hb2]).
  - constructor.
  - constructor. assumption.
  - econstructor; eauto.
  - apply M_AltL. auto.
  - apply M_AltR. auto.
  - constructor.
  - constructor.
  - eapply M_RepStep; eauto. simpl. intros Hm. specialize (H1 Hm). lia.
  - constructor. auto.
  - constructor.
Qed.

(** X12. The dot in the number pattern of the [hsl] alternative is not
    escaped: [getColor] takes any code unit but a line terminator where the
    decimal point of the hue goes. *)
Theorem getColor_hsl_any_point (c : ascii) (int frac : string) :
  Char.dot c = true →
  all Char.digit int = true → all Char.digit frac = true → frac ≠ "" →
  getColor ("hsl(" +:+ int +:+ String c frac +:+ ",0%,0%)")
  = Some ("hsl(" +:+ int +:+ String c frac +:+ ",0%,0%)").
Proof.
  intros Hc Hint Hfrac Hne. unfold getColor.
  erewrite test_complete; [reflexivity|].
  unfold COLOR_REGEXP. apply M_AltR, M_AltR, M_AltR.
  unfold HSL_COLOR. cbn [seqs].
  apply M_Seq with (q := (0, "hsl(" +:+ int +:+ String c frac +:+ ",0%,0%)")); [constructor|].
  apply M_Seq with (q := (3, "(" +:+ int +:+ String c frac +:+ ",0%,0%)"));
    [apply (lit_Matches "hsl" 0)|].
  apply M_Seq with (q := (3, "(" +:+ int +:+ String c frac +:+ ",0%,0%)"));
    [apply M_RepStop|].
  apply M_Seq with (q := (4, int +:+ String c frac +:+ ",0%,0%)"));
    [apply (lit_Matches "(" 3)|].
  apply M_Seq with (q := (4, int +:+ String c frac +:+ ",0%,0%)")); [apply M_RepStop|].
  apply M_Seq with (q := (4 + String.length int + 1 + String.length frac, ",0%,0%)")).
  - unfold number_re. constructor. apply M_AltR. cbn [seqs].
    apply M_Seq with (q := (4, int +:+ String c frac +:+ ",0%,0%)")); [apply M_RepStop|].
    apply M_Seq with (q := (4 + String.length int, String c frac +:+ ",0%,0%)")).
    { apply class_rep_Matches; [exact Hint|lia|discriminate]. }
    apply M_Seq with (q := (S (4 + String.length int), frac +:+ ",0%,0%)")).
    { constructor. exact Hc. }
    replace (4 + String.length int + 1 + String.length frac)
      with (S (4 + String.length int) + String.length frac) by lia.
    apply class_rep_Matches; [exact Hfrac| |discriminate].
    destruct frac; [contradiction|simpl; lia].
  - match goal with
    | |- Matches ?R _ _ =>
        assert (H0 : Matches R (0, ",0%,0%)") (7, ""))
    end.
    { match goal with
      | |- Matches ?R _ _ =>
          assert (E : ∃ z, match_at R 0 ",0%,0%)" = Some z ∧ pos z = (7, ""))
            by (eexists; split; vm_compute; reflexivity)
      end.
      destruct E as (z & E & Hz). apply match_at_sound in E. rewrite Hz in E. exact E. }
    apply (Matches_shift (4 + String.length int + 1 + String.length frac)) in H0;
      [|reflexivity].
    simpl fst in H0. simpl snd in H0.
    replace (7 + (4 + String.length int + 1 + String.length frac))
      with (0 + (4 + String.length int + 1 + String.length frac) + 7) in H0 by lia.
    exact H0.
Qed.

Lemma getColor_hsl_any_point_witness :
  getColor "hsl(12x5,0%,0%)" = Some "hsl(12x5,0%,0%)".
Proof.
  apply (getColor_hsl_any_point "x" "12" "5"); try reflexivity. discriminate.
Defined.

End ValueParserProperties.

(** * Further properties of CSSStyleDeclarationPropertyValueParser *)

Module PropertyParserProperties.

Import RegExpSpec RegExpFacts CSSStyleDeclarationValueParser
  CSSStyleDeclarationPropertyValueParser Spec ValueParserFacts PropertyParserFacts
  ValueParserProperties IgnoreCase.
Local Open Scope nat_scope.

(** *** Results of the parsers of one property *)

Lemma toLowerCase_empty s : toLowerCase s = "" → s = "".
Proof. destruct s; [reflexivity|discriminate]. Qed.

Lemma includes_not_empty (l : list string) (s : string) :
  includes l "" = false → includes l s = true → s ≠ "".
Proof. intros H1 H2 ->. congruence. Qed.

Lemma truthy_Some r : truthy r = true → ∃ s, r = Some s ∧ s ≠ "".
Proof.
  destruct r as [[|c s]|]; try discriminate. intros _.
  eexists; split; [reflexivity|discriminate].
Qed.

(** *** A value that [split] leaves in one piece *)

Lemma split_from_length r s : ∀ q k piece A,
  length A < length (split_from r q s k piece A).
Proof.
  induction s as [|ch s IH]; intros q k piece A; cbn [split_from].
  - rewrite length_app. simpl. lia.
  - destruct k as [|k]; [|apply IH].
    destruct (match_at r q (String ch s)) as [y|]; [|apply IH].
    destruct (Nat.eqb (endIndex y) q).
    + destruct piece; [apply IH|].
      eapply Nat.lt_trans; [|apply IH]. rewrite length_app. simpl. lia.
    + eapply Nat.lt_trans; [|apply IH]. rewrite length_app. simpl. lia.
Qed.

Lemma split_from_single r s : ∀ q piece x,
  split_from r q s 0 piece [] = [x] → x = piece +:+ s.
Proof.
  induction s as [|ch s IH]; intros q piece x; cbn [split_from].
  - intros [= <-]. rewrite app_empty_r. reflexivity.
  - destruct (match_at r q (String ch s)) as [y|].
    + destruct (Nat.eqb (endIndex y) q).
      * destruct piece as [|c piece].
        -- intros H. apply IH in H. exact H.
        -- intros H. pose proof (split_from_length r s (S q) 0 (String ch "")
                                   ([] ++ [String c piece])) as L.
           rewrite H in L. simpl in L. lia.
      * intros H. pose proof (split_from_length r s (S q) (endIndex y - q - 1) ""
                                ([] ++ [piece])) as L.
        rewrite H in L. simpl in L. lia.
    + intros H. apply IH in H. rewrite H, string_app_assoc. reflexivity.
Qed.

(** No separator was found: the piece is the value. *)
Lemma split_single r s x : split r s = [x] → x = s.
Proof.
  unfold split. destruct s as [|ch s].
  - destruct (match_at r 0 ""); [discriminate|]. intros [= <-]. reflexivity.
  - intros H. apply split_from_single in H. exact H.
Qed.

Lemma truthy_getLength_lower v : truthy (getLength v) = true → toLowerCase v = v.
Proof.
  intros H. apply truthy_Some in H as (r & H & _).
  apply getLength_shape in H as [[-> _]|[_ Hl]]; [reflexivity|].
  apply getLength_accepts in Hl. apply getLength_lower in Hl. exact Hl.
Qed.

(** X13. A parser of one property returns [null] or an object with one
    entry, under the name of the property, whose [important] is the one
    passed in and whose value is a string that is not empty and, except
    for [clip], in lower case. *)
Theorem parser_result (P : property) (value : string) (important : js) :
  parser P value important = Null
  ∨ ∃ s, s ≠ ""
         ∧ (P ≠ Clip → toLowerCase s = s)
         ∧ parser P value important
           = Obj {[ name P := PropertyValue (Str s) important ]}.
Proof.
  assert (Hkw : ∀ (l : list string) (k : string),
    includes l "" = false →
    (if includes l (toLowerCase value)
     then Obj {[ k := PropertyValue (Str (toLowerCase value)) important ]}
     else Null) = Null
    ∨ ∃ s, s ≠ "" ∧ (P ≠ Clip → toLowerCase s = s)
           ∧ (if includes l (toLowerCase value)
              then Obj {[ k := PropertyValue (Str (toLowerCase value)) important ]}
              else Null)
             = Obj {[ k := PropertyValue (Str s) important ]}).
  { intros l k Hl. destruct (includes l (toLowerCase value)) eqn:E; [right|left; reflexivity].
    exists (toLowerCase value). split; [|split; [intros _; apply toLowerCase_idem|reflexivity]].
    eapply includes_not_empty; eassumption. }
  destruct P; cbn [parser name].
  - apply Hkw. reflexivity.
  - apply Hkw. reflexivity.
  - apply Hkw. reflexivity.
  - apply Hkw. reflexivity.
  - unfold getBackgroundPosition. destruct value as [|c0 value0] eqn:Ev; [left; reflexivity|].
    rewrite <- Ev.
    assert (Hv : value ≠ "") by (rewrite Ev; discriminate).
    assert (Hlv : toLowerCase value ≠ "").
    { intros H. apply toLowerCase_empty in H. contradiction. }
    clear Ev. destruct (split WHITE_SPACE value) as [|p0 [|p1 [|p2 parts]]] eqn:Es;
      [left; reflexivity| | |left; reflexivity].
    + apply split_single in Es as ->.
      destruct (truthy (getLength value)) eqn:Et.
      { right. exists value. split; [exact Hv|]. split; [|reflexivity].
        intros _. apply truthy_getLength_lower, Et. }
      destruct value; [left; reflexivity|].
      destruct (includes BACKGROUND_POSITION (toLowerCase (String a value))
                || String.eqb (toLowerCase (String a value)) "inherit");
        [right|left; reflexivity].
      eexists. split; [exact Hlv|]. split; [intros _; apply toLowerCase_idem|reflexivity].
    + destruct (truthy (or_else (getLength p0) (getPercentage p0))
                && truthy (or_else (getLength p1) (getPercentage p1))).
      { right. eexists. split; [exact Hlv|].
        split; [intros _; apply toLowerCase_idem|reflexivity]. }
      destruct (includes BACKGROUND_POSITION (toLowerCase p0)
                && includes BACKGROUND_POSITION (toLowerCase p1)); [right|left; reflexivity].
      eexists; split; [|split; [intros _|reflexivity]].
      * destruct (toLowerCase p0); discriminate.
      * rewrite !toLowerCase_app, !toLowerCase_idem. reflexivity.
  - unfold getBorderWidth.
    destruct (includes BORDER_WIDTH (toLowerCase value)) eqn:E.
    { right. exists (toLowerCase value).
      split; [|split; [intros _; apply toLowerCase_idem|reflexivity]].
      eapply includes_not_empty; [|exact E]. reflexivity. }
    destruct (truthy (getLength value)) eqn:Et; [right|left; reflexivity].
    apply truthy_Some in Et as (s & Es & Hs). rewrite Es.
    exists s. split; [exact Hs|]. split; [intros _; eapply getLength_lower, Es|reflexivity].
  - apply Hkw. reflexivity.
  - unfold getClip.
    destruct (String.eqb (toLowerCase value) "auto" || String.eqb (toLowerCase value) "initial"
              || String.eqb (toLowerCase value) "inherit") eqn:E.
    { right. exists (toLowerCase value). split; [|split; [contradiction|reflexivity]].
      intros H. rewrite H in E. discriminate E. }
    destruct (exec RECT_REGEXP (toLowerCase value)) as [matches|] eqn:Ex; [|left; reflexivity].
    destruct (negb _); [left; reflexivity|].
    destruct (forallb _ _); [right|left; reflexivity].
    exists value. split; [|split; [contradiction|reflexivity]].
    intros ->. vm_compute in Ex. discriminate Ex.
  - apply Hkw. reflexivity.
  - unfold getFontSize.
    destruct (includes FONT_SIZE (toLowerCase value)) eqn:E.
    { right. exists (toLowerCase value).
      split; [|split; [intros _; apply toLowerCase_idem|reflexivity]].
      eapply includes_not_empty; [|exact E]. reflexivity. }
    destruct (truthy (or_else (getLength value) (getPercentage value))) eqn:Et;
      [right|left; reflexivity].
    apply truthy_Some in Et as (s & Es & Hs). rewrite Es.
    exists s. split; [exact Hs|]. split; [intros _|reflexivity].
    apply or_else_cases in Es as [Es|Es];
      [eapply getLength_lower|eapply getPercentage_lower]; exact Es.
Qed.

Lemma parser_result_witness :
  parser Clip "RECT(0,0,0,0)" (Bool true) = Null
  ∨ ∃ s, s ≠ ""
         ∧ (Clip ≠ Clip → toLowerCase s = s)
         ∧ parser Clip "RECT(0,0,0,0)" (Bool true)
           = Obj {[ name Clip := PropertyValue (Str s) (Bool true) ]}.
Proof. exact (parser_result Clip "RECT(0,0,0,0)" (Bool true)). Defined.

Lemma includes_elem_of (l : list string) (x : string) :
  includes l x = true ↔ x ∈ l.
Proof.
  unfold includes. rewrite existsb_exists. split.
  - intros (k & Hk & E). apply eqb_true in E as ->. apply list_elem_of_In. exact Hk.
  - intros H. exists x. split; [apply list_elem_of_In; exact H|apply String.eqb_refl].
Qed.

(** X14. The six parsers that are one list of keywords accept exactly the
    values that are a listed keyword up to case, and give the listed
    spelling; every listed keyword is accepted as it is written. *)
Theorem keyword_parser (P : property) (l : list string) (value : string) (important : js) :
  keywords P = Some l →
  parser P value important
  = (if bool_decide (toLowerCase value ∈ l)
     then Obj {[ name P := PropertyValue (Str (toLowerCase value)) important ]}
     else Null)
  ∧ (∀ k, k ∈ l →
       parser P k important = Obj {[ name P := PropertyValue (Str k) important ]}).
Proof.
  intros Hl.
  assert (Hlow : ∀ k, k ∈ l → toLowerCase k = k).
  { intros k Hk. apply list_elem_of_In in Hk.
    destruct P; try discriminate Hl; injection Hl as <-; simpl in Hk;
      repeat (destruct Hk as [<-|Hk]; [reflexivity|]); destruct Hk. }
  assert (H1 : ∀ v, parser P v important
    = if bool_decide (toLowerCase v ∈ l)
      then Obj {[ name P := PropertyValue (Str (toLowerCase v)) important ]}
      else Null).
  { intros v.
    assert (E : includes l (toLowerCase v) = bool_decide (toLowerCase v ∈ l)).
    { destruct (includes l (toLowerCase v)) eqn:E; symmetry.
      - apply bool_decide_eq_true, includes_elem_of, E.
      - apply bool_decide_eq_false. intros H. apply includes_elem_of in H. congruence. }
    rewrite <- E.
    destruct P; try discriminate Hl; injection Hl as <-; reflexivity. }
  split; [apply H1|].
  intros k Hk. rewrite H1, (Hlow k Hk), bool_decide_eq_true_2 by exact Hk. reflexivity.
Qed.

Lemma keyword_parser_witness :
  parser Float "LEFT" (Bool true)
  = Obj {[ "float" := PropertyValue (Str "left") (Bool true) ]}.
Proof.
  destruct (keyword_parser Float FLOAT "LEFT" (Bool true) eq_refl) as [H _]. exact H.
Defined.

(** *** [split] on tokens and separators *)

Lemma split_from_skip r w : ∀ q s k piece A,
  split_from r q (w +:+ s) (String.length w + k) piece A
  = split_from r (q + String.length w) s k piece A.
Proof.
  induction w as [|a w IH]; intros q s k piece A.
  - simpl. rewrite Nat.add_0_r. reflexivity.
  - change (String a w +:+ s) with (String a (w +:+ s)).
    cbn [String.length Nat.add split_from]. rewrite IH. f_equal. lia.
Qed.

Section Split.

Variable r : regex.
Variable p : ascii → bool.
Variable sep : string.

(** No separator begins at a code unit outside the class [p], nor at the
    end of the input; the separator [sep] is found whole where a code unit
    outside [p], or the end, follows it. *)
Hypothesis at_token : ∀ q a s, p a = false → match_at r q (String a s) = None.
Hypothesis at_sep : ∀ q s, stops p s = true →
  ∃ y, match_at r q (sep +:+ s) = Some y ∧ endIndex y = q + String.length sep.
Hypothesis sep_not_empty : sep ≠ "".

Lemma split_from_token t : ∀ q s piece A,
  all (fun c => negb (p c)) t = true →
  split_from r q (t +:+ s) 0 piece A
  = split_from r (q + String.length t) s 0 (piece +:+ t) A.
Proof.
  induction t as [|a t IH]; intros q s piece A Ht.
  - simpl. rewrite Nat.add_0_r, app_empty_r. reflexivity.
  - simpl in Ht. apply andb_true_iff in Ht as [Ha Ht]. apply negb_true_iff in Ha.
    change (String a t +:+ s) with (String a (t +:+ s)).
    cbn [split_from]. rewrite (at_token q a (t +:+ s) Ha), IH by exact Ht.
    f_equal; [simpl; lia|]. rewrite string_app_assoc. reflexivity.
Qed.

Lemma split_from_sep : ∀ q s piece A,
  stops p s = true →
  split_from r q (sep +:+ s) 0 piece A
  = split_from r (q + String.length sep) s 0 "" (A ++ [piece])%list.
Proof.
  intros q s piece A Hs. destruct (at_sep q s Hs) as (y & Hy & He).
  destruct sep as [|a w] eqn:Esep; [contradiction|].
  change (String a w +:+ s) with (String a (w +:+ s)) in *.
  cbn [split_from]. rewrite Hy, He. cbn [String.length].
  assert (Nat.eqb (q + S (String.length w)) q = false) as -> by (apply Nat.eqb_neq; lia).
  replace (q + S (String.length w) - q - 1) with (String.length w + 0) by lia.
  rewrite split_from_skip. f_equal. lia.
Qed.

Lemma stops_token t s : token p t → stops p (t +:+ s) = true.
Proof.
  intros [Hne Ht]. destruct t as [|a t]; [contradiction|].
  simpl in *. apply andb_true_iff in Ht as [Ha _]. exact Ha.
Qed.

Lemma stops_join t ts : Forall (token p) (t :: ts) → stops p (join sep (t :: ts)) = true.
Proof.
  intros H. apply Forall_cons in H as [Ht _].
  destruct ts; cbn [join]; [|apply stops_token; exact Ht].
  rewrite <- (app_empty_r t). apply stops_token. exact Ht.
Qed.

Lemma split_from_join ts : ∀ t q piece A,
  Forall (token p) (t :: ts) →
  split_from r q (join sep (t :: ts)) 0 piece A = (A ++ (piece +:+ t) :: ts)%list.
Proof.
  induction ts as [|t' ts IH]; intros t q piece A H.
  - cbn [join]. apply Forall_cons in H as [[_ Ht] _].
    rewrite <- (app_empty_r t) at 1. rewrite split_from_token by exact Ht. reflexivity.
  - change (join sep (t :: t' :: ts)) with (t +:+ sep +:+ join sep (t' :: ts)).
    apply Forall_cons in H as [[_ Ht] H].
    rewrite split_from_token by exact Ht.
    rewrite split_from_sep by (apply stops_join; exact H).
    rewrite IH by exact H. rewrite <- app_assoc. reflexivity.
Qed.

(** Splitting what [join] has put together gives the tokens back. *)
Lemma split_join ts :
  ts ≠ [] → Forall (token p) ts → split r (join sep ts) = ts.
Proof.
  intros Hne H. destruct ts as [|t ts]; [contradiction|].
  unfold split. destruct (join sep (t :: ts)) as [|a s] eqn:E.
  - exfalso. pose proof (stops_join t ts H) as Hs.
    apply Forall_cons in H as [[Ht _] _].
    destruct ts; cbn [join] in E; [contradiction|].
    destruct t; [contradiction|discriminate E].
  - rewrite <- E. apply (split_from_join ts t 0 "" [] H).
Qed.

End Split.

(** The separators [/ +/] and [/\s+/]: one or more code units of a class. *)
Lemma match_at_plus_step (p : ascii → bool) q a t :
  match_at (plus (Chr p)) q (String a t)
  = if p a
    then RepeatMatcher (matcher (Chr p)) []
           (λ y, Some (capture 0 (mkState q (String a t) [None]) y))
           (S (String.length t)) 0 None (mkState (S q) t [None])
    else None.
Proof. reflexivity. Qed.

Lemma match_at_plus_none (p : ascii → bool) q a s :
  p a = false → match_at (plus (Chr p)) q (String a s) = None.
Proof. intros Ha. rewrite match_at_plus_step, Ha. reflexivity. Qed.

Lemma match_at_plus_some (p : ascii → bool) sep q s :
  all p sep = true → sep ≠ "" → stops p s = true →
  ∃ y, match_at (plus (Chr p)) q (sep +:+ s) = Some y
       ∧ endIndex y = q + String.length sep.
Proof.
  intros Hsep Hne Hs. destruct sep as [|a w]; [contradiction|].
  simpl in Hsep. apply andb_true_iff in Hsep as [Ha Hw].
  change (String a w +:+ s) with (String a (w +:+ s)).
  rewrite match_at_plus_step, Ha.
  eexists. split.
  - apply (RepeatMatcher_class_greedy p _ w); [exact Hw|exact Hs|lia|reflexivity].
  - cbn. lia.
Qed.

Lemma split_join_class (p : ascii → bool) (sep : string) (ts : list string) :
  all p sep = true → sep ≠ "" → ts ≠ [] → Forall (token p) ts →
  split (plus (Chr p)) (join sep ts) = ts.
Proof.
  intros Hsep Hne Hts H. apply (split_join _ p sep); auto.
  - intros q a s. apply match_at_plus_none.
  - intros q s. apply match_at_plus_some; assumption.
Qed.

(** *** The shorthands on a value made of tokens *)

Lemma split_SPACES (sep : string) (ts : list string) :
  spaces sep → ts ≠ [] → Forall word ts → split SPACES (join sep ts) = ts.
Proof.
  intros [Hne Hsep] Hts H. apply (split_join_class (Char.eq " ")); assumption.
Qed.

(** The recognisers never accept with an empty result. *)
Lemma getLength_not_empty v : getLength v ≠ Some "".
Proof. intros H. apply getLength_cases in H as [[_ H]|[<- H]]; [discriminate|auto]. Qed.

Lemma getPercentage_not_empty v : getPercentage v ≠ Some "".
Proof. intros H. apply getPercentage_cases in H as [[_ H]|[<- H]]; [discriminate|auto]. Qed.

Lemma getMeasurement_not_empty v : getMeasurement v ≠ Some "".
Proof.
  unfold getMeasurement.
  destruct (String.eqb (toLowerCase v) "inherit" || String.eqb (toLowerCase v) "initial"
            || String.eqb (toLowerCase v) "revert" || String.eqb (toLowerCase v) "unset") eqn:E.
  - intros [= H]. rewrite H in E. discriminate E.
  - intros H. apply or_else_cases in H as [H|H];
      [eapply getLength_not_empty|eapply getPercentage_not_empty]; exact H.
Qed.

Ltac words H :=
  repeat match type of H with
         | Forall word (?t :: _) =>
             let Ht := fresh "Ht" in
             apply Forall_cons in H as [Ht H];
             destruct t; [destruct Ht as [Ht _]; contradiction|clear Ht]
         end.

(** X15. [getBorderRadius] on one to four tokens separated by spaces: it
    fails unless every token is a measurement, and otherwise each corner,
    in the order top-left, top-right, bottom-right, bottom-left, gets the
    measurement of its own token.  Tokens after the fourth are not looked
    at. *)
Theorem getBorderRadius_tokens (sep : string) (ts : list string) (important : js) :
  spaces sep → Forall word ts →
  getBorderRadius (join sep ts) important
  = match ts with
    | [] => Null
    | _ =>
        if forallb (fun t => truthy (getMeasurement t)) (take 4 ts)
        then Obj (list_to_map (zip corners
               ((fun t => PropertyValue (JS.of_result (getMeasurement t)) important)
                  <$> ts)))
        else Null
    end.
Proof.
  intros Hsep H.
  destruct ts as [|t0 ts]; [vm_compute; reflexivity|].
  unfold getBorderRadius. rewrite (split_SPACES sep (t0 :: ts) Hsep) by (discriminate || exact H).
  destruct ts as [|t1 [|t2 [|t3 ts]]]; words H;
    cbn [JS.when_part lookup list_lookup take forallb fmap list_fmap];
    repeat match goal with
           | |- context [getMeasurement ?t] =>
               let r := fresh "r" in
               let Hr := fresh "Hr" in
               pose proof (getMeasurement_not_empty t) as Hr; revert Hr;
               generalize (getMeasurement t); intros r Hr;
               destruct r as [[|? ?]|]; [exfalso; apply Hr; reflexivity|clear Hr..]
           end;
    vm_compute; reflexivity.
Qed.

Lemma getBorderRadius_tokens_witness :
  getBorderRadius "1px  50%  inherit" (Bool false)
  = Obj {[ "border-top-left-radius" := PropertyValue (Str "1px") (Bool false);
           "border-top-right-radius" := PropertyValue (Str "50%") (Bool false);
           "border-bottom-right-radius" := PropertyValue (Str "inherit") (Bool false) ]}.
Proof.
  pose proof (getBorderRadius_tokens "  " ["1px"; "50%"; "inherit"] (Bool false)) as H.
  lapply H; [clear H; intros H|split; [discriminate|reflexivity]].
  lapply H; [clear H; intros H|repeat constructor; discriminate].
  vm_compute in H |- *. exact H.
Defined.

Lemma getBorderWidth_not_null p important :
  getBorderWidth p important ≠ Null → JS.truthy (getBorderWidth p important) = true.
Proof. destruct (getBorderWidth_cases p important) as [->|[w ->]]; [contradiction|reflexivity]. Qed.

(** X16. A directional [border] shorthand ([getBorderTop] and the three
    others) on tokens separated by spaces is all or nothing: it succeeds
    exactly when there are at least three tokens and the first is a width,
    the second a style and the third a color, and then gives exactly the
    three longhands of that side.  Tokens after the third are not looked
    at. *)
Theorem getBorderByPosition_tokens
  (side sep : string) (ts : list string) (important : js) :
  side ∈ sides → spaces sep → Forall word ts →
  let result := getBorderByPosition side (join sep ts) important in
  (result ≠ Null ↔
     ∃ w s c rest, ts = w :: s :: c :: rest
       ∧ getBorderWidth w important ≠ Null
       ∧ getBorderStyle s important ≠ Null
       ∧ getColor c = Some c)
  ∧ (∀ w s c rest, ts = w :: s :: c :: rest → result ≠ Null →
       result = Obj {[ "border-" +:+ side +:+ "-width"
                         := JS.get (getBorderWidth w important) "border-width";
                       "border-" +:+ side +:+ "-style"
                         := JS.get (getBorderStyle s important) "border-style";
                       "border-" +:+ side +:+ "-color"
                         := PropertyValue (Str c) important ]}
       ∧ JS.entries result = 3).
Proof.
  intros Hside Hsep H result. subst result.
  destruct ts as [|t0 ts].
  { split; [|discriminate]. split; [intros Hn; exfalso; apply Hn; vm_compute; reflexivity|].
    intros (? & ? & ? & ? & ? & _). discriminate. }
  unfold getBorderByPosition.
  rewrite (split_SPACES sep (t0 :: ts) Hsep) by (discriminate || exact H).
  destruct ts as [|t1 [|t2 ts]]; words H;
    cbn [JS.when_part lookup list_lookup].
  - rewrite andb_false_r. split; [|discriminate]. split; [congruence|].
    intros (? & ? & ? & ? & ? & _). discriminate.
  - rewrite andb_false_r. split; [|discriminate]. split; [congruence|].
    intros (? & ? & ? & ? & ? & _). discriminate.
  - set (w := String a t0). set (st := String a0 t1). set (c := String a1 t2).
    destruct (getBorderWidth_cases w important) as [Ew|[vw Ew]];
      destruct (getBorderStyle_cases st important) as [Es|[vs Es]];
      destruct (getColor_cases c) as [Ec|Ec]; rewrite Ew, Es, Ec;
      cbn [JS.truthy JS.of_result andb];
      try (split; [split; [congruence|];
                   intros (? & ? & ? & ? & [= <- <- <- <-] & ? & ? & ?); congruence
                  |intros ? ? ? ? _ Hn; exfalso; apply Hn; reflexivity]).
    change (match c with EmptyString => false | String _ _ => true end) with true.
    cbv iota.
    split.
    + split; [intros _|discriminate].
      exists w, st, c, ts. rewrite Ew, Es. repeat split; auto; discriminate.
    + intros ? ? ? ? [= <- <- <- <-] _. rewrite Ew, Es. split; [reflexivity|].
      apply list_elem_of_In in Hside. simpl in Hside.
      destruct Hside as [<-|[<-|[<-|[<-|[]]]]]; vm_compute; reflexivity.
Qed.

Lemma getBorderByPosition_tokens_witness :
  getBorderByPosition "left" "thin dotted #abc ignored" (Bool false)
  = Obj {[ "border-left-width" := PropertyValue (Str "thin") (Bool false);
           "border-left-style" := PropertyValue (Str "dotted") (Bool false);
           "border-left-color" := PropertyValue (Str "#abc") (Bool false) ]}.
Proof.
  pose proof (getBorderByPosition_tokens "left" " "
                ["thin"; "dotted"; "#abc"; "ignored"] (Bool false)) as H.
  lapply H; [clear H; intros H|vm_compute; repeat constructor].
  lapply H; [clear H; intros H|split; [discriminate|reflexivity]].
  lapply H; [clear H; intros H|repeat constructor; discriminate].
  destruct H as [_ H].
  destruct (H "thin" "dotted" "#abc" ["ignored"] eq_refl) as [H' _];
    [vm_compute; discriminate|].
  vm_compute in H' |- *. exact H'.
Defined.

Lemma getMarginByPosition_measurement side value important :
  getMarginByPosition side value important
  = if truthy (getMeasurementOrAuto value)
    then Obj {[ "margin-" +:+ side
                  := PropertyValue (JS.of_result (getMeasurementOrAuto value)) important ]}
    else Null.
Proof.
  unfold getMarginByPosition, getMeasurementOrAuto.
  destruct (String.eqb (toLowerCase value) "auto") eqn:E; [|reflexivity].
  apply eqb_true in E. rewrite E. reflexivity.
Qed.

Lemma getMeasurementOrAuto_not_empty v : getMeasurementOrAuto v ≠ Some "".
Proof.
  unfold getMeasurementOrAuto. destruct (String.eqb (toLowerCase v) "auto") eqn:E.
  - intros [= H]. rewrite H in E. discriminate E.
  - apply getMeasurement_not_empty.
Qed.

(** X17. [getPadding] and [getMargin] on tokens separated by spaces: whether
    they succeed depends on the first token alone, and every side that
    has a token, in the order top, right, bottom, left, gets the
    measurement of the first token. *)
Theorem padding_margin_tokens (sep : string) (ts : list string) (important : js) :
  spaces sep → Forall word ts →
  getPadding (join sep ts) important
  = match ts with
    | [] => Null
    | t :: _ =>
        if truthy (getMeasurement t)
        then Obj (list_to_map (zip (longhands "padding")
               ((fun _ => PropertyValue (JS.of_result (getMeasurement t)) important)
                  <$> ts)))
        else Null
    end
  ∧ getMargin (join sep ts) important
    = match ts with
      | [] => Null
      | t :: _ =>
          if truthy (getMeasurementOrAuto t)
          then Obj (list_to_map (zip (longhands "margin")
                 ((fun _ => PropertyValue (JS.of_result (getMeasurementOrAuto t)) important)
                    <$> ts)))
          else Null
      end.
Proof.
  intros Hsep H.
  destruct ts as [|t0 ts]; [split; vm_compute; reflexivity|].
  unfold getPadding, getMargin.
  rewrite (split_SPACES sep (t0 :: ts) Hsep) by (discriminate || exact H).
  split.
  - destruct ts as [|t1 [|t2 [|t3 ts]]]; words H;
      cbn [JS.when_part when_part_first lookup list_lookup fmap list_fmap default id];
      unfold getPaddingByPosition;
      match goal with
      | |- context [getMeasurement ?t] =>
          let Hr := fresh "Hr" in
          pose proof (getMeasurement_not_empty t) as Hr; revert Hr;
          generalize (getMeasurement t); intros r Hr;
          destruct r as [[|? ?]|]; [exfalso; apply Hr; reflexivity|clear Hr..]
      end;
      vm_compute; reflexivity.
  - destruct ts as [|t1 [|t2 [|t3 ts]]]; words H;
      cbn [JS.when_part when_part_first lookup list_lookup fmap list_fmap default id];
      rewrite !getMarginByPosition_measurement;
      match goal with
      | |- context [getMeasurementOrAuto ?t] =>
          let Hr := fresh "Hr" in
          pose proof (getMeasurementOrAuto_not_empty t) as Hr; revert Hr;
          generalize (getMeasurementOrAuto t); intros r Hr;
          destruct r as [[|? ?]|]; [exfalso; apply Hr; reflexivity|clear Hr..]
      end;
      vm_compute; reflexivity.
Qed.

Lemma padding_margin_tokens_witness :
  getPadding "1px what ever" (Bool false)
  = Obj {[ "padding-top" := PropertyValue (Str "1px") (Bool false);
           "padding-right" := PropertyValue (Str "1px") (Bool false);
           "padding-bottom" := PropertyValue (Str "1px") (Bool false) ]}.
Proof.
  pose proof (padding_margin_tokens " " ["1px"; "what"; "ever"] (Bool false)) as H.
  lapply H; [clear H; intros H|split; [discriminate|reflexivity]].
  lapply H; [clear H; intros H|repeat constructor; discriminate].
  destruct H as [H _]. vm_compute in H |- *. exact H.
Defined.

(** *** [clip] *)

Lemma RepeatMatcher_class_fail (p : ascii → bool) c cs : ∀ bound t i,
  (∀ u t', t = u +:+ t' → all p u = true →
     c (mkState (i + String.length u) t' cs) = None) →
  RepeatMatcher (matcher (Chr p)) [] c bound 0 None (mkState i t cs) = None.
Proof.
  induction bound as [|bound IH]; intros t i H.
  - specialize (H "" t eq_refl eq_refl). simpl in H. rewrite Nat.add_0_r in H. exact H.
  - rewrite RepeatMatcher_star_step.
    assert (Hc : c (mkState i t cs) = None).
    { specialize (H "" t eq_refl eq_refl). simpl in H. rewrite Nat.add_0_r in H. exact H. }
    destruct t as [|a t]; [exact Hc|].
    rewrite matcher_Chr. destruct (p a) eqn:Ha; [|exact Hc].
    cbn [endIndex].
    assert (Nat.eqb (S i) i = false) as -> by (apply Nat.eqb_neq; lia).
    rewrite IH; [exact Hc|].
    intros u t' -> Hu. specialize (H (String a u) t' eq_refl).
    simpl in H. rewrite Ha, Hu in H. specialize (H eq_refl).
    replace (S i + String.length u) with (i + S (String.length u)) by lia. exact H.
Qed.

(** A greedy class that has to give code units back: the continuation
    fails after every longer stretch. *)
Lemma RepeatMatcher_class_backtrack (p : ascii → bool) c cs z : ∀ w bound s i,
  all p w = true →
  String.length (w +:+ s) ≤ bound →
  c (mkState (i + String.length w) s cs) = Some z →
  (∀ u s', s = u +:+ s' → u ≠ "" → all p u = true →
     c (mkState (i + String.length w + String.length u) s' cs) = None) →
  RepeatMatcher (matcher (Chr p)) [] c bound 0 None (mkState i (w +:+ s) cs) = Some z.
Proof.
  induction w as [|a w IH]; intros bound s i Hw Hb Hc Hlong.
  - change ("" +:+ s) with s. simpl in Hc, Hlong. rewrite Nat.add_0_r in Hc.
    destruct bound as [|bound]; [exact Hc|].
    rewrite RepeatMatcher_star_step.
    destruct s as [|b s]; [exact Hc|].
    rewrite matcher_Chr. destruct (p b) eqn:Hpb; [|exact Hc].
    cbn [endIndex].
    assert (Nat.eqb (S i) i = false) as -> by (apply Nat.eqb_neq; lia).
    rewrite RepeatMatcher_class_fail; [exact Hc|].
    intros u t' -> Hu. specialize (Hlong (String b u) t' eq_refl).
    simpl in Hlong. rewrite Hpb, Hu in Hlong.
    replace (S i + String.length u) with (i + 0 + S (String.length u)) by lia.
    apply Hlong; [discriminate|reflexivity].
  - cbn [all] in Hw. apply andb_true_iff in Hw as [Ha Hw].
    change (String a w +:+ s) with (String a (w +:+ s)) in *.
    cbn [String.length] in Hb, Hc, Hlong.
    destruct bound as [|bound]; [lia|].
    rewrite RepeatMatcher_star_step, matcher_Chr, Ha. cbn [endIndex].
    assert (Nat.eqb (S i) i = false) as -> by (apply Nat.eqb_neq; lia).
    rewrite (IH bound s (S i)); auto; [lia| |].
    + replace (S i + String.length w) with (i + S (String.length w)) by lia. exact Hc.
    + intros u s' E Hne Hu.
      replace (S i + String.length w) with (i + S (String.length w)) by lia. auto.
Qed.

Lemma star_class_backtrack (p : ascii → bool) c w s i cs z :
  all p w = true →
  c (mkState (i + String.length w) s cs) = Some z →
  (∀ u s', s = u +:+ s' → u ≠ "" → all p u = true →
     c (mkState (i + String.length w + String.length u) s' cs) = None) →
  matcher (star (Chr p)) c (mkState i (w +:+ s) cs) = Some z.
Proof.
  intros. unfold star. cbn [matcher rest]. apply RepeatMatcher_class_backtrack; auto.
Qed.

(** What [RECT_REGEXP] captures on a value in lower case: what is between
    [rect(] and the last code unit, a closing parenthesis. *)
Lemma exec_RECT inner :
  all Char.dot inner = true →
  exec RECT_REGEXP ("rect(" +:+ inner +:+ ")")
  = Some [Some ("rect(" +:+ inner +:+ ")"); Some inner].
Proof.
  intros Hinner.
  assert (Hfirst : match_at RECT_REGEXP 0 ("rect(" +:+ inner +:+ ")")
    = Some (mkState (String.length ("rect(" +:+ inner +:+ ")")) ""
              [Some ("rect(" +:+ inner +:+ ")"); Some inner])).
  { unfold match_at, RECT_REGEXP. cbn -[star String.length substring].
    apply (star_class_backtrack _ _ inner ")").
    - exact Hinner.
    - cbn -[String.length substring].
      unfold capture, advance. cbn [endIndex rest captures].
      change (eq_i ")" ")") with true. cbv iota.
      assert (Hlen : String.length ("rect(" +:+ inner +:+ ")")
                     = S (S (S (S (S (S (String.length inner))))))).
      { change ("rect(" +:+ inner +:+ ")")
          with (String "r" (String "e" (String "c" (String "t" (String "("
                  (inner +:+ ")")))))).
        cbn [String.length]. rewrite string_length_app. simpl. lia. }
      rewrite <- Hlen, Nat.sub_0_r, substring_all.
      replace (S (S (S (S (S (String.length inner))))) - 5)
        with (String.length inner) by lia.
      rewrite substring_app. reflexivity.
    - intros u s' E Hne _. destruct u as [|a u]; [contradiction|].
      assert (s' = "") as ->.
      { change (String a u +:+ s') with (String a (u +:+ s')) in E.
        injection E as _ E. destruct u as [|b u]; [symmetry; exact E|discriminate E]. }
      reflexivity. }
  unfold exec. unfold exec_from.
  destruct ("rect(" +:+ inner +:+ ")"); rewrite Hfirst; reflexivity.
Qed.

Lemma match_at_COMMA_none q a s :
  comma_space a = false → match_at COMMA q (String a s) = None.
Proof.
  intros Ha. apply orb_false_iff in Ha as [Hsp Hc].
  unfold match_at, COMMA. cbn -[star String.length substring].
  unfold star. cbn [matcher rest].
  apply RepeatMatcher_class_fail. intros u t' E Hu.
  destruct u as [|b u].
  - change ("" +:+ t') with t' in E. subst t'. cbn. rewrite Hc. reflexivity.
  - change (String b u +:+ t') with (String b (u +:+ t')) in E.
    injection E as <- _. simpl in Hu. rewrite Hsp in Hu. discriminate Hu.
Qed.

Lemma match_at_COMMA_some w1 w2 q s :
  all Char.space w1 = true → all Char.space w2 = true →
  stops comma_space s = true →
  ∃ y, match_at COMMA q (comma w1 w2 +:+ s) = Some y
       ∧ endIndex y = q + String.length (comma w1 w2).
Proof.
  intros H1 H2 Hs. unfold comma. rewrite !string_app_assoc.
  assert (Hs' : stops Char.space s = true).
  { destruct s as [|a s]; [reflexivity|]. simpl in *.
    apply negb_true_iff in Hs. apply orb_false_iff in Hs as [-> _]. reflexivity. }
  eexists. split.
  - unfold match_at, COMMA. cbn -[star String.length substring].
    apply (star_class_greedy _ _ w1 ("," +:+ w2 +:+ s)); [exact H1|reflexivity|].
    cbn -[star String.length substring].
    apply (star_class_greedy _ _ w2 s); [exact H2|exact Hs'|].
    reflexivity.
  - cbn. rewrite !string_length_app. simpl. lia.
Qed.

Lemma split_COMMA (w1 w2 : string) (ts : list string) :
  all Char.space w1 = true → all Char.space w2 = true →
  ts ≠ [] → Forall (token comma_space) ts →
  split COMMA (join (comma w1 w2) ts) = ts.
Proof.
  intros H1 H2 Hts H. apply (split_join _ comma_space (comma w1 w2)); auto.
  - intros q a s. apply match_at_COMMA_none.
  - intros q s. apply match_at_COMMA_some; assumption.
  - unfold comma. destruct w1; discriminate.
Qed.

Lemma blank_space c : blank c = true → Char.space c = true.
Proof. unfold blank. intros H. apply andb_true_iff in H as [H _]. exact H. Qed.

Lemma blank_dot c : blank c = true → Char.dot c = true.
Proof. unfold blank. intros H. apply andb_true_iff in H as [_ H]. exact H. Qed.

Lemma not_comma_space_dot c : negb (comma_space c) = true → Char.dot c = true.
Proof.
  unfold comma_space, Char.space, Char.dot. intros H. apply negb_true_iff in H.
  apply orb_false_iff in H as [H _].
  destruct (Char.code c =? 10)%N eqn:E1.
  { apply N.eqb_eq in E1. rewrite E1 in H. discriminate H. }
  destruct (Char.code c =? 13)%N eqn:E2.
  { apply N.eqb_eq in E2. rewrite E2 in H. discriminate H. }
  reflexivity.
Qed.

Lemma all_dot_join w1 w2 ms :
  all blank w1 = true → all blank w2 = true → Forall (token comma_space) ms →
  all Char.dot (join (comma w1 w2) ms) = true.
Proof.
  intros H1 H2 H.
  assert (Hsep : all Char.dot (comma w1 w2) = true).
  { unfold comma. rewrite !all_app, (all_impl _ _ w1 blank_dot H1),
      (all_impl _ _ w2 blank_dot H2). reflexivity. }
  induction ms as [|m ms IH]; [reflexivity|].
  apply Forall_cons in H as [[_ Hm] H]. specialize (IH H).
  apply (all_impl _ _ m not_comma_space_dot) in Hm.
  destruct ms as [|m' ms]; [exact Hm|].
  change (join (comma w1 w2) (m :: m' :: ms))
    with (m +:+ comma w1 w2 +:+ join (comma w1 w2) (m' :: ms)).
  rewrite !all_app, Hm, Hsep, IH. reflexivity.
Qed.

(** X18. [getClip] on [rect(] tokens [)], the tokens separated by commas
    with white space around them: it succeeds exactly when there are four
    tokens and each is a measurement.  The test is made on the value in
    lower case; the value that comes back is the one passed in, upper case
    and white space included. *)
Theorem getClip_tokens (value w1 w2 : string) (ms : list string) (important : js) :
  all blank w1 = true → all blank w2 = true →
  Forall (token comma_space) ms →
  toLowerCase value = "rect(" +:+ join (comma w1 w2) ms +:+ ")" →
  getClip value important
  = if Nat.eqb (length ms) 4 && forallb (fun m => truthy (getMeasurement m)) ms
    then Obj {[ "clip" := PropertyValue (Str value) important ]}
    else Null.
Proof.
  intros H1 H2 H Hlow. unfold getClip. rewrite Hlow.
  assert (Hk : ∀ t, String.eqb ("rect(" +:+ t) "auto"
                    || String.eqb ("rect(" +:+ t) "initial"
                    || String.eqb ("rect(" +:+ t) "inherit" = false) by reflexivity.
  rewrite Hk, exec_RECT by (apply all_dot_join; assumption).
  unfold group. cbn [lookup list_lookup mjoin option_join default id].
  destruct ms as [|m ms]; [reflexivity|].
  rewrite split_COMMA;
    [|eapply all_impl; [apply blank_space|eassumption]..|discriminate|exact H].
  destruct (Nat.eqb (length (m :: ms)) 4); [|reflexivity].
  cbn [negb andb]. reflexivity.
Qed.

Lemma getClip_tokens_witness :
  getClip "RECT(1PX , 2em , 0 , 50%)" (Bool false)
  = Obj {[ "clip" := PropertyValue (Str "RECT(1PX , 2em , 0 , 50%)") (Bool false) ]}
  ∧ getClip "rect(1px, 2px, 3px)" (Bool false) = Null.
Proof.
  split.
  - rewrite (getClip_tokens "RECT(1PX , 2em , 0 , 50%)" " " " " ["1px"; "2em"; "0"; "50%"]);
      [reflexivity|reflexivity|reflexivity| |reflexivity].
    repeat constructor; discriminate.
  - rewrite (getClip_tokens "rect(1px, 2px, 3px)" "" " " ["1px"; "2px"; "3px"]);
      [reflexivity|reflexivity|reflexivity| |reflexivity].
    repeat constructor; discriminate.
Defined.

(** Group 1 of [RECT_REGEXP] takes part in every match, so that
    [matches[1]] in [getClip] is always a string. *)
Lemma match_at_RECT_group i s z :
  match_at RECT_REGEXP i s = Some z → is_Some (mjoin (captures z !! 1)).
Proof.
  unfold match_at.
  change (S (list_max (groups RECT_REGEXP))) with 2.
  set (x0 := mkState i s (replicate 2 None)).
  change (matcher (Grp 0 RECT_REGEXP) Some x0)
    with (matcher RECT_REGEXP (λ y, Some (capture 0 x0 y)) x0).
  intros E. unfold RECT_REGEXP in E. cbn [seqs] in E.
  apply Seq_sound in E. destruct E as (y1 & [L1 _] & E).
  apply Seq_sound in E. destruct E as (y2 & [L2 _] & E).
  change (matcher (Seq ?a ?b) ?c ?x) with (matcher a (matcher b c) x) in E.
  apply Grp_sound in E. destruct E as (y3 & [L3 _] & E).
  apply Seq_sound in E. destruct E as (y4 & [L4 F4] & E).
  apply (matcher_sound Eol) in E. destruct E as (y5 & _ & [L5 F5] & E).
  injection E as <-. cbn [capture captures].
  rewrite list_lookup_insert_ne by discriminate.
  rewrite F5, F4 by (cbn; set_solver).
  cbn [capture captures]. rewrite list_lookup_insert_eq; [eexists; reflexivity|].
  rewrite L3, L2, L1. cbn. lia.
Qed.

Lemma exec_RECT_group value result :
  exec RECT_REGEXP value = Some result → is_Some (group 1 result).
Proof.
  unfold exec, group.
  assert (H : ∀ i, exec_from RECT_REGEXP i value = Some result →
                   is_Some (mjoin (result !! 1))); [|apply H].
  induction value as [|ch value IH]; intros i H; cbn [exec_from] in H;
    destruct (match_at RECT_REGEXP i _) as [z|] eqn:E;
    try discriminate H; try (injection H as <-; eapply match_at_RECT_group; exact E).
  eapply IH. exact H.
Qed.

(** *** [getFlex] and [getBackground] on any receiver *)

#[local] Existing Instance M_ret.
#[local] Existing Instance M_bind.

Lemma bind_Throw {A B} (m : M A) (k : A → M B) this :
  m this = Throw TypeError → (m ≫= k) this = Throw TypeError.
Proof. unfold mbind, M_bind. intros ->. reflexivity. Qed.

Lemma bind_Normal {A B} (m : M A) (k : A → M B) this a this' :
  m this = Normal (a, this') → (m ≫= k) this = k a this'.
Proof. unfold mbind, M_bind. intros ->. reflexivity. Qed.

Lemma when_partM_call parts i member this :
  when_partM parts i (call member) this = Throw TypeError
  ∨ ∃ v, when_partM parts i (call member) this = Normal (v, this).
Proof.
  unfold when_partM, call. destruct (parts !! i) as [[|c p]|]; [right; eexists; reflexivity| |right; eexists; reflexivity].
  destruct (member this); [right; eexists; reflexivity|left; reflexivity].
Qed.

Lemma when_partM_pure parts i (f : string → js) this :
  when_partM parts i (fun p => mret (f p)) this = Normal (JS.when_part parts i f, this).
Proof.
  unfold when_partM, JS.when_part. destruct (parts !! i) as [[|c p]|]; reflexivity.
Qed.

Lemma store3 k1 v1 k2 v2 k3 v3 this :
  stored ((store k1 v1;; store k2 v2;; store k3 v3) this)
  = match properties this with
    | Some o => Normal (Some (<[k3 := v3]> (<[k2 := v2]> (<[k1 := v1]> o))))
    | None => Throw TypeError
    end.
Proof. destruct this as [[o|] gi gc gu]; reflexivity. Qed.

(** X19. Whatever the value and the receiver, [getFlex] throws, or leaves
    [this.properties] as it was, or sets [flex-grow], [flex-shrink] and
    [flex-basis] together, with the [important] passed in, and touches no
    other property. *)
Theorem getFlex_writes (name value : string) (important : js) (this : Receiver) :
  let result := stored (getFlex name value important this) in
  result = Throw TypeError
  ∨ result = Normal (properties this)
  ∨ ∃ o grow shrink basis,
      properties this = Some o
      ∧ result = Normal (Some (<["flex-basis" := PropertyValue basis important]>
                              (<["flex-shrink" := PropertyValue shrink important]>
                              (<["flex-grow" := PropertyValue grow important]> o)))).
Proof.
  intros result. subst result.
  assert (H3 : ∀ g s b,
    stored ((store "flex-grow" (PropertyValue g important);;
             store "flex-shrink" (PropertyValue s important);;
             store "flex-basis" (PropertyValue b important)) this) = Throw TypeError
    ∨ stored ((store "flex-grow" (PropertyValue g important);;
               store "flex-shrink" (PropertyValue s important);;
               store "flex-basis" (PropertyValue b important)) this)
      = Normal (properties this)
    ∨ ∃ o grow shrink basis,
        properties this = Some o
        ∧ stored ((store "flex-grow" (PropertyValue g important);;
                   store "flex-shrink" (PropertyValue s important);;
                   store "flex-basis" (PropertyValue b important)) this)
          = Normal (Some (<["flex-basis" := PropertyValue basis important]>
                         (<["flex-shrink" := PropertyValue shrink important]>
                         (<["flex-grow" := PropertyValue grow important]> o))))).
  { intros g s b. rewrite store3. destruct (properties this) as [o|]; [|left; reflexivity].
    right. right. exists o, g, s, b. split; reflexivity. }
  unfold getFlex.
  destruct (String.eqb (toLowerCase (trim value)) "none"); [apply H3|].
  destruct (String.eqb (toLowerCase (trim value)) "auto"); [apply H3|].
  destruct (String.eqb (toLowerCase (trim value)) "initial"); [apply H3|].
  destruct (String.eqb (toLowerCase (trim value)) "inherit"); [apply H3|].
  generalize (split SPACES value). intros parts.
  destruct (when_partM_call parts 0 getInteger_member this) as [E|[g E]].
  { left. rewrite (bind_Throw _ _ _ E). reflexivity. }
  rewrite (bind_Normal _ _ _ _ _ E).
  destruct (when_partM_call parts 1 getInteger_member this) as [E'|[sh E']].
  { left. rewrite (bind_Throw _ _ _ E'). reflexivity. }
  rewrite (bind_Normal _ _ _ _ _ E').
  rewrite (bind_Normal _ _ _ _ _ (when_partM_pure parts 2 _ this)).
  destruct (JS.truthy g && JS.truthy sh && JS.truthy _); [apply H3|].
  right. left. reflexivity.
Qed.

Lemma call_cases member arg this :
  call member arg this = Throw TypeError
  ∨ ∃ v, call member arg this = Normal (v, this).
Proof.
  unfold call. destruct (member this); [right; eexists; reflexivity|left; reflexivity].
Qed.

Lemma store5 c i k3 v3 k4 v4 k5 v5 important this :
  stored ((when c (store "background-color" (PropertyValue c important));;
           when i (store "background-image" (PropertyValue i important));;
           store k3 v3;; store k4 v4;; store k5 v5) this)
  = match properties this with
    | Some o =>
        Normal (Some (<[k5 := v5]> (<[k4 := v4]> (<[k3 := v3]>
                  (set_when "background-image" i important
                     (set_when "background-color" c important o))))))
    | None => Throw TypeError
    end.
Proof.
  unfold when, set_when.
  destruct this as [[o|] gi gc gu]; destruct (JS.truthy c), (JS.truthy i); reflexivity.
Qed.

(** X20. Whatever the value and the receiver, [getBackground] throws, or
    leaves [this.properties] as it was, or sets [background-repeat],
    [background-attachment] and [background-position] together, after the
    color and the image when they are there, of which there is at least
    one; it touches no other property. *)
Theorem getBackground_writes (name value : string) (important : js) (this : Receiver) :
  let result := stored (getBackground name value important this) in
  result = Throw TypeError
  ∨ result = Normal (properties this)
  ∨ ∃ o color image repeat attachment position,
      properties this = Some o
      ∧ JS.truthy color || JS.truthy image = true
      ∧ result
        = Normal (Some (<["background-position" := PropertyValue position important]>
                       (<["background-attachment" := PropertyValue attachment important]>
                       (<["background-repeat" := PropertyValue repeat important]>
                       (set_when "background-image" image important
                          (set_when "background-color" color important o)))))).
Proof.
  intros result. subst result. unfold getBackground.
  generalize (split SPACES value). intros parts.
  destruct (parts !! 0) as [[|c0 p0]|]; [right; left; reflexivity| |right; left; reflexivity].
  destruct (call_cases getColor_member (String c0 p0) this) as [E|[isColor E]].
  { left. rewrite (bind_Throw _ _ _ E). reflexivity. }
  rewrite (bind_Normal _ _ _ _ _ E).
  generalize (if JS.truthy isColor then parts else "" :: parts). clear parts. intros parts.
  destruct (when_partM_call parts 0 getColor_member this) as [E0|[color E0]].
  { left. rewrite (bind_Throw _ _ _ E0). reflexivity. }
  rewrite (bind_Normal _ _ _ _ _ E0).
  destruct (when_partM_call parts 1 getURL_member this) as [E1|[image E1]].
  { left. rewrite (bind_Throw _ _ _ E1). reflexivity. }
  rewrite (bind_Normal _ _ _ _ _ E1).
  rewrite (bind_Normal _ _ _ _ _ (when_partM_pure parts 2 _ this)).
  rewrite (bind_Normal _ _ _ _ _ (when_partM_pure parts 3 _ this)).
  rewrite (bind_Normal _ _ _ _ _ (when_partM_pure parts 4 _ this)).
  destruct (JS.truthy color || JS.truthy image) eqn:Eci; [|right; left; reflexivity].
  cbn [andb].
  destruct (JS.not_null _ && JS.not_null _ && JS.not_null _); [|right; left; reflexivity].
  rewrite store5. destruct (properties this) as [o|]; [|left; reflexivity].
  right. right. do 6 eexists. split; [reflexivity|]. split; [exact Eci|reflexivity].
Qed.

(** *** A value that begins with a space *)

Lemma span (p : ascii → bool) (v : string) :
  ∃ w s, v = w +:+ s ∧ all p w = true ∧ stops p s = true.
Proof.
  induction v as [|a v (w & s & -> & Hw & Hs)].
  - exists "", "". auto.
  - destruct (p a) eqn:Ha.
    + exists (String a w), s. simpl. rewrite Ha, Hw. auto.
    + exists "", (String a (w +:+ s)). simpl. rewrite Ha. auto.
Qed.

Lemma split_from_prefix r s : ∀ q k piece A,
  split_from r q s k piece A = (A ++ split_from r q s k piece [])%list.
Proof.
  induction s as [|ch s IH]; intros q k piece A; cbn [split_from]; [reflexivity|].
  destruct k as [|k]; [|apply IH].
  destruct (match_at r q (String ch s)) as [y|]; [|apply IH].
  destruct (Nat.eqb (endIndex y) q).
  - destruct piece; [apply IH|].
    rewrite IH, (IH _ _ _ ([] ++ _)%list), <- app_assoc. reflexivity.
  - rewrite IH, (IH _ _ _ ([] ++ _)%list), <- app_assoc. reflexivity.
Qed.

(** The first piece of a value that begins with a separator is empty. *)
Lemma split_leading (p : ascii → bool) (a : ascii) (v : string) :
  p a = true → ∃ parts, split (plus (Chr p)) (String a v) = "" :: parts.
Proof.
  intros Ha. destruct (span p v) as (w & s & -> & Hw & Hs).
  unfold split. change (String a (w +:+ s)) with (String a w +:+ s).
  rewrite (split_from_sep (plus (Chr p)) p (String a w)).
  - rewrite split_from_prefix. eexists. reflexivity.
  - intros q t Ht. apply match_at_plus_some; [|discriminate|exact Ht].
    simpl. rewrite Ha, Hw. reflexivity.
  - discriminate.
  - exact Hs.
Qed.

(** X21. A value that begins with a space is refused by every shorthand
    that splits on spaces: the first piece is empty.  [getBorder],
    [getBorderRadius], the directional [border]s, [getPadding] and
    [getMargin] return [null]; [getBackground] returns without a call to
    the receiver. *)
Theorem leading_space_rejected (v : string) (important : js) :
  let value := String " " v in
  getBorder value important = Null
  ∧ getBorderRadius value important = Null
  ∧ (∀ side, getBorderByPosition side value important = Null)
  ∧ getPadding value important = Null
  ∧ getMargin value important = Null
  ∧ (∀ name this, getBackground name value important this = Normal ((), this)).
Proof.
  intros value. subst value.
  destruct (split_leading (Char.eq " ") " " v eq_refl) as [parts Hs].
  change (plus (Chr (Char.eq " "))) with SPACES in Hs.
  unfold getBorder, getBorderRadius, getBorderByPosition, getPadding, getMargin,
    getBackground.
  rewrite Hs. repeat split; intros; reflexivity.
Qed.

(** X22. [getFlex] trims the value for its four keywords and splits it
    untrimmed otherwise: a value that begins with a space and is not one
    of the keywords stores nothing, on a receiver that has [getInteger]. *)
Theorem getFlex_leading_space
  (name v : string) (important : js) (this : Receiver) (f : string → option string) :
  getInteger_member this = Some f →
  let value := String " " v in
  ¬ toLowerCase (trim value) ∈ ["none"; "auto"; "initial"; "inherit"] →
  getFlex name value important this = Normal ((), this).
Proof.
  intros Hf value Hk. subst value.
  destruct (split_leading (Char.eq " ") " " v eq_refl) as [parts Hs].
  change (plus (Chr (Char.eq " "))) with SPACES in Hs.
  unfold getFlex. rewrite Hs.
  set (k := toLowerCase (trim (String " " v))) in *.
  destruct (String.eqb k "none") eqn:E1.
  { exfalso. apply Hk. apply eqb_true in E1 as ->. repeat constructor. }
  destruct (String.eqb k "auto") eqn:E2.
  { exfalso. apply Hk. apply eqb_true in E2 as ->. repeat constructor. }
  destruct (String.eqb k "initial") eqn:E3.
  { exfalso. apply Hk. apply eqb_true in E3 as ->. repeat constructor. }
  destruct (String.eqb k "inherit") eqn:E4.
  { exfalso. apply Hk. apply eqb_true in E4 as ->. repeat constructor. }
  unfold mbind, M_bind.
  change (when_partM ("" :: parts) 0 (call getInteger_member) this)
    with (Normal (Str "", this)).
  cbv iota beta.
  assert (E : ∃ sh, when_partM ("" :: parts) 1 (call getInteger_member) this
                    = Normal (sh, this)).
  { unfold when_partM, call.
    destruct parts as [|[|c p] parts']; cbn [lookup list_lookup]; rewrite ?Hf;
      eexists; reflexivity. }
  destruct E as [sh ->]. cbv iota beta.
  rewrite when_partM_pure. reflexivity.
Qed.

Lemma getFlex_leading_space_witness :
  stored (getFlex "flex" " 1 1 auto" (Bool false) (with_members ∅)) = Normal (Some ∅)
  ∧ stored (getFlex "flex" "1 1 auto" (Bool false) (with_members ∅))
    = Normal (Some {[ "flex-grow" := PropertyValue (Str "1") (Bool false);
                      "flex-shrink" := PropertyValue (Str "1") (Bool false);
                      "flex-basis" := PropertyValue
                        (Obj {[ "flex-basis" := PropertyValue (Str "auto") Undefined ]})
                        (Bool false) ]}).
Proof.
  split.
  - rewrite (getFlex_leading_space "flex" "1 1 auto" (Bool false) (with_members ∅)
               getInteger eq_refl); [reflexivity|].
    vm_compute. intros H. repeat (inversion H as [|? ? ? H']; subst; clear H; rename H' into H).
  - vm_compute. reflexivity.
Defined.

(** *** [background-position] on tokens *)

(** X23. [getBackgroundPosition] on tokens separated by white space.  One
    token has to be a length (not a percentage), one of the five keywords
    or [inherit].  Two tokens have to be both a length or a percentage, or
    both a keyword; a keyword next to a length is refused.  More tokens
    are refused.  Two keywords come back in lower case with one space
    between them; two measurements keep the white space of the value. *)
Theorem getBackgroundPosition_tokens (sep : string) (ts : list string) (important : js) :
  sep ≠ "" → all Char.space sep = true → Forall (token Char.space) ts →
  getBackgroundPosition (join sep ts) important
  = match ts with
    | [t] =>
        if truthy (getLength t)
        then Obj {[ "background-position" := PropertyValue (Str t) important ]}
        else if includes BACKGROUND_POSITION (toLowerCase t)
                || String.eqb (toLowerCase t) "inherit"
        then Obj {[ "background-position"
                      := PropertyValue (Str (toLowerCase t)) important ]}
        else Null
    | [t0; t1] =>
        if truthy (or_else (getLength t0) (getPercentage t0))
           && truthy (or_else (getLength t1) (getPercentage t1))
        then Obj {[ "background-position"
                      := PropertyValue (Str (toLowerCase (t0 +:+ sep +:+ t1))) important ]}
        else if includes BACKGROUND_POSITION (toLowerCase t0)
                && includes BACKGROUND_POSITION (toLowerCase t1)
        then Obj {[ "background-position"
                      := PropertyValue (Str (toLowerCase t0 +:+ " " +:+ toLowerCase t1))
                           important ]}
        else Null
    | _ => Null
    end.
Proof.
  intros Hne Hsep H.
  destruct ts as [|t0 ts]; [reflexivity|].
  unfold getBackgroundPosition.
  change WHITE_SPACE with (plus (Chr Char.space)).
  rewrite (split_join_class Char.space sep (t0 :: ts) Hsep Hne) by (discriminate || exact H).
  assert (Hj : ∃ a s, join sep (t0 :: ts) = String a s).
  { apply Forall_cons in H as [[Ht _] _]. destruct t0 as [|a t0]; [contradiction|].
    destruct ts; cbn [join]; eexists _, _; reflexivity. }
  destruct Hj as (a & s & Hj).
  destruct ts as [|t1 [|t2 ts]].
  - cbn [join] in *. rewrite Hj. rewrite <- Hj. reflexivity.
  - rewrite Hj. rewrite <- Hj. reflexivity.
  - rewrite Hj. reflexivity.
Qed.

Lemma getBackgroundPosition_tokens_witness :
  getBackgroundPosition "50%" (Bool false) = Null
  ∧ getBackgroundPosition "left 10px" (Bool false) = Null
  ∧ getBackgroundPosition "LEFT   Top" (Bool false)
    = Obj {[ "background-position" := PropertyValue (Str "left top") (Bool false) ]}.
Proof.
  split; [|split].
  - refine (getBackgroundPosition_tokens " " ["50%"] (Bool false) _ _ _);
      [discriminate|reflexivity|repeat constructor; discriminate].
  - refine (getBackgroundPosition_tokens " " ["left"; "10px"] (Bool false) _ _ _);
      [discriminate|reflexivity|repeat constructor; discriminate].
  - refine (getBackgroundPosition_tokens "   " ["LEFT"; "Top"] (Bool false) _ _ _);
      [discriminate|reflexivity|repeat constructor; discriminate].
Defined.

(** *** The class as the receiver *)

(** X24. [getFlexBasis] never returns [null]: for a value that is neither a
    keyword nor a length the entry is there with the value [null]. *)
Theorem getFlexBasis_never_null (value : string) (important : js) :
  ∃ v, getFlexBasis value important
       = Obj {[ "flex-basis" := PropertyValue v important ]}
       ∧ (v = Null ↔ includes FLEX_BASIS (toLowerCase value) = false
                      ∧ getLength value = None).
Proof.
  unfold getFlexBasis. destruct (includes FLEX_BASIS (toLowerCase value)).
  - eexists. split; [reflexivity|]. split; [discriminate|intros [H _]; discriminate H].
  - destruct (getLength value) as [r|]; (eexists; split; [reflexivity|]).
    + split; [discriminate|intros [_ H]; discriminate H].
    + split; auto.
Qed.

Lemma getFlexBasis_never_null_witness :
  ∃ v, getFlexBasis "1PX" (Bool false)
       = Obj {[ "flex-basis" := PropertyValue v (Bool false) ]}
       ∧ (v = Null ↔ includes FLEX_BASIS (toLowerCase "1PX") = false
                      ∧ getLength "1PX" = None).
Proof. exact (getFlexBasis_never_null "1PX" (Bool false)). Defined.

(** X25. Called on the class, which has neither [properties] nor
    [getInteger], [getColor] and [getURL], [getBackground] and [getFlex]
    throw for every value whose first piece is not empty. *)
Theorem class_receiver_throws (name value : string) (important : js) (p0 : string) :
  present (split SPACES value) 0 p0 →
  getBackground name value important static_this = Throw TypeError
  ∧ getFlex name value important static_this = Throw TypeError.
Proof.
  intros [H0 Hne]. split.
  - unfold getBackground. rewrite H0. destruct p0; [contradiction|]. reflexivity.
  - unfold getFlex.
    destruct (String.eqb _ "none"); [reflexivity|].
    destruct (String.eqb _ "auto"); [reflexivity|].
    destruct (String.eqb _ "initial"); [reflexivity|].
    destruct (String.eqb _ "inherit"); [reflexivity|].
    unfold mbind, M_bind, when_partM. rewrite H0.
    destruct p0; [contradiction|]. reflexivity.
Qed.

Lemma class_receiver_throws_witness :
  getBackground "background" "url(a.png)" (Bool false) static_this = Throw TypeError
  ∧ getFlex "flex" "1 1 auto" (Bool false) static_this = Throw TypeError.
Proof.
  split.
  - apply (class_receiver_throws "background" "url(a.png)" (Bool false) "url(a.png)").
    split; [reflexivity|discriminate].
  - apply (class_receiver_throws "flex" "1 1 auto" (Bool false) "1").
    split; [reflexivity|discriminate].
Defined.

(** *** [getFlex] and [getBackground] on a receiver that has the members *)

Lemma getURL_not_empty v : getURL v ≠ Some "".
Proof.
  intros H. destruct v as [|c v]; [discriminate H|].
  apply getURL_cases in H as [[_ H]|H]; discriminate H.
Qed.

(** X26. [getFlex] on three or more tokens separated by spaces, for a value
    that is not one of the four keywords and a receiver that has the
    members: when the first two tokens are integers the three properties
    are stored, whatever the third token is, and what is stored as the
    value of [flex-basis] is the object that [getFlexBasis] returns, with
    an [important] that is [undefined], not a string; otherwise nothing is
    stored. *)
Theorem getFlex_tokens
  (name sep g s b : string) (rest : list string) (important : js) (o : gmap string js) :
  spaces sep → Forall word (g :: s :: b :: rest) →
  let value := join sep (g :: s :: b :: rest) in
  ¬ toLowerCase (trim value) ∈ ["none"; "auto"; "initial"; "inherit"] →
  stored (getFlex name value important (with_members o))
  = Normal (Some
      (if truthy (getInteger g) && truthy (getInteger s)
       then <["flex-basis" := PropertyValue (getFlexBasis b Undefined) important]>
            (<["flex-shrink" := PropertyValue (Str s) important]>
            (<["flex-grow" := PropertyValue (Str g) important]> o))
       else o)).
Proof.
  intros Hsep H value Hk. subst value.
  unfold getFlex.
  set (k := toLowerCase (trim (join sep (g :: s :: b :: rest)))) in *.
  destruct (String.eqb k "none") eqn:E1.
  { exfalso. apply Hk. apply eqb_true in E1 as ->. repeat constructor. }
  destruct (String.eqb k "auto") eqn:E2.
  { exfalso. apply Hk. apply eqb_true in E2 as ->. repeat constructor. }
  destruct (String.eqb k "initial") eqn:E3.
  { exfalso. apply Hk. apply eqb_true in E3 as ->. repeat constructor. }
  destruct (String.eqb k "inherit") eqn:E4.
  { exfalso. apply Hk. apply eqb_true in E4 as ->. repeat constructor. }
  clear k Hk E1 E2 E3 E4.
  rewrite (split_SPACES sep _ Hsep) by (discriminate || exact H).
  words H.
  unfold mbind, M_bind, when_partM, call, with_members.
  cbn [lookup list_lookup getInteger_member mret M_ret].
  set (tg := String a g). set (ts := String a0 s). set (tb := String a1 b).
  unfold getInteger.
  destruct (parseInt_isNaN tg), (parseInt_isNaN ts); cbn [negb JS.of_result truthy andb JS.truthy];
    try reflexivity.
  destruct (getFlexBasis_total tb Undefined) as [v Hv]. rewrite Hv. reflexivity.
Qed.

Lemma getFlex_tokens_witness :
  stored (getFlex "flex" "1 2 whatever" (Bool true) (with_members ∅))
  = Normal (Some {[ "flex-grow" := PropertyValue (Str "1") (Bool true);
                    "flex-shrink" := PropertyValue (Str "2") (Bool true);
                    "flex-basis" := PropertyValue
                      (Obj {[ "flex-basis" := PropertyValue Null Undefined ]})
                      (Bool true) ]}).
Proof.
  pose proof (getFlex_tokens "flex" " " "1" "2" "whatever" [] (Bool true) ∅) as H.
  lapply H; [clear H; intros H|split; [discriminate|reflexivity]].
  lapply H; [clear H; intros H|repeat constructor; discriminate].
  cbv zeta in H. lapply H; [clear H; intros H|].
  - vm_compute in H |- *. exact H.
  - vm_compute. intros Hk.
    repeat (inversion Hk as [|? ? ? Hk']; subst; clear Hk; rename Hk' into Hk).
Defined.

(** X27. [getBackground] on one token, for a receiver that has the members:
    a color is stored as [background-color], otherwise a URL is stored as
    [background-image], and in both cases [background-repeat],
    [background-attachment] and [background-position] are stored with the
    empty string as their value; a token that is neither stores nothing. *)
Theorem getBackground_one_token
  (name t : string) (important : js) (o : gmap string js) :
  word t →
  stored (getBackground name t important (with_members o))
  = Normal (Some
      match getColor t, getURL t with
      | Some c, _ =>
          <["background-position" := PropertyValue (Str "") important]>
          (<["background-attachment" := PropertyValue (Str "") important]>
          (<["background-repeat" := PropertyValue (Str "") important]>
          (<["background-color" := PropertyValue (Str c) important]> o)))
      | None, Some u =>
          <["background-position" := PropertyValue (Str "") important]>
          (<["background-attachment" := PropertyValue (Str "") important]>
          (<["background-repeat" := PropertyValue (Str "") important]>
          (<["background-image" := PropertyValue (Str u) important]> o)))
      | None, None => o
      end).
Proof.
  intros Ht. unfold getBackground.
  change (split SPACES t) with (split (plus (Chr (Char.eq " "))) (join " " [t])).
  rewrite (split_join_class (Char.eq " ") " " [t]);
    [|reflexivity|discriminate|discriminate|apply Forall_cons; split; [exact Ht|constructor]].
  destruct Ht as [Hne _]. destruct t as [|a t]; [contradiction|].
  cbn [lookup list_lookup].
  assert (Hcolor : ∀ p, call getColor_member p (with_members o)
                        = Normal (JS.of_result (getColor p), with_members o))
    by reflexivity.
  assert (HURL : ∀ p, call getURL_member p (with_members o)
                      = Normal (JS.of_result (getURL p), with_members o))
    by reflexivity.
  rewrite (bind_Normal _ _ _ _ _ (Hcolor _)).
  destruct (getColor_cases (String a t)) as [Ec|Ec]; rewrite Ec;
    cbn [JS.of_result JS.truthy]; unfold when_partM; cbn [lookup list_lookup].
  - rewrite (bind_Normal _ _ (with_members o) (Str "") (with_members o) eq_refl).
    rewrite (bind_Normal _ _ _ _ _ (HURL _)).
    pose proof (getURL_not_empty (String a t)) as Hu.
    destruct (getURL (String a t)) as [[|c u]|]; [contradiction|reflexivity|reflexivity].
  - rewrite (bind_Normal _ _ _ _ _ (Hcolor _)), Ec. reflexivity.
Qed.

Lemma getBackground_one_token_witness :
  stored (getBackground "background" "url(a.png)" (Bool false) (with_members ∅))
  = Normal (Some {[ "background-image" := PropertyValue (Str "url(a.png)") (Bool false);
                    "background-repeat" := PropertyValue (Str "") (Bool false);
                    "background-attachment" := PropertyValue (Str "") (Bool false);
                    "background-position" := PropertyValue (Str "") (Bool false) ]}).
Proof.
  pose proof (getBackground_one_token "background" "url(a.png)" (Bool false) ∅) as H.
  lapply H; [clear H; intros H|split; [discriminate|reflexivity]].
  vm_compute in H |- *. exact H.
Defined.

End PropertyParserProperties.
